(** * Movie recommendation notebook (CC-Project.ipynb): a shallow embedding

    The notebook is a linear script over pandas, scikit-learn, difflib and
    statistics.  The embedding keeps the script's own code (the control flow,
    the exception handlers, the list manipulation, the pivot/filter step) as
    executable definitions and takes the numerical and string libraries it
    calls as an interface with the contract their documentation states. *)

From Stdlib Require Import String Ascii ZArith QArith Qcanon Lia Bool Arith List.
From Stdlib Require Import DecimalString.
From Stdlib Require Import Sorting.Sorted Sorting.Permutation.
Import ListNotations.

Close Scope Qc_scope.
Close Scope Q_scope.
Open Scope nat_scope.

Set Implicit Arguments.

(** ** Python exceptions and results *)

Inductive exn : Type :=
| FileNotFoundError
| StatisticsError
| ValueError
| IndexError
| KeyError
| TypeError
| EOFError
| OtherError (msg : string).

Definition exn_eqb (a b : exn) : bool :=
  match a, b with
  | FileNotFoundError, FileNotFoundError => true
  | StatisticsError, StatisticsError => true
  | ValueError, ValueError => true
  | IndexError, IndexError => true
  | KeyError, KeyError => true
  | TypeError, TypeError => true
  | EOFError, EOFError => true
  | OtherError m, OtherError m' => String.eqb m m'
  | _, _ => false
  end.

Lemma exn_eqb_eq (a b : exn) : exn_eqb a b = true <-> a = b.
Proof.
  destruct a, b; simpl; split; intro E; try reflexivity; try discriminate.
  - apply String.eqb_eq in E. now subst.
  - injection E as ->. apply String.eqb_refl.
Qed.

Lemma exn_eqb_neq (a b : exn) : a <> b -> exn_eqb a b = false.
Proof.
  intro N. destruct (exn_eqb a b) eqn:E; [|reflexivity].
  apply exn_eqb_eq in E. contradiction.
Qed.

(** A call either raises or returns. *)
Definition result (A : Type) : Type := (exn + A)%type.

(** ** Floating-point values

    Ratings, matrix entries and distances are Python floats.  The script only
    compares them, averages them (inside [pivot_table]) and formats them, so
    they are kept behind an interface; [Reference.QcFloat] below is the
    interface in exact rational arithmetic. *)

Class FloatOps (float : Type) : Type := {
  f_zero : float;                          (* the 0 of fillna(0) *)
  f_leb : float -> float -> bool;          (* <= on the (non-NaN) values *)
  f_mean : list float -> float;            (* pandas' mean aggregation *)
  format_4f : float -> string;             (* the format spec :.4f *)
  f_leb_total : forall x y, f_leb x y = true \/ f_leb y x = true;
  f_leb_trans : forall x y z,
      f_leb x y = true -> f_leb y z = true -> f_leb x z = true;
  f_mean_single : forall x, f_mean [x] = x
}.

(** Python's [<] on floats, which [sorted] uses. *)
Definition f_ltb {float : Type} `{FloatOps float} (x y : float) : bool := negb (f_leb y x).

Lemma f_leb_refl {float : Type} `{FloatOps float} (x : float) : f_leb x x = true.
Proof. destruct (f_leb_total x x); assumption. Qed.

Lemma f_ltb_leb {float : Type} `{FloatOps float} (x y : float) : f_ltb x y = true -> f_leb x y = true.
Proof.
  unfold f_ltb. intro L. destruct (f_leb_total x y) as [E|E]; [exact E|].
  rewrite E in L. discriminate.
Qed.

Lemma f_ltb_false_leb {float : Type} `{FloatOps float} (x y : float) :
  f_ltb x y = false -> f_leb y x = true.
Proof. unfold f_ltb. now destruct (f_leb y x). Qed.

(** ** Generic list helpers used by the DataFrame model *)

Section ListHelpers.
Variable A : Type.

(** Position of the first element satisfying [p]. *)
Fixpoint find_index (p : A -> bool) (l : list A) : option nat :=
  match l with
  | [] => None
  | x :: r => if p x then Some 0 else option_map S (find_index p r)
  end.

Lemma find_index_none (p : A -> bool) (l : list A) :
  find_index p l = None <-> forall x, In x l -> p x = false.
Proof.
  induction l as [|a l IH]; simpl.
  - split; [intros _ x []|reflexivity].
  - destruct (p a) eqn:Pa.
    + split; [discriminate|]. intro Hf. specialize (Hf a (or_introl eq_refl)).
      congruence.
    + destruct (find_index p l) as [i|]; simpl.
      * split; [discriminate|]. intro Hf.
        assert (Some i = None) as E; [|discriminate E].
        apply IH. intros x Hx. apply Hf. now right.
      * split; [|reflexivity]. intros _ x [<-|Hx]; [exact Pa|].
        now apply (proj1 IH).
Qed.

Lemma find_index_some (p : A -> bool) (l : list A) (i : nat) :
  find_index p l = Some i ->
  exists x, nth_error l i = Some x /\ p x = true /\
            forall j y, j < i -> nth_error l j = Some y -> p y = false.
Proof.
  revert i. induction l as [|a l IH]; simpl; intros i E; [discriminate|].
  destruct (p a) eqn:Pa.
  - injection E as <-. exists a. repeat split; [exact Pa|]. intros j y Hj. lia.
  - destruct (find_index p l) as [k|]; simpl in E; [|discriminate].
    injection E as <-. destruct (IH k eq_refl) as (x & Hx & Px & Hmin).
    exists x. repeat split; [exact Hx|exact Px|].
    intros [|j] y Hj Hy; simpl in Hy.
    + injection Hy as <-. exact Pa.
    + apply (Hmin j y); [lia|exact Hy].
Qed.

Lemma In_firstn (n : nat) (l : list A) (x : A) : In x (firstn n l) -> In x l.
Proof.
  intro H. rewrite <- (firstn_skipn n l). apply in_or_app. now left.
Qed.

Lemma In_skipn (n : nat) (l : list A) (x : A) : In x (skipn n l) -> In x l.
Proof.
  intro H. rewrite <- (firstn_skipn n l). apply in_or_app. now right.
Qed.

Lemma find_index_lt (p : A -> bool) (l : list A) (i : nat) :
  find_index p l = Some i -> i < length l.
Proof.
  intro E. destruct (find_index_some _ _ E) as (x & Hx & _).
  apply nth_error_Some. congruence.
Qed.
End ListHelpers.

Lemma in_combine_map (A B : Type) (f : A -> B) (l : list A) (a : A) (b : B) :
  In (a, b) (combine l (map f l)) -> b = f a.
Proof.
  induction l as [|x l IH]; simpl; [contradiction|].
  intros [H|H]; [now injection H as <- <-|now apply IH].
Qed.

(** Sorted list of the distinct values of an integer column: the labels of a
    [pivot_table] axis or of a [groupby]. *)
Fixpoint insert_unique (x : Z) (l : list Z) : list Z :=
  match l with
  | [] => [x]
  | y :: r =>
      if (x <? y)%Z then x :: y :: r
      else if (x =? y)%Z then y :: r
      else y :: insert_unique x r
  end.

Definition sorted_unique (l : list Z) : list Z :=
  fold_right insert_unique [] l.

Lemma insert_unique_In (x y : Z) (l : list Z) :
  In y (insert_unique x l) <-> y = x \/ In y l.
Proof.
  induction l as [|a l IH]; simpl.
  - intuition.
  - destruct (x <? a)%Z eqn:L; simpl; [intuition|].
    destruct (x =? a)%Z eqn:E; simpl.
    + apply Z.eqb_eq in E. subst. intuition.
    + rewrite IH. intuition.
Qed.

Lemma sorted_unique_In (y : Z) (l : list Z) : In y (sorted_unique l) <-> In y l.
Proof.
  induction l as [|a l IH]; simpl; [reflexivity|].
  rewrite insert_unique_In, IH. intuition.
Qed.

Lemma insert_unique_sorted (x : Z) (l : list Z) :
  StronglySorted Z.lt l -> StronglySorted Z.lt (insert_unique x l).
Proof.
  induction l as [|a l IH]; simpl; intro S.
  - repeat constructor.
  - inversion S as [|? ? Sl Fa]; subst.
    destruct (x <? a)%Z eqn:L.
    + apply Z.ltb_lt in L. constructor; [exact S|].
      constructor; [exact L|].
      eapply Forall_impl; [|exact Fa]. intros; simpl in *. lia.
    + destruct (x =? a)%Z eqn:E; [exact S|].
      apply Z.ltb_ge in L. apply Z.eqb_neq in E.
      constructor; [now apply IH|].
      apply Forall_forall. intros y Hy. apply insert_unique_In in Hy.
      destruct Hy as [->|Hy]; [lia|].
      rewrite Forall_forall in Fa. now apply Fa.
Qed.

Lemma sorted_unique_sorted (l : list Z) : StronglySorted Z.lt (sorted_unique l).
Proof.
  induction l as [|a l IH]; simpl; [constructor|].
  now apply insert_unique_sorted.
Qed.

Lemma StronglySorted_lt_NoDup (l : list Z) : StronglySorted Z.lt l -> NoDup l.
Proof.
  induction 1 as [|a l S IH Fa]; constructor; [|exact IH].
  intro Hin. rewrite Forall_forall in Fa. specialize (Fa a Hin). lia.
Qed.

Lemma sorted_unique_NoDup (l : list Z) : NoDup (sorted_unique l).
Proof. apply StronglySorted_lt_NoDup, sorted_unique_sorted. Qed.

(** No value occurs twice. *)
Fixpoint distinct (l : list Z) : bool :=
  match l with
  | [] => true
  | x :: r => negb (existsb (Z.eqb x) r) && distinct r
  end.

Lemma distinct_NoDup (l : list Z) : distinct l = true -> NoDup l.
Proof.
  induction l as [|x l IH]; simpl; intro H; constructor;
    apply andb_true_iff in H; destruct H as [Hx Hl]; [|now apply IH].
  intro Hin. apply negb_true_iff in Hx.
  assert (existsb (Z.eqb x) l = true) as E; [|congruence].
  apply existsb_exists. exists x. split; [exact Hin|apply Z.eqb_refl].
Qed.

(** Case analysis on the value a [match] of the goal inspects. *)
Ltac split_match :=
  match goal with
  | |- context [match ?x with _ => _ end] => destruct x
  end.

(** ** An int64 read as a float64

    An int64 that passes through a float64 array comes back as the nearest
    float64, ties to the even significand: itself while it has at most 53
    bits, a multiple of a power of two beyond.  [float64_of_int z] is that
    float64, written as the integer it equals. *)
Definition float64_of_int (z : Z) : Z :=
  let a := Z.abs z in
  if (a <? 2 ^ 53)%Z then z
  else
    let e := (Z.log2 a - 52)%Z in
    let q := Z.shiftr a e in
    let r := (a - Z.shiftl q e)%Z in
    let half := Z.shiftl 1 (e - 1) in
    let q' := if (r <? half)%Z then q
              else if (half <? r)%Z then (q + 1)%Z
              else if Z.even q then q else (q + 1)%Z in
    (Z.sgn z * Z.shiftl q' e)%Z.

(** A scalar read out of a DataFrame: a numpy int64, or a float64 (here
    always one that holds an integer). *)
Inductive number : Type :=
| Int64 (z : Z)
| Float64 (z : Z).

(** [x == y] for an int64 [x] of a column and a scalar [y]: against a
    float64 the int64 is converted first. *)
Definition int64_eqb (x : Z) (y : number) : bool :=
  match y with
  | Int64 z => (x =? z)%Z
  | Float64 f => (float64_of_int x =? f)%Z
  end.

(** The int64 survives the conversion. *)
Definition exact_float64 (z : Z) : bool := (float64_of_int z =? z)%Z.

Lemma float64_of_int_small (z : Z) :
  (Z.abs z < 2 ^ 53)%Z -> float64_of_int z = z.
Proof.
  intro H. unfold float64_of_int.
  now replace (Z.abs z <? 2 ^ 53)%Z with true by (symmetry; now apply Z.ltb_lt).
Qed.

(** ** The two CSV files and the DataFrames built from them *)

Section Notebook.
Context {float : Type} {FO : FloatOps float}.

(** A row of movies.csv and a row of ratings.csv. *)
Record movie_row : Type := {
  m_movieId : Z;
  m_title : string;
  m_genres : string
}.

Record rating_row : Type := {
  r_userId : Z;
  r_movieId : Z;
  r_rating : float;
  r_timestamp : Z
}.

Definition matrix : Type := list (list float).

(** A DataFrame with integer row and column labels; [V] is [option float]
    while cells may be NaN and [float] after [fillna]. *)
Record DataFrame (V : Type) : Type := {
  index : list Z;
  columns : list Z;
  values : list (list V)
}.

(** The frame after [reset_index()]: the old index is the column
    ['movieId'], the other columns are the user ids, and the new index is
    the row position. *)
Record dataset : Type := {
  ds_movieId : list Z;
  ds_users : list Z;
  ds_values : matrix             (* final_dataset.iloc[:, 1:].values *)
}.

(** The ratings of movie [m] by user [u], in file order. *)
Definition ratings_of (ratings : list rating_row) (m u : Z) : list float :=
  map r_rating
      (filter (fun r => (r_movieId r =? m)%Z && (r_userId r =? u)%Z) ratings).

(** A cell of [pivot_table]: the mean (the default [aggfunc]) of the group,
    NaN for an empty group. *)
Definition pivot_cell (ratings : list rating_row) (m u : Z) : option float :=
  match ratings_of ratings m u with
  | [] => None
  | rs => Some (f_mean rs)
  end.

(** [ratings.pivot_table(index='movieId', columns='userId', values='rating')] *)
Definition pivot_table (ratings : list rating_row) : DataFrame (option float) :=
  let idx := sorted_unique (map r_movieId ratings) in
  let cols := sorted_unique (map r_userId ratings) in
  {| index := idx;
     columns := cols;
     values := map (fun m => map (pivot_cell ratings m) cols) idx |}.

Definition fill (v : float) (c : option float) : float :=
  match c with Some x => x | None => v end.

(** [df.fillna(v, inplace=True)] *)
Definition fillna (v : float) (df : DataFrame (option float)) : DataFrame float :=
  {| index := index df;
     columns := columns df;
     values := map (map (fill v)) (values df) |}.

(** [ratings.groupby('userId')['rating'].count()]: a Series indexed by the
    sorted user ids. *)
Definition count_ratings (ratings : list rating_row) (u : Z) : nat :=
  List.length (filter (fun r => (r_userId r =? u)%Z) ratings).

Definition groupby_userId_count (ratings : list rating_row) : list (Z * nat) :=
  map (fun u => (u, count_ratings ratings u))
      (sorted_unique (map r_userId ratings)).

(** [s[s > k].index] *)
Definition index_where_gt (k : nat) (s : list (Z * nat)) : list Z :=
  map fst (filter (fun p => k <? snd p) s).

(** [df.loc[:, labels]]: the columns with these labels, in the order of
    [labels]; a label that is not a column raises KeyError. *)
Fixpoint column_positions (cols labels : list Z) : result (list nat) :=
  match labels with
  | [] => inr []
  | u :: rest =>
      match find_index (Z.eqb u) cols, column_positions cols rest with
      | Some p, inr ps => inr (p :: ps)
      | None, _ => inl KeyError
      | _, inl e => inl e
      end
  end.

Definition loc_columns (labels : list Z) (df : DataFrame float)
  : result (DataFrame float) :=
  match column_positions (columns df) labels with
  | inl e => inl e
  | inr ps =>
      inr {| index := index df;
             columns := labels;
             values := map (fun row => map (fun p => nth p row f_zero) ps)
                           (values df) |}
  end.

(** [df.reset_index()] *)
Definition reset_index (df : DataFrame float) : dataset :=
  {| ds_movieId := index df;
     ds_users := columns df;
     ds_values := values df |}.

(** The pure part of [load_and_preprocess_data], after the two files are
    read. *)
Definition preprocess (ratings : list rating_row) : result dataset :=
  let final_dataset := fillna f_zero (pivot_table ratings) in
  let no_movies_voted := groupby_userId_count ratings in
  match loc_columns (index_where_gt 50 no_movies_voted) final_dataset with
  | inl e => inl e
  | inr final_dataset => inr (reset_index final_dataset)
  end.

(** The entry the preprocessed matrix holds for movie [m] and user [u]. *)
Definition entry (ratings : list rating_row) (m u : Z) : float :=
  fill f_zero (pivot_cell ratings m u).

(** The users kept by the filter. *)
Definition kept_users (ratings : list rating_row) : list Z :=
  filter (fun u => 50 <? count_ratings ratings u)
         (sorted_unique (map r_userId ratings)).

Lemma index_where_gt_groupby (ratings : list rating_row) :
  index_where_gt 50 (groupby_userId_count ratings) = kept_users ratings.
Proof.
  unfold index_where_gt, groupby_userId_count, kept_users.
  induction (sorted_unique (map r_userId ratings)) as [|u l IH]; simpl;
    [reflexivity|].
  destruct (50 <? count_ratings ratings u); simpl; now rewrite IH.
Qed.

Lemma find_index_Zeqb_nth (cols : list Z) (u : Z) :
  In u cols ->
  exists p, find_index (Z.eqb u) cols = Some p /\ nth_error cols p = Some u.
Proof.
  intro Hin. destruct (find_index (Z.eqb u) cols) as [p|] eqn:E.
  - exists p. split; [reflexivity|].
    destruct (find_index_some _ _ E) as (x & Hx & Px & _).
    apply Z.eqb_eq in Px. now subst.
  - exfalso. rewrite find_index_none in E. specialize (E u Hin).
    rewrite Z.eqb_refl in E. discriminate.
Qed.

(** Selecting existing columns never raises, and picks each label's own
    cell out of every row built over [cols]. *)
Lemma column_positions_select (cols labels : list Z) :
  incl labels cols ->
  exists ps, column_positions cols labels = inr ps /\
             forall (g : Z -> float),
               map (fun p => nth p (map g cols) f_zero) ps = map g labels.
Proof.
  induction labels as [|u rest IH]; intro Hincl.
  - exists []. split; [reflexivity|]. reflexivity.
  - destruct IH as (ps & Eps & Hsel).
    { intros x Hx. apply Hincl. now right. }
    destruct (@find_index_Zeqb_nth cols u) as (p & Ep & Hp).
    { apply Hincl. now left. }
    exists (p :: ps). split.
    + simpl. now rewrite Ep, Eps.
    + intro g. simpl. rewrite Hsel. f_equal.
      apply nth_error_nth. rewrite nth_error_map, Hp. reflexivity.
Qed.

(** What [preprocess] computes, cell by cell. *)
Lemma preprocess_spec (ratings : list rating_row) :
  preprocess ratings =
  inr {| ds_movieId := sorted_unique (map r_movieId ratings);
         ds_users := kept_users ratings;
         ds_values :=
           map (fun m => map (entry ratings m) (kept_users ratings))
               (sorted_unique (map r_movieId ratings)) |}.
Proof.
  unfold preprocess, loc_columns. rewrite index_where_gt_groupby. simpl.
  destruct (@column_positions_select
              (sorted_unique (map r_userId ratings)) (kept_users ratings))
    as (ps & Eps & Hsel).
  { intros u Hu. unfold kept_users in Hu. now apply filter_In in Hu. }
  rewrite Eps. unfold reset_index. simpl. do 2 apply f_equal.
  rewrite !map_map. apply map_ext. intro m.
  rewrite map_map.
  change (fun x => fill f_zero (pivot_cell ratings m x)) with (entry ratings m).
  apply Hsel.
Qed.

(** ** Python's [sorted(l, key=...)] and the slice [[:0:-1]] *)

Section Sorted.
Variable A : Type.
Variable key : A -> float.

(** [sorted] is stable: elements with equal keys keep their order.  The
    element [x] stood before all of [l], so it goes in front of the first
    element whose key is not smaller than its own. *)
Fixpoint insert_sorted (x : A) (l : list A) : list A :=
  match l with
  | [] => [x]
  | y :: r =>
      if f_ltb (key y) (key x) then y :: insert_sorted x r else x :: y :: r
  end.

Definition sorted (l : list A) : list A := fold_right insert_sorted [] l.

(** [l[:0:-1]]: from the last element down to, and without, position 0. *)
Definition slice_to_0_reversed (l : list A) : list A := rev (tl l).

Definition key_le (a b : A) : Prop := f_leb (key a) (key b) = true.
Definition key_ge (a b : A) : Prop := f_leb (key b) (key a) = true.

Lemma insert_sorted_perm (x : A) (l : list A) :
  Permutation (insert_sorted x l) (x :: l).
Proof.
  induction l as [|y r IH]; simpl; [reflexivity|].
  destruct (f_ltb (key y) (key x)); [|reflexivity].
  rewrite IH. apply perm_swap.
Qed.

Lemma sorted_perm (l : list A) : Permutation (sorted l) l.
Proof.
  induction l as [|x l IH]; simpl; [reflexivity|].
  rewrite insert_sorted_perm. now constructor.
Qed.

Lemma sorted_length (l : list A) : List.length (sorted l) = List.length l.
Proof. apply Permutation_length, sorted_perm. Qed.

Lemma insert_sorted_ascending (x : A) (l : list A) :
  StronglySorted key_le l -> StronglySorted key_le (insert_sorted x l).
Proof.
  induction l as [|y r IH]; simpl; intro S.
  - repeat constructor.
  - inversion S as [|? ? Sr Fy]; subst.
    destruct (f_ltb (key y) (key x)) eqn:L.
    + constructor; [now apply IH|].
      apply Forall_forall. intros z Hz.
      apply (Permutation_in _ (insert_sorted_perm x r)) in Hz.
      destruct Hz as [<-|Hz]; [now apply f_ltb_leb|].
      rewrite Forall_forall in Fy. now apply Fy.
    + apply f_ltb_false_leb in L.
      constructor; [exact S|]. constructor; [exact L|].
      eapply Forall_impl; [|exact Fy]. intros z Hz.
      unfold key_le in *. eapply f_leb_trans; eassumption.
Qed.

Lemma sorted_ascending (l : list A) : StronglySorted key_le (sorted l).
Proof.
  induction l as [|x l IH]; simpl; [constructor|].
  now apply insert_sorted_ascending.
Qed.

(** A list that is already in ascending key order is left as it is. *)
Lemma sorted_ascending_id (l : list A) :
  StronglySorted key_le l -> sorted l = l.
Proof.
  induction 1 as [|x l S IH Fx]; simpl; [reflexivity|].
  rewrite IH. destruct l as [|y r]; simpl; [reflexivity|].
  inversion Fx as [|? ? Hxy _]; subst. unfold key_le in Hxy.
  unfold f_ltb. now rewrite Hxy.
Qed.

Lemma StronglySorted_tl (R : A -> A -> Prop) (l : list A) :
  StronglySorted R l -> StronglySorted R (tl l).
Proof. destruct 1; simpl; [constructor|assumption]. Qed.

Lemma StronglySorted_app_one (R : A -> A -> Prop) (l : list A) (x : A) :
  StronglySorted R l -> Forall (fun y => R y x) l ->
  StronglySorted R (l ++ [x]).
Proof.
  induction 1 as [|y l S IH Fy]; simpl; intro Fx.
  - repeat constructor.
  - inversion Fx; subst. constructor; [now apply IH|].
    apply Forall_app. split; [exact Fy|]. now repeat constructor.
Qed.

Lemma StronglySorted_rev (R : A -> A -> Prop) (l : list A) :
  StronglySorted R l -> StronglySorted (fun a b => R b a) (rev l).
Proof.
  induction 1 as [|x l S IH Fx]; simpl; [constructor|].
  apply StronglySorted_app_one; [exact IH|].
  apply Forall_rev. exact Fx.
Qed.

(** The slice of a sorted list runs from the largest key down. *)
Lemma slice_sorted_descending (l : list A) :
  StronglySorted key_ge (slice_to_0_reversed (sorted l)).
Proof.
  unfold slice_to_0_reversed.
  apply (@StronglySorted_rev key_le), StronglySorted_tl, sorted_ascending.
Qed.

Lemma slice_length (l : list A) :
  List.length (slice_to_0_reversed l) = pred (List.length l).
Proof.
  unfold slice_to_0_reversed. rewrite length_rev. now destruct l.
Qed.
End Sorted.

(** ** The libraries the notebook calls

    Fuzzy matching (difflib), nearest-neighbour search with cosine distance
    and the two classifiers (scikit-learn) and the variance (statistics) are
    not code of the notebook.  They are an interface here; each function
    comes with the part of its documented behaviour that the notebook relies
    on. *)

Section LibraryInterface.

Definition ascending (ds : list float) : Prop :=
  StronglySorted (fun a b => f_leb a b = true) ds.

(** What [kneighbors] promises about its answer for the query [q] against
    the fitted rows [X]: [k] distinct rows, reported with their distance to
    [q], nearest first, and no row left out is nearer than a reported one. *)
Definition nearest (metric : list float -> list float -> float)
           (X : matrix) (q : list float) (k : nat)
           (distances : list float) (indices : list nat) : Prop :=
  List.length indices = k /\
  NoDup indices /\
  (forall i, In i indices -> i < List.length X) /\
  distances = map (fun i => metric q (nth i X [])) indices /\
  ascending distances /\
  (forall i j, In i indices -> j < List.length X -> ~ In j indices ->
               f_leb (metric q (nth i X [])) (metric q (nth j X [])) = true).

(** The query has as many entries as each fitted row has columns. *)
Definition same_width (X : matrix) (q : list float) : bool :=
  forallb (fun row => List.length row =? List.length q) X.

(** The four parts [train_test_split] returns. *)
Record split : Type := {
  X_train : matrix;
  X_test : matrix;
  y_train : list bool;
  y_test : list bool
}.

Record Library : Type := {
  (** difflib.get_close_matches(word, possibilities, n) *)
  get_close_matches : string -> list string -> nat -> list string;
  get_close_matches_length :
    forall w ps n, List.length (get_close_matches w ps n) <= n;
  get_close_matches_In :
    forall w ps n t, In t (get_close_matches w ps n) -> In t ps;

  (** NearestNeighbors(metric=..., algorithm=...): the distance a metric
      names; what [fit] checks, the two parameters and the array; and
      [kneighbors] of a model with this metric and algorithm on the fitted
      rows, which returns (distances, indices): a ValueError when more
      neighbours are asked than there are rows, and the rows nearest under
      the model's metric when the query has the width of the fitted rows.
      (For a metric or an algorithm the library does not know, [fit]
      raises, and no model is ever fitted.) *)
  distance : string -> list float -> list float -> float;
  fit_checks : string -> string -> matrix -> result unit;
  kneighbors : string -> string -> matrix -> list float -> nat
               -> result (list float * list nat);
  kneighbors_out_of_range :
    forall metric algorithm X q k,
      k = 0 \/ List.length X < k ->
      kneighbors metric algorithm X q k = inl ValueError;
  kneighbors_nearest :
    forall metric algorithm X q k,
      same_width X q = true -> 1 <= k <= List.length X ->
      exists ds ixs, kneighbors metric algorithm X q k = inr (ds, ixs) /\
                     nearest (distance metric) X q k ds ixs;

  (** statistics.variance: needs at least two data points. *)
  variance : list float -> result float;
  variance_too_short :
    forall l, List.length l < 2 -> variance l = inl StatisticsError;
  variance_defined :
    forall l, 2 <= List.length l -> exists v, variance l = inr v;

  (** sklearn: the split, the two classifiers and the two scores.
      [SVC().fit] has [random_state=None]: it draws the seed of libsvm from
      numpy's global generator.  [SVC_fit X y rng] is the outcome of the fit
      when [rng] are the words the generator will produce, and the number
      of words the fit has drawn: at least one when it returns. *)
  classifier : Type;
  train_test_split : matrix -> list bool -> Q -> Z -> result split;
  SVC_fit : matrix -> list bool -> (nat -> Z) -> result classifier * nat;
  SVC_fit_draws :
    forall X y rng c drawn, SVC_fit X y rng = (inr c, drawn) -> 1 <= drawn;
  KNeighborsClassifier_fit : nat -> matrix -> list bool -> result classifier;
  predict : classifier -> matrix -> result (list bool);
  precision_score : list bool -> list bool -> Z -> result float;
  recall_score : list bool -> list bool -> Z -> result float
}.
(** The distance of [metric='cosine']. *)
Definition cosine_distance (lib : Library) : list float -> list float -> float :=
  distance lib "cosine".
End LibraryInterface.

(** ** Program state, output and the monad of the script *)

Section Script.
Variable lib : Library.

(** The DataFrame [get_movie_recommendation] returns: columns Title and
    Distance under an explicit index. *)
Record frame : Type := {
  df_index : list nat;
  df_rows : list (string * float)
}.

(** The NearestNeighbors object: its constructor arguments and, once
    fitted, the rows it was fitted on. *)
Record NearestNeighbors : Type := {
  nn_metric : string;
  nn_algorithm : string;
  nn_n_neighbors : nat;
  nn_n_jobs : Z;
  nn_fit_X : option matrix
}.

(** Calls that leave the script: files, console, libraries, plots. *)
Inductive call : Type :=
| read_csv_call (path : string)
| get_close_matches_call (word : string) (possibilities : list string) (n : nat)
| fit_call (X : matrix)
| kneighbors_call (q : list float) (n_neighbors : nat)
| randint_call (low high : Z) (size : nat)
| train_test_split_call (X : matrix) (y : list bool)
                        (test_size : Q) (random_state : Z)
| SVC_fit_call (X : matrix) (y : list bool)
| KNeighborsClassifier_fit_call (n_neighbors : nat) (X : matrix) (y : list bool)
| predict_call (X : matrix)
| precision_score_call (y_true y_pred : list bool) (zero_division : Z)
| recall_score_call (y_true y_pred : list bool) (zero_division : Z)
| variance_call (data : list float)
| histplot_call (data : list float) (bins : nat) (kde : bool)
| show_call (title xlabel ylabel : string)
| input_call (prompt : string).

(** What a run leaves behind, in order: console output, the calls made, and
    every exception at the moment it is raised. *)
Inductive event : Type :=
| Print (s : string)
| PrintFrame (df : frame)
| Call (c : call)
| Raised (e : exn).

(** What [pd.read_csv] finds for each of the two paths. *)
Record files : Type := {
  movies_csv : result (list movie_row);
  ratings_csv : result (list rating_row)
}.

(** The variables of [main]; [None] before the assignment. *)
Record vars : Type := {
  v_movies : option (list movie_row);
  v_ratings : option (list rating_row);
  v_final_dataset : option dataset;
  v_knn : option NearestNeighbors;
  v_csr_data : option matrix
}.

Definition no_vars : vars :=
  {| v_movies := None; v_ratings := None; v_final_dataset := None;
     v_knn := None; v_csr_data := None |}.

(** The whole program state.  [st_rng] is numpy's global generator, seen as
    the stream of 32-bit words it will still produce. *)
Record state : Type := {
  st_files : files;
  st_rng : nat -> Z;
  st_vars : vars;
  st_out : list event
}.

Definition M (A : Type) : Type := state -> result A * state.

Definition ret {A : Type} (a : A) : M A := fun s => (inr a, s).

Definition bind {A B : Type} (m : M A) (f : A -> M B) : M B :=
  fun s => match m s with
           | (inl e, s') => (inl e, s')
           | (inr a, s') => f a s'
           end.

Definition emit (e : event) : M unit :=
  fun s => (inr tt,
            {| st_files := st_files s;
               st_rng := st_rng s; st_vars := st_vars s;
               st_out := st_out s ++ [e] |}).

(** The state [s] after the events [evs] were appended to its output. *)
Definition logged (s : state) (evs : list event) : state :=
  {| st_files := st_files s; st_rng := st_rng s; st_vars := st_vars s;
     st_out := st_out s ++ evs |}.

(** [raise e]: the exception is recorded, and the computation stops. *)
Definition raise {A : Type} (e : exn) : M A :=
  fun s => (inl e, snd (emit (Raised e) s)).

(** The outcome of a pure step: its value, or the exception it raises. *)
Definition lift {A : Type} (r : result A) : M A :=
  match r with
  | inl e => raise e
  | inr a => ret a
  end.

Definition print (s : string) : M unit := emit (Print s).

(** A library call: logged, then its result or its exception. *)
Definition call_lib {A : Type} (c : call) (r : result A) : M A :=
  bind (emit (Call c)) (fun _ => lift r).

(** [try: body  except E: handler] *)
Definition try_except {A : Type} (body : M A) (E : exn) (handler : M A) : M A :=
  fun s => match body s with
           | (inl e, s') => if exn_eqb e E then handler s' else (inl e, s')
           | (inr a, s') => (inr a, s')
           end.

Definition get_vars : M vars := fun s => (inr (st_vars s), s).

Definition set_vars (v : vars) : M unit :=
  fun s => (inr tt,
            {| st_files := st_files s;
               st_rng := st_rng s; st_vars := v; st_out := st_out s |}).

(** Reading a variable of [main]; an unbound one raises. *)
Definition read_var {A : Type} (field : vars -> option A) : M A :=
  fun s => match field (st_vars s) with
           | Some a => ret a s
           | None => raise (OtherError "UnboundLocalError") s
           end.
Notation "x <- c1 ;; c2" := (bind c1 (fun x => c2))
  (at level 61, c1 at next level, right associativity).
Notation "c1 ;; c2" := (bind c1 (fun _ => c2))
  (at level 61, right associativity).

Definition nl : string := String "010"%char EmptyString.

(** ** load_and_preprocess_data *)

Definition read_movies : M (list movie_row) :=
  fun s => call_lib (read_csv_call "movies.csv") (movies_csv (st_files s)) s.

Definition read_ratings : M (list rating_row) :=
  fun s => call_lib (read_csv_call "ratings.csv") (ratings_csv (st_files s)) s.

Definition not_found_message : string :=
  "Error: movies.csv or ratings.csv not found. Please ensure files are in the correct directory.".

Definition load_and_preprocess_data
  : M (option (list movie_row) * option (list rating_row) * option dataset) :=
  try_except
    (movies <- read_movies ;;
     ratings <- read_ratings ;;
     final_dataset <- lift (preprocess ratings) ;;
     ret (Some movies, Some ratings, Some final_dataset))
    FileNotFoundError
    (print not_found_message ;;
     ret (None, None, None)).

(** ** create_recommendation_model *)

(** [knn.fit(X)]: checks the parameters and the input and keeps the rows. *)
Definition NearestNeighbors_fit (knn : NearestNeighbors) (X : matrix)
  : M NearestNeighbors :=
  call_lib (fit_call X) (fit_checks lib (nn_metric knn) (nn_algorithm knn) X) ;;
  ret {| nn_metric := nn_metric knn; nn_algorithm := nn_algorithm knn;
         nn_n_neighbors := nn_n_neighbors knn; nn_n_jobs := nn_n_jobs knn;
         nn_fit_X := Some X |}.

Definition create_recommendation_model (final_dataset : dataset)
  : M (NearestNeighbors * matrix) :=
  let csr_data := ds_values final_dataset in
  let knn := {| nn_metric := "cosine"; nn_algorithm := "brute";
                nn_n_neighbors := 20; nn_n_jobs := (-1)%Z;
                nn_fit_X := None |} in
  knn <- NearestNeighbors_fit knn csr_data ;;
  ret (knn, csr_data).

(** ** train_models *)

(** [np.random.randint(0, 2, size=size)]: each number is the lowest bit of
    the next word of the global generator, which moves on by [size]
    words. *)
Definition randint_0_2 (size : nat) : M (list bool) :=
  fun s => (inr (map (fun i => Z.odd (st_rng s i)) (seq 0 size)),
            {| st_files := st_files s;
               st_rng := fun i => st_rng s (size + i);
               st_vars := st_vars s;
               st_out := st_out s ++ [Call (randint_call 0 2 size)] |}).

Definition get_rng : M (nat -> Z) := fun s => (inr (st_rng s), s).

(** The global generator after [drawn] more words were taken. *)
Definition advance (drawn : nat) : M unit :=
  fun s => (inr tt,
            {| st_files := st_files s;
               st_rng := fun i => st_rng s (drawn + i);
               st_vars := st_vars s;
               st_out := st_out s |}).

(** [SVC().fit(X, y)]: the fit takes its seed from the global generator,
    which moves on by the words drawn, also when the fit raises. *)
Definition SVC_fit_default (X : matrix) (y : list bool) : M (classifier lib) :=
  rng <- get_rng ;;
  emit (Call (SVC_fit_call X y)) ;;
  advance (snd (SVC_fit lib X y rng)) ;;
  lift (fst (SVC_fit lib X y rng)).

Definition scores_line (precision recall : float) : string :=
  ("Precision: " ++ format_4f precision ++ ", Recall: " ++ format_4f recall)%string.

Definition train_models (final_dataset : dataset)
  : M (classifier lib * classifier lib) :=
  let X := ds_values final_dataset in
  y <- randint_0_2 (List.length X) ;;
  sp <- call_lib (train_test_split_call X y (2 # 10) 42)
                 (train_test_split lib X y (2 # 10) 42) ;;
  svm_model <- SVC_fit_default (X_train sp) (y_train sp) ;;
  y_pred_svm <- call_lib (predict_call (X_test sp))
                         (predict lib svm_model (X_test sp)) ;;
  precision_svm <- call_lib (precision_score_call (y_test sp) y_pred_svm 1)
                            (precision_score lib (y_test sp) y_pred_svm 1) ;;
  recall_svm <- call_lib (recall_score_call (y_test sp) y_pred_svm 1)
                         (recall_score lib (y_test sp) y_pred_svm 1) ;;
  print "SVM model -: " ;;
  print (scores_line precision_svm recall_svm) ;;
  print nl ;;
  knn_model <- call_lib (KNeighborsClassifier_fit_call 5 (X_train sp) (y_train sp))
                        (KNeighborsClassifier_fit lib 5 (X_train sp) (y_train sp)) ;;
  y_pred_knn <- call_lib (predict_call (X_test sp))
                         (predict lib knn_model (X_test sp)) ;;
  precision_knn <- call_lib (precision_score_call (y_test sp) y_pred_knn 1)
                            (precision_score lib (y_test sp) y_pred_knn 1) ;;
  recall_knn <- call_lib (recall_score_call (y_test sp) y_pred_knn 1)
                         (recall_score lib (y_test sp) y_pred_knn 1) ;;
  print "K-NN model -:" ;;
  print (scores_line precision_knn recall_knn) ;;
  print nl ;;
  ret (svm_model, knn_model).

(** ** visualize_datasets *)

Definition visualize_datasets (final_dataset : dataset) : M unit :=
  call_lib (histplot_call (concat (ds_values final_dataset)) 50 true) (inr tt) ;;
  call_lib (show_call "Distribution of Ratings in Processed Dataset"
                      "Ratings" "Frequency") (inr tt).

(** ** get_movie_recommendation *)

(** [a[0]] on a possibly empty selection. *)
Definition first_value {A : Type} (l : list A) : result A :=
  match l with
  | x :: _ => inr x
  | [] => inl IndexError
  end.

Definition of_option {A : Type} (e : exn) (o : option A) : result A :=
  match o with
  | Some a => inr a
  | None => inl e
  end.

(** [knn.kneighbors(q, n_neighbors=k)] *)
Definition NearestNeighbors_kneighbors (knn : NearestNeighbors)
           (q : list float) (k : nat) : M (list float * list nat) :=
  call_lib (kneighbors_call q k)
           (match nn_fit_X knn with
            | Some X => kneighbors lib (nn_metric knn) (nn_algorithm knn) X q k
            | None => inl (OtherError "NotFittedError")
            end).

(** [a.squeeze().tolist()] of a 1 x k array: a list, except that a single
    entry comes out as a bare number. *)
Definition squeeze_tolist {A : Type} (row : list A) : option (list A) :=
  match row with
  | [_] => None
  | _ => Some row
  end.

(** [list(zip(indices.squeeze().tolist(), distances.squeeze().tolist()))];
    a bare number cannot be zipped. *)
Definition zip_squeezed (indices : list nat) (distances : list float)
  : result (list (nat * float)) :=
  match squeeze_tolist indices, squeeze_tolist distances with
  | Some ixs, Some ds => inr (combine ixs ds)
  | _, _ => inl TypeError
  end.

(** The value of the variable [rec_movie_indices]. *)
Definition rec_movie_indices (indices : list nat) (distances : list float)
  : result (list (nat * float)) :=
  match zip_squeezed indices distances with
  | inl e => inl e
  | inr pairs => inr (slice_to_0_reversed (sorted snd pairs))
  end.

(** [movies[movies['title'] == t]['movieId'].values[0]] *)
Definition movieId_of_title (movies : list movie_row) (t : string) : result Z :=
  first_value
    (map m_movieId (filter (fun m => String.eqb (m_title m) t) movies)).

(** [final_dataset.iloc[i]['movieId']]: row [i] comes as one Series over
    the movieId column and the user columns.  The user columns are float64,
    so beside one of them the movieId is converted to float64; in a frame
    with no user column it stays the int64 it is. *)
Definition iloc_movieId (final_dataset : dataset) (i : nat) : result number :=
  match nth_error (ds_movieId final_dataset) i with
  | None => inl IndexError
  | Some movieId =>
      match ds_users final_dataset with
      | [] => inr (Int64 movieId)
      | _ :: _ => inr (Float64 (float64_of_int movieId))
      end
  end.

(** The title the loop body finds for the dataset row at position [i]:
    [rec_movie_id = final_dataset.iloc[i]['movieId']],
    [idx = movies[movies['movieId'] == rec_movie_id].index[0]],
    [movies.iloc[idx]['title']]. *)
Definition title_at (movies : list movie_row) (final_dataset : dataset)
           (i : nat) : result string :=
  match iloc_movieId final_dataset i with
  | inl e => inl e
  | inr rec_movie_id =>
      match find_index (fun m => int64_eqb (m_movieId m) rec_movie_id) movies with
      | None => inl IndexError
      | Some idx =>
          match nth_error movies idx with
          | None => inl IndexError
          | Some row => inr (m_title row)
          end
      end
  end.

(** The [for val in rec_movie_indices] loop: the rows of [recommend_frame]. *)
Fixpoint recommend_frame (movies : list movie_row) (final_dataset : dataset)
         (recs : list (nat * float)) : result (list (string * float)) :=
  match recs with
  | [] => inr []
  | val :: rest =>
      match title_at movies final_dataset (fst val) with
      | inl e => inl e
      | inr title =>
          match recommend_frame movies final_dataset rest with
          | inl e => inl e
          | inr rows => inr ((title, snd val) :: rows)
          end
      end
  end.

(** [pd.DataFrame(rows, index=idx)]: the index must fit the rows (an empty
    list of rows takes any index). *)
Definition DataFrame_of_rows (rows : list (string * float)) (idx : list nat)
  : result frame :=
  if (List.length rows =? List.length idx) || (List.length rows =? 0)
  then inr {| df_index := idx; df_rows := rows |}
  else inl ValueError.

Definition no_match_message : string :=
  "No matching movie found. Please check your input.".
Definition not_in_dataset_message : string :=
  "Movie not found in dataset for recommendations.".
Definition not_enough_data_message : string :=
  "Not enough data to calculate variance.".

Definition variance_line (res : float) : string :=
  ("Variance of recommendation similarities: " ++ format_4f res)%string.

(** The [try] around [statistics.variance] and its [except] clause. *)
Definition report_variance (similarities : list float) : M unit :=
  try_except
    (res <- call_lib (variance_call similarities) (variance lib similarities) ;;
     print (variance_line res))
    StatisticsError
    (print not_enough_data_message).

Definition get_movie_recommendation (movie_name : string)
           (movies : list movie_row) (final_dataset : dataset)
           (knn : NearestNeighbors) (csr_data : matrix)
           (n_movies_to_recommend : nat) : M (option frame) :=
  let list_of_all_titles := map m_title movies in
  closest_match <-
    call_lib (get_close_matches_call movie_name list_of_all_titles 1)
             (inr (get_close_matches lib movie_name list_of_all_titles 1)) ;;
  match closest_match with
  | [] =>
      print no_match_message ;;
      ret None
  | selected_movie :: _ =>
      movie_idx <- lift (movieId_of_title movies selected_movie) ;;
      if negb (existsb (Z.eqb movie_idx) (ds_movieId final_dataset)) then
        print not_in_dataset_message ;;
        ret None
      else
        movie_matrix_idx <-
          lift (of_option IndexError
                  (find_index (fun m => (m =? movie_idx)%Z)
                              (ds_movieId final_dataset))) ;;
        q <- lift (of_option IndexError (nth_error csr_data movie_matrix_idx)) ;;
        r <- NearestNeighbors_kneighbors knn q (n_movies_to_recommend + 1) ;;
        recs <- lift (rec_movie_indices (snd r) (fst r)) ;;
        rows <- lift (recommend_frame movies final_dataset recs) ;;
        let similarities := map snd recs in
        df <- lift (DataFrame_of_rows rows (seq 1 n_movies_to_recommend)) ;;
        report_variance similarities ;;
        ret (Some df)
  end.

(** ** main *)

Definition lower_ascii (c : ascii) : ascii :=
  let n := nat_of_ascii c in
  if (65 <=? n) && (n <=? 90) then ascii_of_nat (n + 32) else c.

(** [str.lower()] on the console's ASCII input. *)
Fixpoint lower (s : string) : string :=
  match s with
  | EmptyString => EmptyString
  | String c r => String (lower_ascii c) (lower r)
  end.

Definition dquote : string := String "034"%char EmptyString.

Definition prompt : string :=
  ("Enter your favorite movie name (or " ++ dquote ++ "quit" ++ dquote
   ++ " to exit): ")%string.

(** One pass of the [while True] body after the name was read and was not
    "quit". *)
Definition answer (movie_name : string) : M unit :=
  movies <- read_var v_movies ;;
  final_dataset <- read_var v_final_dataset ;;
  knn <- read_var v_knn ;;
  csr_data <- read_var v_csr_data ;;
  recommendations <-
    get_movie_recommendation movie_name movies final_dataset knn csr_data 10 ;;
  match recommendations with
  | Some df =>
      print (nl ++ "Recommended Movies:")%string ;;
      emit (PrintFrame df)
  | None => ret tt
  end ;;
  print nl.

(** The [while True] loop over the lines typed at the console; [input] at
    the end of the input raises EOFError. *)
Fixpoint main_loop (inputs : list string) : M unit :=
  emit (Call (input_call prompt)) ;;
  match inputs with
  | [] => raise EOFError
  | movie_name :: rest =>
      if String.eqb (lower movie_name) "quit" then ret tt
      else answer movie_name ;; main_loop rest
  end.

Definition assign_loaded
           (r : option (list movie_row) * option (list rating_row) * option dataset)
  : M unit :=
  v <- get_vars ;;
  set_vars {| v_movies := fst (fst r); v_ratings := snd (fst r);
              v_final_dataset := snd r;
              v_knn := v_knn v; v_csr_data := v_csr_data v |}.

Definition assign_model (r : NearestNeighbors * matrix) : M unit :=
  v <- get_vars ;;
  set_vars {| v_movies := v_movies v; v_ratings := v_ratings v;
              v_final_dataset := v_final_dataset v;
              v_knn := Some (fst r); v_csr_data := Some (snd r) |}.

Definition is_None {A : Type} (o : option A) : bool :=
  match o with Some _ => false | None => true end.

(** [main]; the console lines the user will type are its argument. *)
Definition main (inputs : list string) : M unit :=
  loaded <- load_and_preprocess_data ;;
  assign_loaded loaded ;;
  v <- get_vars ;;
  if is_None (v_movies v) || is_None (v_ratings v) || is_None (v_final_dataset v)
  then ret tt
  else
    final_dataset <- read_var v_final_dataset ;;
    model <- create_recommendation_model final_dataset ;;
    assign_model model ;;
    final_dataset <- read_var v_final_dataset ;;
    _ <- train_models final_dataset ;;
    final_dataset <- read_var v_final_dataset ;;
    visualize_datasets final_dataset ;;
    main_loop inputs.

(** The script with the line [train_models(final_dataset)] deleted: the
    second run of the comparison with [main]. *)
Definition main_without_train_models (inputs : list string) : M unit :=
  loaded <- load_and_preprocess_data ;;
  assign_loaded loaded ;;
  v <- get_vars ;;
  if is_None (v_movies v) || is_None (v_ratings v) || is_None (v_final_dataset v)
  then ret tt
  else
    final_dataset <- read_var v_final_dataset ;;
    model <- create_recommendation_model final_dataset ;;
    assign_model model ;;
    final_dataset <- read_var v_final_dataset ;;
    visualize_datasets final_dataset ;;
    main_loop inputs.
End Script.

(** ** How the script's steps compose

    Four properties of a computation, each carried through [bind] and
    [try_except]: which part of the state it keeps, which events it may emit,
    how a raised exception shows in the trace, and that it reads neither the
    random generator nor the earlier output. *)

Section Composition.
Variable lib : Library.

(** [m] leaves the component [f] of the state as it found it. *)
Definition keeps {A X : Type} (f : state -> X) (m : M A) : Prop :=
  forall s, f (snd (m s)) = f s.

(** [m] only appends to the output, and only events satisfying [P]. *)
Definition emits {A : Type} (P : event -> Prop) (m : M A) : Prop :=
  forall s, exists evs, st_out (snd (m s)) = st_out s ++ evs /\ Forall P evs.

(** An event that is not the raising of an exception, the two exceptions
    that have a handler apart. *)
Definition quiet (ev : event) : Prop :=
  forall e, ev = Raised e -> e = FileNotFoundError \/ e = StatisticsError.

(** In the trace of [m], an exception other than the two handled ones is
    the last event, and it is the outcome of [m]. *)
Definition tidy {A : Type} (m : M A) : Prop :=
  forall s, exists evs,
    st_out (snd (m s)) = st_out s ++ evs /\
    match fst (m s) with
    | inr _ => Forall quiet evs
    | inl e => exists evs0, evs = evs0 ++ [Raised e] /\ Forall quiet evs0
    end.

(** Two states that agree on the files and on the variables of [main]. *)
Definition agree (s1 s2 : state) : Prop :=
  st_files s1 = st_files s2 /\ st_vars s1 = st_vars s2.

(** From two such states [m] returns the same, emits the same, and ends in
    two such states: it depends on neither [st_rng] nor [st_out]. *)
Definition insensitive {A : Type} (m : M A) : Prop :=
  forall s1 s2, agree s1 s2 ->
    fst (m s1) = fst (m s2) /\
    agree (snd (m s1)) (snd (m s2)) /\
    exists evs, st_out (snd (m s1)) = st_out s1 ++ evs /\
                st_out (snd (m s2)) = st_out s2 ++ evs.

(** *** keeps *)

Lemma keeps_ret (A X : Type) (f : state -> X) (a : A) : keeps f (ret a).
Proof. intro s. reflexivity. Qed.

Lemma keeps_bind (A B X : Type) (f : state -> X) (m : M A) (k : A -> M B) :
  keeps f m -> (forall a, keeps f (k a)) -> keeps f (bind m k).
Proof.
  intros Hm Hk s. unfold bind. specialize (Hm s).
  destruct (m s) as [[e|a] s']; simpl in *; [exact Hm|].
  now rewrite Hk.
Qed.

Lemma keeps_try_except (A X : Type) (f : state -> X) (m h : M A) (E : exn) :
  keeps f m -> keeps f h -> keeps f (try_except m E h).
Proof.
  intros Hm Hh s. unfold try_except. specialize (Hm s).
  destruct (m s) as [[e|a] s']; simpl in *; [|exact Hm].
  destruct (exn_eqb e E); simpl; [now rewrite Hh|exact Hm].
Qed.

(** A component of the state that is neither the output nor the random
    generator: the files, the variables, or a part of them. *)
Definition is_frame {X : Type} (f : state -> X) : Prop :=
  forall s rng out,
    f {| st_files := st_files s; st_rng := rng; st_vars := st_vars s;
         st_out := out |} = f s.

Lemma is_frame_files : is_frame st_files.
Proof. intros s rng out. reflexivity. Qed.

Lemma is_frame_vars : is_frame st_vars.
Proof. intros s rng out. reflexivity. Qed.

Lemma is_frame_final_dataset : is_frame (fun s => v_final_dataset (st_vars s)).
Proof. intros s rng out. reflexivity. Qed.

Lemma keeps_emit (X : Type) (f : state -> X) (ev : event) :
  is_frame f -> keeps f (emit ev).
Proof. intros Hf s. apply Hf. Qed.

Lemma keeps_raise (A X : Type) (f : state -> X) (e : exn) :
  is_frame f -> keeps f (@raise A e).
Proof. intros Hf s. apply Hf. Qed.

Lemma keeps_lift (A X : Type) (f : state -> X) (r : result A) :
  is_frame f -> keeps f (lift r).
Proof.
  intro Hf. destruct r; simpl; [now apply keeps_raise|apply keeps_ret].
Qed.

Lemma keeps_call_lib (A X : Type) (f : state -> X) (c : call) (r : result A) :
  is_frame f -> keeps f (call_lib c r).
Proof.
  intro Hf. apply keeps_bind; [now apply keeps_emit|].
  intros _. now apply keeps_lift.
Qed.

Lemma keeps_read_var (A X : Type) (f : state -> X) (field : vars -> option A) :
  is_frame f -> keeps f (read_var field).
Proof.
  intros Hf s. unfold read_var. destruct (field (st_vars s));
    [reflexivity|now apply keeps_raise].
Qed.

Lemma keeps_get_vars (X : Type) (f : state -> X) : keeps f get_vars.
Proof. intro s. reflexivity. Qed.

(** *** emits *)

Lemma emits_ret (A : Type) (P : event -> Prop) (a : A) : emits P (ret a).
Proof. intro s. exists []. simpl. now rewrite app_nil_r. Qed.

Lemma emits_bind (A B : Type) (P : event -> Prop) (m : M A) (k : A -> M B) :
  emits P m -> (forall a, emits P (k a)) -> emits P (bind m k).
Proof.
  intros Hm Hk s. unfold bind. destruct (Hm s) as (evs & E & F).
  destruct (m s) as [[e|a] s']; simpl in *; [now exists evs|].
  destruct (Hk a s') as (evs' & E' & F').
  exists (evs ++ evs'). rewrite E', E, app_assoc. split; [reflexivity|].
  apply Forall_app. now split.
Qed.

Lemma emits_try_except (A : Type) (P : event -> Prop) (m h : M A) (E : exn) :
  emits P m -> emits P h -> emits P (try_except m E h).
Proof.
  intros Hm Hh s. unfold try_except. destruct (Hm s) as (evs & Ev & F).
  destruct (m s) as [[e|a] s']; simpl in *; [|now exists evs].
  destruct (exn_eqb e E); simpl; [|now exists evs].
  destruct (Hh s') as (evs' & E' & F').
  exists (evs ++ evs'). rewrite E', Ev, app_assoc. split; [reflexivity|].
  apply Forall_app. now split.
Qed.

Lemma emits_emit (P : event -> Prop) (ev : event) : P ev -> emits P (emit ev).
Proof. intros H s. exists [ev]. split; [reflexivity|]. now constructor. Qed.

Lemma emits_raise (A : Type) (P : event -> Prop) (e : exn) :
  P (Raised e) -> emits P (@raise A e).
Proof. intros H s. exists [Raised e]. split; [reflexivity|]. now constructor. Qed.

Lemma emits_lift (A : Type) (P : event -> Prop) (r : result A) :
  (forall e, P (Raised e)) -> emits P (lift r).
Proof.
  intro H. destruct r; simpl; [apply emits_raise, H|apply emits_ret].
Qed.

Lemma emits_call_lib (A : Type) (P : event -> Prop) (c : call) (r : result A) :
  P (Call c) -> (forall e, P (Raised e)) -> emits P (call_lib c r).
Proof.
  intros Hc Hr. apply emits_bind; [now apply emits_emit|].
  intros _. now apply emits_lift.
Qed.

(** *** tidy *)

Lemma tidy_ret (A : Type) (a : A) : tidy (ret a).
Proof. intro s. exists []. simpl. rewrite app_nil_r. now split. Qed.

Lemma tidy_raise (A : Type) (e : exn) : tidy (@raise A e).
Proof.
  intro s. exists [Raised e]. split; [reflexivity|]. simpl.
  exists []. now split.
Qed.

Lemma tidy_lift (A : Type) (r : result A) : tidy (lift r).
Proof. destruct r; simpl; [apply tidy_raise|apply tidy_ret]. Qed.

Lemma tidy_emit (ev : event) : quiet ev -> tidy (emit ev).
Proof.
  intros H s. exists [ev]. split; [reflexivity|]. simpl. now constructor.
Qed.

Lemma quiet_Print (t : string) : quiet (Print t).
Proof. intros e E. discriminate E. Qed.

Lemma quiet_PrintFrame (df : frame) : quiet (PrintFrame df).
Proof. intros e E. discriminate E. Qed.

Lemma quiet_Call (c : call) : quiet (Call c).
Proof. intros e E. discriminate E. Qed.

Lemma tidy_bind (A B : Type) (m : M A) (k : A -> M B) :
  tidy m -> (forall a, tidy (k a)) -> tidy (bind m k).
Proof.
  intros Hm Hk s. unfold bind. destruct (Hm s) as (evs & E & F).
  destruct (m s) as [[e|a] s']; simpl in *; [now exists evs|].
  destruct (Hk a s') as (evs' & E' & F').
  exists (evs ++ evs'). rewrite E', E, app_assoc. split; [reflexivity|].
  destruct (fst (k a s')) as [e|b].
  - destruct F' as (evs0 & -> & F0). exists (evs ++ evs0).
    rewrite app_assoc. split; [reflexivity|]. apply Forall_app. now split.
  - apply Forall_app. now split.
Qed.

Lemma tidy_try_except (A : Type) (m h : M A) (E : exn) :
  E = FileNotFoundError \/ E = StatisticsError ->
  tidy m -> tidy h -> tidy (try_except m E h).
Proof.
  intros HE Hm Hh s. unfold try_except. destruct (Hm s) as (evs & Ev & F).
  destruct (m s) as [[e|a] s']; simpl in *; [|now exists evs].
  destruct (exn_eqb e E) eqn:Ee; simpl; [|now exists evs].
  apply exn_eqb_eq in Ee. subst e.
  destruct (Hh s') as (evs' & E' & F').
  exists (evs ++ evs'). rewrite E', Ev, app_assoc. split; [reflexivity|].
  destruct F as (evs0 & -> & F0).
  assert (Forall quiet (evs0 ++ [Raised E])) as Fq.
  { apply Forall_app. split; [exact F0|]. constructor; [|constructor].
    intros e Eq. injection Eq as <-. exact HE. }
  destruct (fst (h s')) as [e|b].
  - destruct F' as (evs1 & -> & F1). exists ((evs0 ++ [Raised E]) ++ evs1).
    rewrite app_assoc. split; [reflexivity|]. apply Forall_app. now split.
  - apply Forall_app. now split.
Qed.

Lemma tidy_call_lib (A : Type) (c : call) (r : result A) : tidy (call_lib c r).
Proof.
  apply tidy_bind; [apply tidy_emit, quiet_Call|]. intros _. apply tidy_lift.
Qed.

Lemma tidy_read_var (A : Type) (field : vars -> option A) : tidy (read_var field).
Proof.
  intro s. unfold read_var. destruct (field (st_vars s));
    [apply tidy_ret|apply tidy_raise].
Qed.

Lemma tidy_get_vars : tidy get_vars.
Proof. intro s. exists []. simpl. rewrite app_nil_r. now split. Qed.

Lemma tidy_set_vars (v : vars) : tidy (set_vars v).
Proof. intro s. exists []. simpl. rewrite app_nil_r. now split. Qed.

(** What a tidy computation gives: an exception without a handler that
    shows in the trace is what the computation ended with. *)
Lemma tidy_propagates (A : Type) (m : M A) (s : state) (evs : list event)
      (e : exn) :
  tidy m ->
  st_out (snd (m s)) = st_out s ++ evs ->
  In (Raised e) evs ->
  e <> FileNotFoundError -> e <> StatisticsError ->
  fst (m s) = inl e.
Proof.
  intros Hm Eo Hin N1 N2. destruct (Hm s) as (evs' & E' & F).
  rewrite Eo in E'. apply app_inv_head in E'. subst evs'.
  destruct (fst (m s)) as [e'|a].
  - destruct F as (evs0 & -> & F0). apply in_app_or in Hin.
    destruct Hin as [Hin|[Hin|[]]].
    + rewrite Forall_forall in F0. destruct (F0 _ Hin e eq_refl); contradiction.
    + now injection Hin as ->.
  - rewrite Forall_forall in F. destruct (F _ Hin e eq_refl); contradiction.
Qed.

(** *** insensitive *)

Lemma insensitive_ret (A : Type) (a : A) : insensitive (ret a).
Proof.
  intros s1 s2 H. repeat split; try apply H.
  exists []. simpl. now rewrite !app_nil_r.
Qed.

Lemma insensitive_emit (ev : event) : insensitive (emit ev).
Proof.
  intros s1 s2 [Hf Hv]. repeat split; simpl; try assumption.
  now exists [ev].
Qed.

Lemma insensitive_raise (A : Type) (e : exn) : insensitive (@raise A e).
Proof.
  intros s1 s2 [Hf Hv]. repeat split; simpl; try assumption.
  now exists [Raised e].
Qed.

Lemma insensitive_lift (A : Type) (r : result A) : insensitive (lift r).
Proof. destruct r; simpl; [apply insensitive_raise|apply insensitive_ret]. Qed.

Lemma insensitive_bind (A B : Type) (m : M A) (k : A -> M B) :
  insensitive m -> (forall a, insensitive (k a)) -> insensitive (bind m k).
Proof.
  intros Hm Hk s1 s2 H. unfold bind.
  destruct (Hm s1 s2 H) as (Er & Ha & evs & E1 & E2).
  destruct (m s1) as [[e1|a1] s1'], (m s2) as [[e2|a2] s2']; simpl in *;
    try discriminate.
  - repeat split; try apply Ha; [now injection Er as <-|]. now exists evs.
  - injection Er as <-.
    destruct (Hk a1 s1' s2' Ha) as (Er' & Ha' & evs' & E1' & E2').
    repeat split; try apply Ha'; [exact Er'|].
    exists (evs ++ evs'). rewrite E1', E2', E1, E2, <- !app_assoc. now split.
Qed.

Lemma insensitive_try_except (A : Type) (m h : M A) (E : exn) :
  insensitive m -> insensitive h -> insensitive (try_except m E h).
Proof.
  intros Hm Hh s1 s2 H. unfold try_except.
  destruct (Hm s1 s2 H) as (Er & Ha & evs & E1 & E2).
  destruct (m s1) as [[e1|a1] s1'], (m s2) as [[e2|a2] s2']; simpl in *;
    try discriminate.
  - injection Er as <-. destruct (exn_eqb e1 E); simpl.
    + destruct (Hh s1' s2' Ha) as (Er' & Ha' & evs' & E1' & E2').
      repeat split; try apply Ha'; [exact Er'|].
      exists (evs ++ evs'). rewrite E1', E2', E1, E2, <- !app_assoc. now split.
    + repeat split; try apply Ha. now exists evs.
  - repeat split; try apply Ha; [exact Er|]. now exists evs.
Qed.

Lemma insensitive_call_lib (A : Type) (c : call) (r : result A) :
  insensitive (call_lib c r).
Proof.
  apply insensitive_bind; [apply insensitive_emit|].
  intros _. apply insensitive_lift.
Qed.

Lemma insensitive_read_var (A : Type) (field : vars -> option A) :
  insensitive (read_var field).
Proof.
  intros s1 s2 H. unfold read_var. destruct H as [Hf Hv]. rewrite Hv.
  destruct (field (st_vars s2)).
  - apply insensitive_ret. now split.
  - apply insensitive_raise. now split.
Qed.

Lemma insensitive_get_vars : insensitive get_vars.
Proof.
  intros s1 s2 [Hf Hv]. unfold get_vars. simpl. rewrite Hv.
  repeat split; try assumption. exists []. now rewrite !app_nil_r.
Qed.

Lemma insensitive_set_vars (v : vars) : insensitive (set_vars v).
Proof.
  intros s1 s2 [Hf Hv]. repeat split; simpl; try assumption.
  exists []. now rewrite !app_nil_r.
Qed.
(** *** The functions of the notebook *)

Ltac keeps_steps :=
  repeat (cbv zeta; cbn beta;
          first [ apply keeps_ret
                | apply keeps_bind; [|intro]
                | apply keeps_try_except
                | apply keeps_emit; assumption
                | apply keeps_raise; assumption
                | apply keeps_lift; assumption
                | apply keeps_call_lib; assumption
                | apply keeps_read_var; assumption
                | apply keeps_get_vars
                | split_match ]).

Ltac tidy_steps :=
  repeat (cbv zeta; cbn beta;
          first [ apply tidy_ret
                | apply tidy_bind; [|intro]
                | apply tidy_try_except; [now (left + right)| |]
                | apply tidy_emit;
                  first [apply quiet_Print|apply quiet_PrintFrame|apply quiet_Call]
                | apply tidy_raise
                | apply tidy_lift
                | apply tidy_call_lib
                | apply tidy_read_var
                | apply tidy_get_vars
                | apply tidy_set_vars
                | split_match ]).

Ltac insensitive_steps :=
  repeat (cbv zeta; cbn beta;
          first [ apply insensitive_ret
                | apply insensitive_bind; [|intro]
                | apply insensitive_try_except
                | apply insensitive_emit
                | apply insensitive_raise
                | apply insensitive_lift
                | apply insensitive_call_lib
                | apply insensitive_read_var
                | apply insensitive_get_vars
                | apply insensitive_set_vars
                | split_match ]).

Lemma keeps_randint_0_2 (X : Type) (f : state -> X) (size : nat) :
  is_frame f -> keeps f (randint_0_2 size).
Proof. intros Hf s. apply Hf. Qed.

Lemma tidy_randint_0_2 (size : nat) : tidy (randint_0_2 size).
Proof.
  intro s. exists [Call (randint_call 0 2 size)]. split; [reflexivity|].
  simpl. constructor; [apply quiet_Call|constructor].
Qed.

Lemma keeps_SVC_fit_default (X : Type) (f : state -> X) (A : matrix)
      (y : list bool) :
  is_frame f -> keeps f (SVC_fit_default lib A y).
Proof.
  intro Hf. unfold SVC_fit_default.
  apply keeps_bind; [intro s; reflexivity|]. intro rng.
  apply keeps_bind; [now apply keeps_emit|]. intros _.
  apply keeps_bind; [intro s; apply Hf|]. intros _.
  now apply keeps_lift.
Qed.

Lemma emits_SVC_fit_default (P : event -> Prop) (A : matrix) (y : list bool) :
  P (Call (SVC_fit_call A y)) -> (forall e, P (Raised e)) ->
  emits P (SVC_fit_default lib A y).
Proof.
  intros Hc Hr. unfold SVC_fit_default.
  apply emits_bind; [intro s; exists []; now rewrite app_nil_r|]. intro rng.
  apply emits_bind; [now apply emits_emit|]. intros _.
  apply emits_bind; [intro s; exists []; simpl; now rewrite app_nil_r|].
  intros _. now apply emits_lift.
Qed.

Lemma tidy_SVC_fit_default (A : matrix) (y : list bool) :
  tidy (SVC_fit_default lib A y).
Proof.
  unfold SVC_fit_default.
  apply tidy_bind.
  { intro s. exists []. simpl. rewrite app_nil_r. split; [reflexivity|constructor]. }
  intro rng. apply tidy_bind; [apply tidy_emit, quiet_Call|]. intros _.
  apply tidy_bind.
  { intro s. exists []. simpl. rewrite app_nil_r. split; [reflexivity|constructor]. }
  intros _. apply tidy_lift.
Qed.

(** *** What the training step reads

    From two states with the same generator [m] returns the same and leaves
    the same generator: of the state, it reads [st_rng] alone. *)
Definition seeded {A : Type} (m : M A) : Prop :=
  forall s1 s2, st_rng s1 = st_rng s2 ->
    fst (m s1) = fst (m s2) /\ st_rng (snd (m s1)) = st_rng (snd (m s2)).

Lemma seeded_ret (A : Type) (a : A) : seeded (ret a).
Proof. intros s1 s2 H. now split. Qed.

Lemma seeded_emit (ev : event) : seeded (emit ev).
Proof. intros s1 s2 H. now split. Qed.

Lemma seeded_raise (A : Type) (e : exn) : seeded (@raise A e).
Proof. intros s1 s2 H. now split. Qed.

Lemma seeded_lift (A : Type) (r : result A) : seeded (lift r).
Proof. destruct r; simpl; [apply seeded_raise|apply seeded_ret]. Qed.

Lemma seeded_bind (A B : Type) (m : M A) (k : A -> M B) :
  seeded m -> (forall a, seeded (k a)) -> seeded (bind m k).
Proof.
  intros Hm Hk s1 s2 H. unfold bind. destruct (Hm s1 s2 H) as [E1 E2].
  destruct (m s1) as [[e|a] s1'], (m s2) as [[e'|a'] s2']; simpl in *;
    try discriminate.
  - injection E1 as ->. now split.
  - injection E1 as ->. now apply Hk.
Qed.

Lemma seeded_call_lib (A : Type) (c : call) (r : result A) :
  seeded (call_lib c r).
Proof.
  apply seeded_bind; [apply seeded_emit|]. intros _. apply seeded_lift.
Qed.

Lemma seeded_randint_0_2 (size : nat) : seeded (randint_0_2 size).
Proof. intros s1 s2 H. unfold randint_0_2. simpl. now rewrite H. Qed.

Lemma seeded_SVC_fit_default (X : matrix) (y : list bool) :
  seeded (SVC_fit_default lib X y).
Proof.
  intros s1 s2 H.
  unfold SVC_fit_default, bind, get_rng, emit, advance, lift. simpl.
  rewrite H. destruct (fst (SVC_fit lib X y (st_rng s2))); simpl; now split.
Qed.

Lemma seeded_train_models (final_dataset : dataset) :
  seeded (train_models lib final_dataset).
Proof.
  unfold train_models, print. cbv zeta.
  repeat first [ apply seeded_ret
               | apply seeded_randint_0_2
               | apply seeded_SVC_fit_default
               | apply seeded_call_lib
               | apply seeded_emit
               | apply seeded_bind; [|intro] ].
Qed.

Lemma keeps_load (X : Type) (f : state -> X) :
  is_frame f -> keeps f load_and_preprocess_data.
Proof.
  intro Hf. unfold load_and_preprocess_data, print.
  apply keeps_try_except.
  - apply keeps_bind.
    + intro s. unfold read_movies. now apply keeps_call_lib.
    + intro movies. apply keeps_bind.
      * intro s. unfold read_ratings. now apply keeps_call_lib.
      * intro ratings. keeps_steps.
  - keeps_steps.
Qed.

Lemma keeps_create_recommendation_model (X : Type) (f : state -> X)
      (final_dataset : dataset) :
  is_frame f -> keeps f (create_recommendation_model lib final_dataset).
Proof.
  intro Hf. unfold create_recommendation_model, NearestNeighbors_fit.
  keeps_steps.
Qed.

Lemma keeps_train_models (X : Type) (f : state -> X) (final_dataset : dataset) :
  is_frame f -> keeps f (train_models lib final_dataset).
Proof.
  intro Hf. unfold train_models, print.
  cbv zeta. apply keeps_bind; [now apply keeps_randint_0_2|]. intro y.
  apply keeps_bind; [now apply keeps_call_lib|]. intro sp.
  apply keeps_bind; [now apply keeps_SVC_fit_default|]. intro svm_model.
  keeps_steps.
Qed.

Lemma keeps_visualize_datasets (X : Type) (f : state -> X)
      (final_dataset : dataset) :
  is_frame f -> keeps f (visualize_datasets final_dataset).
Proof. intro Hf. unfold visualize_datasets. keeps_steps. Qed.

Lemma keeps_report_variance (X : Type) (f : state -> X) (l : list float) :
  is_frame f -> keeps f (report_variance lib l).
Proof. intro Hf. unfold report_variance, print. keeps_steps. Qed.

Lemma keeps_get_movie_recommendation (X : Type) (f : state -> X)
      (movie_name : string) (movies : list movie_row) (final_dataset : dataset)
      (knn : NearestNeighbors) (csr_data : matrix) (n : nat) :
  is_frame f ->
  keeps f (get_movie_recommendation lib movie_name movies final_dataset knn
                                    csr_data n).
Proof.
  intro Hf. unfold get_movie_recommendation, NearestNeighbors_kneighbors, print.
  cbv zeta. apply keeps_bind; [now apply keeps_call_lib|]. intros [|t more].
  - keeps_steps.
  - apply keeps_bind; [now apply keeps_lift|]. intro movie_idx.
    destruct (negb (existsb (Z.eqb movie_idx) (ds_movieId final_dataset))).
    + keeps_steps.
    + repeat (apply keeps_bind;
              [first [now apply keeps_lift|now apply keeps_call_lib
                     |now apply keeps_report_variance]|intro]).
      apply keeps_ret.
Qed.

Lemma keeps_answer (X : Type) (f : state -> X) (movie_name : string) :
  is_frame f -> keeps f (answer lib movie_name).
Proof.
  intro Hf. unfold answer, print.
  repeat (apply keeps_bind; [now apply keeps_read_var|intro]).
  apply keeps_bind; [now apply keeps_get_movie_recommendation|]. intro r.
  keeps_steps.
Qed.

Lemma keeps_main_loop (X : Type) (f : state -> X) (inputs : list string) :
  is_frame f -> keeps f (main_loop lib inputs).
Proof.
  intro Hf. induction inputs as [|name rest IH]; simpl.
  - keeps_steps.
  - apply keeps_bind; [now apply keeps_emit|]. intros _.
    destruct (String.eqb (lower name) "quit"); [apply keeps_ret|].
    apply keeps_bind; [now apply keeps_answer|]. intros _. exact IH.
Qed.

Lemma tidy_load : tidy load_and_preprocess_data.
Proof.
  unfold load_and_preprocess_data, print.
  apply tidy_try_except; [now left| |tidy_steps].
  apply tidy_bind.
  - intro s. unfold read_movies. apply tidy_call_lib.
  - intro movies. apply tidy_bind.
    + intro s. unfold read_ratings. apply tidy_call_lib.
    + intro ratings. tidy_steps.
Qed.

Lemma tidy_create_recommendation_model (final_dataset : dataset) :
  tidy (create_recommendation_model lib final_dataset).
Proof. unfold create_recommendation_model, NearestNeighbors_fit. tidy_steps. Qed.

Lemma tidy_train_models (final_dataset : dataset) :
  tidy (train_models lib final_dataset).
Proof.
  unfold train_models, print. cbv zeta.
  apply tidy_bind; [apply tidy_randint_0_2|]. intro y.
  apply tidy_bind; [apply tidy_call_lib|]. intro sp.
  apply tidy_bind; [apply tidy_SVC_fit_default|]. intro svm_model.
  tidy_steps.
Qed.

Lemma tidy_visualize_datasets (final_dataset : dataset) :
  tidy (visualize_datasets final_dataset).
Proof. unfold visualize_datasets. tidy_steps. Qed.

Lemma tidy_report_variance (l : list float) : tidy (report_variance lib l).
Proof. unfold report_variance, print. tidy_steps. Qed.

Lemma tidy_get_movie_recommendation (movie_name : string)
      (movies : list movie_row) (final_dataset : dataset)
      (knn : NearestNeighbors) (csr_data : matrix) (n : nat) :
  tidy (get_movie_recommendation lib movie_name movies final_dataset knn
                                 csr_data n).
Proof.
  unfold get_movie_recommendation, NearestNeighbors_kneighbors, print.
  cbv zeta. apply tidy_bind; [apply tidy_call_lib|]. intros [|t more].
  - tidy_steps.
  - apply tidy_bind; [apply tidy_lift|]. intro movie_idx.
    destruct (negb (existsb (Z.eqb movie_idx) (ds_movieId final_dataset))).
    + tidy_steps.
    + repeat (apply tidy_bind;
              [first [apply tidy_lift|apply tidy_call_lib
                     |apply tidy_report_variance]|intro]).
      apply tidy_ret.
Qed.

Lemma tidy_answer (movie_name : string) : tidy (answer lib movie_name).
Proof.
  unfold answer, print.
  repeat (apply tidy_bind; [apply tidy_read_var|intro]).
  apply tidy_bind; [apply tidy_get_movie_recommendation|]. intro r.
  tidy_steps.
Qed.

Lemma tidy_main_loop (inputs : list string) : tidy (main_loop lib inputs).
Proof.
  induction inputs as [|name rest IH]; simpl.
  - tidy_steps.
  - apply tidy_bind; [apply tidy_emit, quiet_Call|]. intros _.
    destruct (String.eqb (lower name) "quit"); [apply tidy_ret|].
    apply tidy_bind; [apply tidy_answer|]. intros _. exact IH.
Qed.

Lemma tidy_main (inputs : list string) : tidy (main lib inputs).
Proof.
  unfold main, assign_loaded, assign_model.
  apply tidy_bind; [apply tidy_load|]. intro loaded.
  apply tidy_bind; [tidy_steps|]. intros _.
  apply tidy_bind; [apply tidy_get_vars|]. intro v.
  destruct (is_None (v_movies v) || is_None (v_ratings v)
            || is_None (v_final_dataset v)); [apply tidy_ret|].
  apply tidy_bind; [apply tidy_read_var|]. intro fd.
  apply tidy_bind; [apply tidy_create_recommendation_model|]. intro model.
  apply tidy_bind; [tidy_steps|]. intros _.
  apply tidy_bind; [apply tidy_read_var|]. intro fd'.
  apply tidy_bind; [apply tidy_train_models|]. intros _.
  apply tidy_bind; [apply tidy_read_var|]. intro fd''.
  apply tidy_bind; [apply tidy_visualize_datasets|]. intros _.
  apply tidy_main_loop.
Qed.

Lemma insensitive_report_variance (l : list float) :
  insensitive (report_variance lib l).
Proof. unfold report_variance, print. insensitive_steps. Qed.

Lemma insensitive_get_movie_recommendation (movie_name : string)
      (movies : list movie_row) (final_dataset : dataset)
      (knn : NearestNeighbors) (csr_data : matrix) (n : nat) :
  insensitive (get_movie_recommendation lib movie_name movies final_dataset
                                        knn csr_data n).
Proof.
  unfold get_movie_recommendation, NearestNeighbors_kneighbors, print.
  cbv zeta. apply insensitive_bind; [apply insensitive_call_lib|].
  intros [|t more].
  - insensitive_steps.
  - apply insensitive_bind; [apply insensitive_lift|]. intro movie_idx.
    destruct (negb (existsb (Z.eqb movie_idx) (ds_movieId final_dataset))).
    + insensitive_steps.
    + repeat (apply insensitive_bind;
              [first [apply insensitive_lift|apply insensitive_call_lib
                     |apply insensitive_report_variance]|intro]).
      apply insensitive_ret.
Qed.

Lemma insensitive_answer (movie_name : string) :
  insensitive (answer lib movie_name).
Proof.
  unfold answer, print.
  repeat (apply insensitive_bind; [apply insensitive_read_var|intro]).
  apply insensitive_bind; [apply insensitive_get_movie_recommendation|].
  intro r. insensitive_steps.
Qed.

Lemma insensitive_main_loop (inputs : list string) :
  insensitive (main_loop lib inputs).
Proof.
  induction inputs as [|name rest IH]; simpl.
  - insensitive_steps.
  - apply insensitive_bind; [apply insensitive_emit|]. intros _.
    destruct (String.eqb (lower name) "quit"); [apply insensitive_ret|].
    apply insensitive_bind; [apply insensitive_answer|]. intros _. exact IH.
Qed.

Lemma insensitive_visualize_datasets (final_dataset : dataset) :
  insensitive (visualize_datasets final_dataset).
Proof. unfold visualize_datasets. insensitive_steps. Qed.
End Composition.

(** ** Brute-force nearest neighbours

    The search [algorithm='brute'] stands for: measure the query against
    every fitted row, order the rows by distance and report the first [k].
    It meets the contract [nearest] for any metric. *)

Section BruteForce.
Variable metric : list float -> list float -> float.

Definition measured (X : matrix) (q : list float) : list (nat * float) :=
  combine (seq 0 (List.length X)) (map (metric q) X).

Definition brute_kneighbors (X : matrix) (q : list float) (k : nat)
  : result (list float * list nat) :=
  if (k =? 0) || (List.length X <? k) then inl ValueError
  else
    let top := firstn k (sorted snd (measured X q)) in
    inr (map snd top, map fst top).

Lemma measured_fst (X : matrix) (q : list float) :
  map fst (measured X q) = seq 0 (List.length X).
Proof.
  unfold measured.
  assert (forall (l : list nat) (l' : list float),
             List.length l = List.length l' -> map fst (combine l l') = l) as H.
  { induction l as [|a l IH]; intros [|b l'] E; simpl in *;
      try discriminate; [reflexivity|]. f_equal. apply IH. lia. }
  apply H. now rewrite length_seq, length_map.
Qed.

Lemma measured_snd (X : matrix) (q : list float) (p : nat * float) :
  In p (measured X q) -> snd p = metric q (nth (fst p) X []).
Proof.
  unfold measured. revert p.
  assert (forall (s : nat) (Y : matrix) (p : nat * float),
             In p (combine (seq s (List.length Y)) (map (metric q) Y)) ->
             s <= fst p /\ snd p = metric q (nth (fst p - s) Y [])) as H.
  { intros s Y. revert s. induction Y as [|y Y IH]; intros s p Hp; simpl in Hp;
      [contradiction|].
    destruct Hp as [<-|Hp]; simpl.
    - split; [lia|]. now rewrite Nat.sub_diag.
    - destruct (IH _ _ Hp) as [Hle ->]. split; [lia|].
      replace (fst p - s) with (S (fst p - S s)) by lia. reflexivity. }
  intros p Hp. destruct (H 0 X p Hp) as [_ ->]. now rewrite Nat.sub_0_r.
Qed.

Lemma StronglySorted_firstn (A : Type) (R : A -> A -> Prop) (n : nat)
      (l : list A) :
  StronglySorted R l -> StronglySorted R (firstn n l).
Proof.
  intro S. revert n. induction S as [|x l S IH Fx]; intros [|n]; simpl;
    try constructor; [apply IH|].
  apply Forall_forall. intros y Hy. apply In_firstn in Hy.
  rewrite Forall_forall in Fx. now apply Fx.
Qed.

Lemma StronglySorted_split (A : Type) (R : A -> A -> Prop) (l1 l2 : list A) :
  StronglySorted R (l1 ++ l2) ->
  forall x y, In x l1 -> In y l2 -> R x y.
Proof.
  induction l1 as [|a l1 IH]; simpl; intros S x y Hx Hy; [contradiction|].
  inversion S as [|? ? S' Fa]; subst. destruct Hx as [<-|Hx].
  - rewrite Forall_forall in Fa. apply Fa, in_or_app. now right.
  - now apply IH.
Qed.

Lemma StronglySorted_map (A B : Type) (f : A -> B) (R : B -> B -> Prop)
      (l : list A) :
  StronglySorted (fun a b => R (f a) (f b)) l -> StronglySorted R (map f l).
Proof.
  induction 1 as [|x l S IH Fx]; simpl; constructor; [exact IH|].
  apply Forall_map. exact Fx.
Qed.

Theorem brute_kneighbors_nearest (X : matrix) (q : list float) (k : nat) :
  same_width X q = true ->
  1 <= k <= List.length X ->
  exists ds ixs, brute_kneighbors X q k = inr (ds, ixs) /\
                 nearest metric X q k ds ixs.
Proof.
  intros _ [Hk1 Hk2]. unfold brute_kneighbors.
  replace ((k =? 0) || (List.length X <? k)) with false.
  2:{ symmetry. apply orb_false_iff. split;
      [apply Nat.eqb_neq|apply Nat.ltb_ge]; lia. }
  set (S := sorted snd (measured X q)).
  assert (Permutation S (measured X q)) as HP by apply sorted_perm.
  assert (StronglySorted (key_le snd) S) as HS by apply sorted_ascending.
  assert (List.length S = List.length X) as HL.
  { unfold S. rewrite sorted_length. unfold measured.
    rewrite length_combine, length_seq, length_map. lia. }
  assert (Permutation (map fst S) (seq 0 (List.length X))) as HPf.
  { rewrite <- measured_fst with (q := q). now apply Permutation_map. }
  exists (map snd (firstn k S)), (map fst (firstn k S)).
  split; [reflexivity|]. repeat split.
  - rewrite length_map, firstn_length_le; lia.
  - assert (NoDup (map fst S)) as ND.
    { eapply Permutation_NoDup; [symmetry; exact HPf|apply seq_NoDup]. }
    rewrite <- (firstn_skipn k S), map_app in ND.
    eapply NoDup_app_remove_r. exact ND.
  - intros i Hi. apply in_map_iff in Hi. destruct Hi as (p & <- & Hp).
    apply In_firstn in Hp.
    assert (In (fst p) (seq 0 (List.length X))) as Hs.
    { eapply Permutation_in; [exact HPf|]. now apply in_map. }
    apply in_seq in Hs. lia.
  - rewrite map_map. apply map_ext_in. intros p Hp.
    apply measured_snd. eapply Permutation_in; [exact HP|].
    eapply In_firstn. exact Hp.
  - apply StronglySorted_map. apply StronglySorted_firstn. exact HS.
  - intros i j Hi Hj Hnj.
    apply in_map_iff in Hi. destruct Hi as (p & <- & Hp).
    assert (In j (map fst S)) as Hjs.
    { eapply Permutation_in; [symmetry; exact HPf|]. apply in_seq. lia. }
    apply in_map_iff in Hjs. destruct Hjs as (p' & <- & Hp').
    rewrite <- (firstn_skipn k S) in Hp'. apply in_app_or in Hp'.
    destruct Hp' as [Hp'|Hp']; [exfalso; apply Hnj; now apply in_map|].
    rewrite <- (firstn_skipn k S) in HS.
    pose proof (@StronglySorted_split _ _ _ _ HS _ _ Hp Hp') as Hle.
    unfold key_le in Hle.
    rewrite <- (@measured_snd X q p), <- (@measured_snd X q p'); [exact Hle| |].
    + eapply Permutation_in; [exact HP|]. eapply In_skipn. exact Hp'.
    + eapply Permutation_in; [exact HP|]. eapply In_firstn. exact Hp.
Qed.

Lemma brute_kneighbors_out_of_range (X : matrix) (q : list float) (k : nat) :
  k = 0 \/ List.length X < k -> brute_kneighbors X q k = inl ValueError.
Proof.
  intro H. unfold brute_kneighbors.
  replace ((k =? 0) || (List.length X <? k)) with true; [reflexivity|].
  symmetry. apply orb_true_iff.
  destruct H as [H|H]; [left; now apply Nat.eqb_eq|right; now apply Nat.ltb_lt].
Qed.
End BruteForce.

(** * Facts about the script *)

Notation "x <- c1 ;; c2" := (bind c1 (fun x => c2))
  (at level 61, c1 at next level, right associativity).
Notation "c1 ;; c2" := (bind c1 (fun _ => c2))
  (at level 61, right associativity).

(** ** Loading and preprocessing *)

Section Loading.
Variable lib : Library.

Lemma logged_logged (s : state) (a b : list event) :
  logged (logged s a) b = logged s (a ++ b).
Proof. unfold logged. simpl. now rewrite app_assoc. Qed.

Definition read_both : list event :=
  [Call (read_csv_call "movies.csv"); Call (read_csv_call "ratings.csv")].

(** With both files readable, loading returns the two tables and the
    preprocessed frame, after the two reads and nothing else. *)
Lemma load_files_present (s : state) (movies : list movie_row)
      (ratings : list rating_row) :
  movies_csv (st_files s) = inr movies ->
  ratings_csv (st_files s) = inr ratings ->
  exists final_dataset,
    preprocess ratings = inr final_dataset /\
    load_and_preprocess_data s =
    (inr (Some movies, Some ratings, Some final_dataset), logged s read_both).
Proof.
  intros Hm Hr. eexists. split; [apply preprocess_spec|].
  unfold load_and_preprocess_data, try_except, bind, read_movies, read_ratings,
    call_lib, bind, emit, lift. simpl.
  rewrite Hm. simpl. rewrite Hr. simpl. rewrite preprocess_spec. simpl.
  unfold logged. simpl. now rewrite <- app_assoc.
Qed.

(** What loading returned tells what was in the files. *)
Lemma load_returned (s : state) (movies : list movie_row)
      (ratings : list rating_row) (final_dataset : dataset) :
  fst (load_and_preprocess_data s)
  = inr (Some movies, Some ratings, Some final_dataset) ->
  movies_csv (st_files s) = inr movies /\
  ratings_csv (st_files s) = inr ratings /\
  preprocess ratings = inr final_dataset.
Proof.
  unfold load_and_preprocess_data, try_except, bind, read_movies, read_ratings,
    call_lib, bind, emit, lift. simpl.
  destruct (movies_csv (st_files s)) as [e|mv]; simpl.
  { destruct (exn_eqb e FileNotFoundError); simpl; discriminate. }
  destruct (ratings_csv (st_files s)) as [e|rt]; simpl.
  { destruct (exn_eqb e FileNotFoundError); simpl; discriminate. }
  rewrite preprocess_spec. simpl. intro E. injection E as <- <- <-.
  repeat split. apply preprocess_spec.
Qed.

Lemma count_ratings_pos_In (ratings : list rating_row) (u : Z) :
  0 < count_ratings ratings u -> In u (map r_userId ratings).
Proof.
  unfold count_ratings. induction ratings as [|r l IH]; simpl; [lia|].
  destruct (r_userId r =? u)%Z eqn:E; simpl.
  - intros _. left. now apply Z.eqb_eq.
  - intro H. right. now apply IH.
Qed.

Lemma kept_users_In (ratings : list rating_row) (u : Z) :
  In u (kept_users ratings) <-> 50 < count_ratings ratings u.
Proof.
  unfold kept_users. rewrite filter_In, sorted_unique_In, Nat.ltb_lt.
  split; [tauto|]. intro H. split; [|exact H].
  apply count_ratings_pos_In. lia.
Qed.

Lemma kept_users_NoDup (ratings : list rating_row) : NoDup (kept_users ratings).
Proof. apply NoDup_filter, sorted_unique_NoDup. Qed.

Lemma movieIds_In (ratings : list rating_row) (m : Z) :
  In m (sorted_unique (map r_movieId ratings)) <->
  exists r, In r ratings /\ r_movieId r = m.
Proof.
  rewrite sorted_unique_In, in_map_iff. split; intros (r & A & B); exists r; tauto.
Qed.

Lemma entry_cases (ratings : list rating_row) (m u : Z) :
  entry ratings m u =
  match ratings_of ratings m u with
  | [] => f_zero
  | rs => f_mean rs
  end.
Proof.
  unfold entry, pivot_cell. now destruct (ratings_of ratings m u).
Qed.

(** A pair rated once keeps that rating. *)
Lemma entry_single (ratings : list rating_row) (m u : Z) (x : float) :
  ratings_of ratings m u = [x] -> entry ratings m u = x.
Proof. intro H. rewrite entry_cases, H. apply f_mean_single. Qed.

(** The state in which [main] stops when loading returned three [None]s. *)
Definition stopped (s : state) (evs : list event) : state :=
  {| st_files := st_files s;
     st_rng := st_rng s;
     st_vars := {| v_movies := None; v_ratings := None;
                   v_final_dataset := None;
                   v_knn := v_knn (st_vars s);
                   v_csr_data := v_csr_data (st_vars s) |};
     st_out := st_out s ++ evs |}.

Definition movies_not_found : list event :=
  [Call (read_csv_call "movies.csv"); Raised FileNotFoundError;
   Print not_found_message].

Definition ratings_not_found : list event :=
  [Call (read_csv_call "movies.csv"); Call (read_csv_call "ratings.csv");
   Raised FileNotFoundError; Print not_found_message].

Lemma load_movies_not_found (s : state) :
  movies_csv (st_files s) = inl FileNotFoundError ->
  load_and_preprocess_data s = (inr (None, None, None), logged s movies_not_found).
Proof.
  intro H. unfold load_and_preprocess_data, try_except, bind, read_movies,
    call_lib, bind, emit, lift. simpl. rewrite H. simpl.
  unfold logged. simpl. now rewrite <- !app_assoc.
Qed.

Lemma load_ratings_not_found (s : state) (movies : list movie_row) :
  movies_csv (st_files s) = inr movies ->
  ratings_csv (st_files s) = inl FileNotFoundError ->
  load_and_preprocess_data s = (inr (None, None, None), logged s ratings_not_found).
Proof.
  intros Hm H. unfold load_and_preprocess_data, try_except, bind, read_movies,
    read_ratings, call_lib, bind, emit, lift. simpl. rewrite Hm. simpl.
  rewrite H. simpl. unfold logged. simpl. now rewrite <- !app_assoc.
Qed.

(** Any other failure to read a file leaves [load_and_preprocess_data], and
    [main], as the exception it is. *)
Lemma load_movies_unreadable (s : state) (e : exn) :
  movies_csv (st_files s) = inl e -> e <> FileNotFoundError ->
  load_and_preprocess_data s
  = (inl e, logged s [Call (read_csv_call "movies.csv"); Raised e]).
Proof.
  intros H N. unfold load_and_preprocess_data, try_except, bind, read_movies,
    call_lib, bind, emit, lift. simpl. rewrite H. simpl.
  rewrite (exn_eqb_neq N). unfold logged. simpl. now rewrite <- !app_assoc.
Qed.

Lemma load_ratings_unreadable (s : state) (movies : list movie_row) (e : exn) :
  movies_csv (st_files s) = inr movies ->
  ratings_csv (st_files s) = inl e -> e <> FileNotFoundError ->
  load_and_preprocess_data s
  = (inl e, logged s [Call (read_csv_call "movies.csv");
                      Call (read_csv_call "ratings.csv"); Raised e]).
Proof.
  intros Hm H N. unfold load_and_preprocess_data, try_except, bind, read_movies,
    read_ratings, call_lib, bind, emit, lift. simpl. rewrite Hm. simpl.
  rewrite H. simpl. rewrite (exn_eqb_neq N).
  unfold logged. simpl. now rewrite <- !app_assoc.
Qed.

(** [main] after a load that returned three [None]s: it returns at once. *)
Lemma main_stops (inputs : list string) (s : state) (evs : list event) :
  load_and_preprocess_data s = (inr (None, None, None), logged s evs) ->
  main lib inputs s = (inr tt, stopped s evs).
Proof.
  intro H. unfold main. unfold bind at 1. rewrite H.
  unfold bind, assign_loaded, bind, get_vars, set_vars. simpl. reflexivity.
Qed.

Lemma main_load_raises (inputs : list string) (s s' : state) (e : exn) :
  load_and_preprocess_data s = (inl e, s') ->
  main lib inputs s = (inl e, s').
Proof. intro H. unfold main. unfold bind at 1. now rewrite H. Qed.

(** The variable [final_dataset] at the end of [main] is what loading
    returned: no later step assigns or changes it. *)
Lemma main_final_dataset (inputs : list string) (s : state) :
  v_final_dataset (st_vars (snd (main lib inputs s))) =
  match fst (load_and_preprocess_data s) with
  | inr loaded => snd loaded
  | inl _ => v_final_dataset (st_vars s)
  end.
Proof.
  set (f := fun s : state => v_final_dataset (st_vars s)).
  assert (is_frame f) as Hf by apply is_frame_final_dataset.
  unfold main. unfold bind at 1.
  pose proof (@keeps_load _ f Hf s) as Hl.
  destruct (load_and_preprocess_data s) as [[e|loaded] s1]; simpl in *;
    [exact Hl|].
  unfold bind at 1. unfold assign_loaded. unfold bind at 1. simpl.
  unfold bind at 1. simpl.
  match goal with |- context [if ?c then _ else _] => destruct c end;
    [reflexivity|].
  match goal with
  | |- v_final_dataset (st_vars (snd (?m ?s2))) = _ =>
      change (f (snd (m s2)) = f s2);
      assert (keeps f m) as Hk; [|apply Hk]
  end.
  apply keeps_bind; [now apply keeps_read_var|]. intro fd.
  apply keeps_bind; [now apply keeps_create_recommendation_model|]. intro model.
  apply keeps_bind; [intro s'; reflexivity|]. intros _.
  apply keeps_bind; [now apply keeps_read_var|]. intro fd'.
  apply keeps_bind; [now apply keeps_train_models|]. intros _.
  apply keeps_bind; [now apply keeps_read_var|]. intro fd''.
  apply keeps_bind; [now apply keeps_visualize_datasets|]. intros _.
  now apply keeps_main_loop.
Qed.
End Loading.

(** ** Running [get_movie_recommendation] *)

Section Recommend.
Variable lib : Library.

(** *** Step lemmas for the monad *)

Lemma bind_lift (A B : Type) (r : result A) (k : A -> M B) (s : state) :
  bind (lift r) k s =
  match r with
  | inl e => (inl e, logged s [Raised e])
  | inr a => k a s
  end.
Proof. destruct r; reflexivity. Qed.

Lemma bind_call_lib (A B : Type) (c : call) (r : result A) (k : A -> M B)
      (s : state) :
  bind (call_lib c r) k s =
  match r with
  | inl e => (inl e, logged s [Call c; Raised e])
  | inr a => k a (logged s [Call c])
  end.
Proof.
  unfold call_lib, bind, emit, logged. destruct r; simpl; try reflexivity.
  unfold raise, emit. simpl. now rewrite <- app_assoc.
Qed.

Lemma bind_print (B : Type) (t : string) (k : unit -> M B) (s : state) :
  bind (print t) k s = k tt (logged s [Print t]).
Proof. reflexivity. Qed.

(** The state [s] after [drawn] words were taken from the generator and
    the events [evs] appended to the output. *)
Definition drew (s : state) (drawn : nat) (evs : list event) : state :=
  {| st_files := st_files s;
     st_rng := fun i => st_rng s (drawn + i);
     st_vars := st_vars s;
     st_out := st_out s ++ evs |}.

Lemma bind_SVC_fit_default (B : Type) (X : matrix) (y : list bool)
      (k : classifier lib -> M B) (s : state) :
  bind (SVC_fit_default lib X y) k s =
  match SVC_fit lib X y (st_rng s) with
  | (inl e, drawn) => (inl e, drew s drawn [Call (SVC_fit_call X y); Raised e])
  | (inr c, drawn) => k c (drew s drawn [Call (SVC_fit_call X y)])
  end.
Proof.
  unfold SVC_fit_default, bind, get_rng, emit, advance, lift. simpl.
  destruct (SVC_fit lib X y (st_rng s)) as [[e|c] drawn]; simpl;
    [|reflexivity].
  unfold raise, emit, drew. simpl. now rewrite <- app_assoc.
Qed.

Lemma bind_inr (A B : Type) (m : M A) (k : A -> M B) (s : state) (b : B) :
  fst (bind m k s) = inr b ->
  exists a s', m s = (inr a, s') /\ fst (k a s') = inr b.
Proof.
  unfold bind. destruct (m s) as [[e|a] s']; simpl; [discriminate|].
  intro H. now exists a, s'.
Qed.

Lemma lift_inr (A : Type) (r : result A) (s s' : state) (a : A) :
  lift r s = (inr a, s') -> r = inr a /\ s' = s.
Proof.
  destruct r; simpl; [discriminate|]. unfold ret. intro H.
  injection H as -> ->. now split.
Qed.

Lemma call_lib_inr (A : Type) (c : call) (r : result A) (s s' : state) (a : A) :
  call_lib c r s = (inr a, s') -> r = inr a /\ s' = logged s [Call c].
Proof.
  unfold call_lib, bind. simpl. intro H. apply lift_inr in H.
  destruct H as [-> ->]. now split.
Qed.

(** *** The three outcomes of the [try] around the variance *)

Lemma report_variance_value (l : list float) (v : float) (s : state) :
  variance lib l = inr v ->
  report_variance lib l s
  = (inr tt, logged s [Call (variance_call l); Print (variance_line v)]).
Proof.
  intro H. unfold report_variance, try_except.
  rewrite bind_call_lib, H. unfold print, emit, logged. simpl.
  now rewrite <- app_assoc.
Qed.

Lemma report_variance_caught (l : list float) (s : state) :
  variance lib l = inl StatisticsError ->
  report_variance lib l s
  = (inr tt, logged s [Call (variance_call l); Raised StatisticsError;
                       Print not_enough_data_message]).
Proof.
  intro H. unfold report_variance, try_except.
  rewrite bind_call_lib, H. unfold print, emit, logged. simpl.
  now rewrite <- app_assoc.
Qed.

Lemma report_variance_uncaught (l : list float) (e : exn) (s : state) :
  variance lib l = inl e -> e <> StatisticsError ->
  report_variance lib l s
  = (inl e, logged s [Call (variance_call l); Raised e]).
Proof.
  intros H N. unfold report_variance, try_except.
  rewrite bind_call_lib, H. now rewrite (exn_eqb_neq N).
Qed.

(** *** The early returns *)

Definition asked (movie_name : string) (movies : list movie_row) : event :=
  Call (get_close_matches_call movie_name (map m_title movies) 1).

Lemma recommendation_no_match
      (movie_name : string) (movies : list movie_row) (final_dataset : dataset)
      (knn : NearestNeighbors) (csr_data : matrix) (n : nat) (s : state) :
  get_close_matches lib movie_name (map m_title movies) 1 = [] ->
  get_movie_recommendation lib movie_name movies final_dataset knn csr_data n s
  = (inr None, logged s [asked movie_name movies; Print no_match_message]).
Proof.
  intro H. unfold get_movie_recommendation. rewrite bind_call_lib, H.
  rewrite bind_print. unfold ret. now rewrite logged_logged.
Qed.

Lemma recommendation_not_in_dataset
      (movie_name : string) (movies : list movie_row) (final_dataset : dataset)
      (knn : NearestNeighbors) (csr_data : matrix) (n : nat) (s : state)
      (t : string) (more : list string) (mid : Z) :
  get_close_matches lib movie_name (map m_title movies) 1 = t :: more ->
  movieId_of_title movies t = inr mid ->
  existsb (Z.eqb mid) (ds_movieId final_dataset) = false ->
  get_movie_recommendation lib movie_name movies final_dataset knn csr_data n s
  = (inr None,
     logged s [asked movie_name movies; Print not_in_dataset_message]).
Proof.
  intros H Hm Hin. unfold get_movie_recommendation. rewrite bind_call_lib, H.
  rewrite bind_lift, Hm, Hin. simpl.
  rewrite bind_print. unfold ret. now rewrite logged_logged.
Qed.

(** *** A call that returns a frame went all the way *)

Lemma recommendation_returned
      (movie_name : string) (movies : list movie_row) (final_dataset : dataset)
      (knn : NearestNeighbors) (csr_data : matrix) (n : nat) (s : state)
      (df : frame) :
  fst (get_movie_recommendation lib movie_name movies final_dataset knn
                                csr_data n s) = inr (Some df) ->
  exists t more mid r q ds ixs recs rows,
    get_close_matches lib movie_name (map m_title movies) 1 = t :: more /\
    movieId_of_title movies t = inr mid /\
    find_index (fun m => (m =? mid)%Z) (ds_movieId final_dataset) = Some r /\
    nth_error csr_data r = Some q /\
    match nn_fit_X knn with
    | Some X => kneighbors lib (nn_metric knn) (nn_algorithm knn) X q (n + 1)
    | None => inl (OtherError "NotFittedError")
    end = inr (ds, ixs) /\
    rec_movie_indices ixs ds = inr recs /\
    recommend_frame movies final_dataset recs = inr rows /\
    DataFrame_of_rows rows (seq 1 n) = inr df.
Proof.
  unfold get_movie_recommendation, NearestNeighbors_kneighbors.
  rewrite bind_call_lib.
  destruct (get_close_matches lib movie_name (map m_title movies) 1)
    as [|t more] eqn:Egcm; [discriminate|].
  rewrite bind_lift.
  destruct (movieId_of_title movies t) as [e|mid] eqn:Emid; [discriminate|].
  destruct (negb (existsb (Z.eqb mid) (ds_movieId final_dataset)));
    [discriminate|].
  rewrite bind_lift.
  destruct (find_index (fun m => (m =? mid)%Z) (ds_movieId final_dataset))
    as [r|] eqn:Er; simpl; [|discriminate].
  rewrite bind_lift.
  destruct (nth_error csr_data r) as [q|] eqn:Eq; simpl; [|discriminate].
  rewrite bind_call_lib.
  match goal with
  | |- context [match ?c with inl _ => _ | inr _ => _ end] =>
      destruct c as [e|[ds ixs]] eqn:Ek; [discriminate|]
  end.
  rewrite bind_lift. simpl fst. simpl snd.
  destruct (rec_movie_indices ixs ds) as [e|recs] eqn:Erecs; [discriminate|].
  rewrite bind_lift.
  destruct (recommend_frame movies final_dataset recs) as [e|rows] eqn:Erows;
    [discriminate|].
  rewrite bind_lift.
  destruct (DataFrame_of_rows rows (seq 1 n)) as [e|df'] eqn:Edf;
    [discriminate|].
  intro H. apply bind_inr in H. destruct H as (u & s' & _ & H).
  simpl in H. injection H as ->.
  exists t, more, mid, r, q, ds, ixs, recs, rows. repeat split; assumption.
Qed.

(** *** A call that goes all the way *)

Lemma recommendation_computed
      (movie_name : string) (movies : list movie_row) (final_dataset : dataset)
      (knn : NearestNeighbors) (csr_data : matrix) (n : nat) (s : state)
      (t : string) (more : list string) (mid : Z) (r : nat) (q ds : list float)
      (ixs : list nat) (recs : list (nat * float)) (rows : list (string * float))
      (df : frame) :
  get_close_matches lib movie_name (map m_title movies) 1 = t :: more ->
  movieId_of_title movies t = inr mid ->
  find_index (fun m => (m =? mid)%Z) (ds_movieId final_dataset) = Some r ->
  nth_error csr_data r = Some q ->
  match nn_fit_X knn with
  | Some X => kneighbors lib (nn_metric knn) (nn_algorithm knn) X q (n + 1)
  | None => inl (OtherError "NotFittedError")
  end = inr (ds, ixs) ->
  rec_movie_indices ixs ds = inr recs ->
  recommend_frame movies final_dataset recs = inr rows ->
  DataFrame_of_rows rows (seq 1 n) = inr df ->
  get_movie_recommendation lib movie_name movies final_dataset knn csr_data n s
  = match report_variance lib (map snd recs)
            (logged s [asked movie_name movies;
                       Call (kneighbors_call q (n + 1))]) with
    | (inl e, s') => (inl e, s')
    | (inr _, s') => (inr (Some df), s')
    end.
Proof.
  intros Egcm Emid Er Eq Ek Erecs Erows Edf.
  unfold get_movie_recommendation, NearestNeighbors_kneighbors.
  rewrite bind_call_lib, Egcm, bind_lift, Emid.
  assert (existsb (Z.eqb mid) (ds_movieId final_dataset) = true) as Hin.
  { destruct (find_index_some _ _ Er) as (x & Hx & Px & _).
    apply existsb_exists. exists x. split.
    - eapply nth_error_In. exact Hx.
    - apply Z.eqb_eq in Px. subst. apply Z.eqb_refl. }
  rewrite Hin. cbn [negb].
  rewrite bind_lift, Er. cbn [of_option].
  rewrite bind_lift, Eq. cbn [of_option].
  rewrite bind_call_lib, Ek, logged_logged. cbn [app].
  rewrite bind_lift. cbn [fst snd]. rewrite Erecs.
  rewrite bind_lift, Erows, bind_lift, Edf.
  unfold bind, ret. reflexivity.
Qed.
(** *** What the parts of a returned frame are *)

Lemma recommend_frame_rows (movies : list movie_row) (final_dataset : dataset)
      (recs : list (nat * float)) (rows : list (string * float)) :
  recommend_frame movies final_dataset recs = inr rows ->
  Forall2 (fun val row => title_at movies final_dataset (fst val) = inr (fst row)
                          /\ snd row = snd val) recs rows.
Proof.
  revert rows. induction recs as [|val rest IH]; simpl; intros rows H.
  - injection H as <-. constructor.
  - destruct (title_at movies final_dataset (fst val)) as [e|title] eqn:Et;
      [discriminate|].
    destruct (recommend_frame movies final_dataset rest) as [e|rows'];
      [discriminate|].
    injection H as <-. constructor; [now split|]. now apply IH.
Qed.

Lemma recommend_frame_distances (movies : list movie_row)
      (final_dataset : dataset) (recs : list (nat * float))
      (rows : list (string * float)) :
  recommend_frame movies final_dataset recs = inr rows ->
  map snd rows = map snd recs.
Proof.
  intro H. apply recommend_frame_rows in H.
  induction H as [|val row recs rows [_ E] _ IH]; simpl; [reflexivity|].
  now rewrite E, IH.
Qed.

Lemma rec_movie_indices_value (ixs : list nat) (ds : list float)
      (recs : list (nat * float)) :
  rec_movie_indices ixs ds = inr recs ->
  recs = slice_to_0_reversed (sorted snd (combine ixs ds)).
Proof.
  unfold rec_movie_indices, zip_squeezed.
  destruct (squeeze_tolist ixs) as [i|] eqn:Ei; [|discriminate].
  destruct (squeeze_tolist ds) as [d|] eqn:Ed; [|discriminate].
  assert (i = ixs) as ->.
  { unfold squeeze_tolist in Ei. destruct ixs as [|? [|? ?]];
      try discriminate; now injection Ei. }
  assert (d = ds) as ->.
  { unfold squeeze_tolist in Ed. destruct ds as [|? [|? ?]];
      try discriminate; now injection Ed. }
  intro H. now injection H.
Qed.

Lemma DataFrame_of_rows_value (rows : list (string * float)) (idx : list nat)
      (df : frame) :
  DataFrame_of_rows rows idx = inr df ->
  df_index df = idx /\ df_rows df = rows /\
  (List.length rows = List.length idx \/ rows = []).
Proof.
  unfold DataFrame_of_rows.
  destruct ((List.length rows =? List.length idx) || (List.length rows =? 0))
    eqn:E; [|discriminate].
  intro H. injection H as <-. simpl. repeat split.
  apply orb_true_iff in E. destruct E as [E|E]; apply Nat.eqb_eq in E.
  - now left.
  - right. now destruct rows.
Qed.

(** *** A library error in the middle of a query *)

Lemma recommendation_kneighbors_raises
      (movie_name : string) (movies : list movie_row) (final_dataset : dataset)
      (knn : NearestNeighbors) (csr_data : matrix) (n : nat) (s : state)
      (t : string) (more : list string) (mid : Z) (r : nat) (q : list float)
      (e : exn) :
  get_close_matches lib movie_name (map m_title movies) 1 = t :: more ->
  movieId_of_title movies t = inr mid ->
  find_index (fun m => (m =? mid)%Z) (ds_movieId final_dataset) = Some r ->
  nth_error csr_data r = Some q ->
  match nn_fit_X knn with
  | Some X => kneighbors lib (nn_metric knn) (nn_algorithm knn) X q (n + 1)
  | None => inl (OtherError "NotFittedError")
  end = inl e ->
  get_movie_recommendation lib movie_name movies final_dataset knn csr_data n s
  = (inl e, logged s [asked movie_name movies;
                      Call (kneighbors_call q (n + 1)); Raised e]).
Proof.
  intros Egcm Emid Er Eq Ek.
  unfold get_movie_recommendation, NearestNeighbors_kneighbors.
  rewrite bind_call_lib, Egcm, bind_lift, Emid.
  assert (existsb (Z.eqb mid) (ds_movieId final_dataset) = true) as Hin.
  { destruct (find_index_some _ _ Er) as (x & Hx & Px & _).
    apply existsb_exists. exists x. split.
    - eapply nth_error_In. exact Hx.
    - apply Z.eqb_eq in Px. subst. apply Z.eqb_refl. }
  rewrite Hin. cbn [negb].
  rewrite bind_lift, Er. cbn [of_option].
  rewrite bind_lift, Eq. cbn [of_option].
  rewrite bind_call_lib, Ek, logged_logged. reflexivity.
Qed.

(** After the fuzzy match, no step asks difflib again. *)
Definition not_a_fuzzy_match (ev : event) : Prop :=
  forall w ps k, ev <> Call (get_close_matches_call w ps k).

Lemma emits_report_variance (P : event -> Prop) (l : list float) :
  P (Call (variance_call l)) -> (forall e, P (Raised e)) ->
  (forall t, P (Print t)) -> emits P (report_variance lib l).
Proof.
  intros Hc Hr Hp. unfold report_variance, print.
  apply emits_try_except.
  - apply emits_bind; [now apply emits_call_lib|]. intro v.
    apply emits_emit, Hp.
  - apply emits_emit, Hp.
Qed.
End Recommend.

(** ** The run with and the run without [train_models] *)

Section Training.
Variable lib : Library.

(** The frames a run printed: the recommendations it gave. *)
Definition recommended (out : list event) : list frame :=
  flat_map (fun ev => match ev with PrintFrame df => [df] | _ => [] end) out.

Definition no_frame (ev : event) : Prop :=
  match ev with PrintFrame _ => False | _ => True end.

Lemma recommended_app (a b : list event) :
  recommended (a ++ b) = recommended a ++ recommended b.
Proof. apply flat_map_app. Qed.

Lemma recommended_no_frame (evs : list event) :
  Forall no_frame evs -> recommended evs = [].
Proof.
  induction 1 as [|ev evs H _ IH]; simpl; [reflexivity|].
  rewrite IH. now destruct ev.
Qed.

Lemma emits_recommended (A : Type) (m : M A) (s : state) :
  emits no_frame m ->
  recommended (st_out (snd (m s))) = recommended (st_out s).
Proof.
  intro H. destruct (H s) as (evs & E & F).
  rewrite E, recommended_app, (recommended_no_frame F). apply app_nil_r.
Qed.

Lemma emits_quiet_state (A : Type) (P : event -> Prop) (m : M A) :
  (forall s, st_out (snd (m s)) = st_out s) -> emits P m.
Proof. intros H s. exists []. rewrite H, app_nil_r. now split. Qed.

Lemma emits_read_var (A : Type) (P : event -> Prop) (field : vars -> option A) :
  (forall e, P (Raised e)) -> emits P (read_var field).
Proof.
  intros H s. unfold read_var. destruct (field (st_vars s)).
  - apply emits_ret.
  - apply emits_raise, H.
Qed.

Ltac no_frame_steps :=
  repeat (cbv zeta; cbn beta;
          first [ apply emits_ret
                | apply emits_bind; [|intro]
                | apply emits_try_except
                | apply emits_emit; exact I
                | apply emits_raise; exact I
                | apply emits_lift; intro; exact I
                | apply emits_call_lib; [exact I|intro; exact I]
                | apply emits_read_var; intro; exact I
                | apply emits_quiet_state; intro; reflexivity
                | split_match ]).

Lemma no_frame_load : emits no_frame load_and_preprocess_data.
Proof.
  unfold load_and_preprocess_data, print. apply emits_try_except.
  - apply emits_bind.
    + intro s. unfold read_movies. apply emits_call_lib; [exact I|intro; exact I].
    + intro movies. apply emits_bind.
      * intro s. unfold read_ratings.
        apply emits_call_lib; [exact I|intro; exact I].
      * intro ratings. no_frame_steps.
  - no_frame_steps.
Qed.

Lemma no_frame_create_recommendation_model (final_dataset : dataset) :
  emits no_frame (create_recommendation_model lib final_dataset).
Proof.
  unfold create_recommendation_model, NearestNeighbors_fit. no_frame_steps.
Qed.

Lemma no_frame_train_models (final_dataset : dataset) :
  emits no_frame (train_models lib final_dataset).
Proof.
  unfold train_models, print. cbv zeta. apply emits_bind.
  - intro s. exists [Call (randint_call 0 2 (List.length (ds_values final_dataset)))].
    split; [reflexivity|]. now repeat constructor.
  - intro y. no_frame_steps.
Qed.

(** The rest of [main] after the training step. *)
Definition session (inputs : list string) : M unit :=
  final_dataset <- read_var v_final_dataset ;;
  visualize_datasets final_dataset ;;
  main_loop lib inputs.

Lemma insensitive_session (inputs : list string) : insensitive (session inputs).
Proof.
  unfold session. apply insensitive_bind; [apply insensitive_read_var|].
  intro fd. apply insensitive_bind; [apply insensitive_visualize_datasets|].
  intros _. apply insensitive_main_loop.
Qed.

Lemma bind_read_var (A B : Type) (field : vars -> option A) (k : A -> M B)
      (s : state) :
  bind (read_var field) k s =
  match field (st_vars s) with
  | Some a => k a s
  | None => (inl (OtherError "UnboundLocalError"),
             logged s [Raised (OtherError "UnboundLocalError")])
  end.
Proof. unfold bind, read_var. now destruct (field (st_vars s)). Qed.

End Training.

(** ** The neighbours a query gets *)

Section Neighbours.
Variable lib : Library.

Definition is_inr {A : Type} (r : result A) : bool :=
  match r with inr _ => true | inl _ => false end.

(** Each of the first [rows] rows of the frame has a movieId that
    movies.csv lists. *)
Definition all_listed (movies : list movie_row) (final_dataset : dataset)
           (rows : nat) : bool :=
  forallb (fun i => is_inr (title_at movies final_dataset i)) (seq 0 rows).

(** Row [r] of [X] is strictly nearer to itself than to any other row. *)
Definition strictly_nearest_to_itself
           (metric : list float -> list float -> float) (X : matrix) (r : nat)
  : bool :=
  forallb (fun j => (j =? r)
                    || f_ltb (metric (nth r X []) (nth r X []))
                             (metric (nth r X []) (nth j X [])))
          (seq 0 (List.length X)).

Lemma strictly_nearest_spec (metric : list float -> list float -> float)
      (X : matrix) (r j : nat) :
  strictly_nearest_to_itself metric X r = true ->
  j < List.length X -> j <> r ->
  f_leb (metric (nth r X []) (nth j X [])) (metric (nth r X []) (nth r X []))
  = false.
Proof.
  unfold strictly_nearest_to_itself. rewrite forallb_forall. intros H Hj N.
  specialize (H j). rewrite in_seq in H. specialize (H ltac:(lia)).
  apply orb_true_iff in H. destruct H as [H|H].
  - apply Nat.eqb_eq in H. contradiction.
  - unfold f_ltb in H. now apply negb_true_iff in H.
Qed.

(** With the query row strictly nearest to itself, a lawful answer of
    [kneighbors] starts with the query row. *)
Lemma nearest_starts_with_query (metric : list float -> list float -> float)
      (X : matrix) (r k : nat) (ds : list float) (ixs : list nat) :
  nearest metric X (nth r X []) k ds ixs ->
  1 <= k -> r < List.length X ->
  strictly_nearest_to_itself metric X r = true ->
  exists ixs', ixs = r :: ixs'.
Proof.
  intros (Hlen & Hnd & Hlt & Hds & Hasc & Hout) Hk Hr Hs.
  destruct ixs as [|i0 ixs']; [simpl in Hlen; lia|].
  exists ixs'. f_equal.
  destruct (Nat.eq_dec i0 r) as [E|N]; [exact E|exfalso].
  assert (i0 < List.length X) as Hi0 by (apply Hlt; now left).
  pose proof (strictly_nearest_spec metric X Hs Hi0 N) as Hstrict.
  destruct (in_dec Nat.eq_dec r ixs') as [Hin|Hnin].
  - subst ds. simpl in Hasc. inversion Hasc as [|? ? _ Hall]; subst.
    rewrite Forall_forall in Hall.
    specialize (Hall (metric (nth r X []) (nth r X []))).
    rewrite Hall in Hstrict; [discriminate|].
    apply in_map_iff. now exists r.
  - rewrite (Hout i0 r) in Hstrict; [discriminate|now left|exact Hr|].
    intros [E|Hin]; [now apply N|now apply Hnin].
Qed.

Lemma combine_ascending (ixs : list nat) (ds : list float) :
  ascending ds -> List.length ixs = List.length ds ->
  StronglySorted (key_le snd) (combine ixs ds).
Proof.
  intro H. revert ixs. induction H as [|d ds S IH Hd]; intros [|i ixs] E;
    simpl in *; try discriminate; constructor.
  - apply IH. lia.
  - apply Forall_forall. intros [j e] Hp. apply in_combine_r in Hp.
    rewrite Forall_forall in Hd. unfold key_le. simpl. now apply Hd.
Qed.

Lemma map_fst_combine (ixs : list nat) (ds : list float) :
  List.length ixs = List.length ds -> map fst (combine ixs ds) = ixs.
Proof.
  revert ds. induction ixs as [|i ixs IH]; intros [|d ds] E; simpl in *;
    try discriminate; [reflexivity|]. f_equal. apply IH. lia.
Qed.

Lemma squeeze_tolist_long (A : Type) (l : list A) :
  2 <= List.length l -> squeeze_tolist l = Some l.
Proof. destruct l as [|a [|b l]]; simpl; intro H; try lia; reflexivity. Qed.

(** The loop finds a title for every row that is listed. *)
Lemma recommend_frame_listed (movies : list movie_row) (final_dataset : dataset)
      (rows : nat) (recs : list (nat * float)) :
  all_listed movies final_dataset rows = true ->
  (forall val, In val recs -> fst val < rows) ->
  exists frame_rows, recommend_frame movies final_dataset recs = inr frame_rows.
Proof.
  unfold all_listed. rewrite forallb_forall. intros Hall.
  induction recs as [|val rest IH]; intro Hlt; simpl.
  - now exists [].
  - assert (is_inr (title_at movies final_dataset (fst val)) = true) as Ht.
    { apply Hall, in_seq. specialize (Hlt val (or_introl eq_refl)). lia. }
    destruct (title_at movies final_dataset (fst val)) as [e|title];
      [discriminate|].
    destruct IH as (rows' & ->); [intros v Hv; apply Hlt; now right|].
    now eexists.
Qed.

(** Whatever the variance does to a list of at least one distance, the
    [try] returns. *)
Lemma report_variance_returns (l : list float) (s : state) :
  exists s', report_variance lib l s = (inr tt, s').
Proof.
  destruct (le_lt_dec 2 (List.length l)) as [H|H].
  - destruct (variance_defined lib l H) as (v & E).
    eexists. eapply report_variance_value. exact E.
  - eexists. apply report_variance_caught. now apply variance_too_short.
Qed.
(** *** Two rows with the same ratings

    [kneighbors] is given the query vector, not its row number, so for two
    rows with the same vector it gives one and the same answer.  When every
    other row is strictly farther, the answer lists both rows first, the
    slice drops only the first of the two, and the variable
    [rec_movie_indices] keeps the other: queried by that one, the function
    recommends the queried movie.  This holds whichever of the two the
    library lists first. *)

(** Every row other than [r1] and [r2] is strictly farther from [q] than
    [q] is from itself. *)
Definition others_farther (metric : list float -> list float -> float)
           (X : matrix) (q : list float) (r1 r2 : nat) : bool :=
  forallb (fun j => (j =? r1) || (j =? r2)
                    || f_ltb (metric q q) (metric q (nth j X [])))
          (seq 0 (List.length X)).

Lemma others_farther_spec (metric : list float -> list float -> float)
      (X : matrix) (q : list float) (r1 r2 j : nat) :
  others_farther metric X q r1 r2 = true ->
  j < List.length X -> j <> r1 -> j <> r2 ->
  f_leb (metric q (nth j X [])) (metric q q) = false.
Proof.
  unfold others_farther. rewrite forallb_forall. intros H Hj N1 N2.
  specialize (H j). rewrite in_seq in H. specialize (H ltac:(lia)).
  apply orb_true_iff in H. destruct H as [H|H].
  - apply orb_true_iff in H. destruct H as [H|H]; apply Nat.eqb_eq in H;
      contradiction.
  - unfold f_ltb in H. now apply negb_true_iff in H.
Qed.

Lemma twin_in_answer (metric : list float -> list float -> float)
      (X : matrix) (q : list float) (r1 r2 k : nat) (ds : list float)
      (ixs : list nat) :
  nearest metric X q k ds ixs ->
  2 <= k -> r1 < List.length X -> nth r1 X [] = q ->
  others_farther metric X q r1 r2 = true ->
  In r1 ixs.
Proof.
  intros (Hlen & Hnd & Hlt & Hds & Hasc & Hout) Hk Hr1 Hq1 Hfar.
  destruct (in_dec Nat.eq_dec r1 ixs) as [Hin|Hnin]; [exact Hin|exfalso].
  assert (exists j, In j ixs /\ j <> r2) as (j & Hj & Hj2).
  { destruct ixs as [|a [|b l]]; simpl in Hlen; try lia.
    destruct (Nat.eq_dec a r2) as [->|Na].
    - exists b. split; [right; now left|].
      intros ->. inversion Hnd as [|? ? Hn _]; subst. apply Hn. now left.
    - exists a. split; [now left|exact Na]. }
  assert (j <> r1) as Hj1 by (intros ->; contradiction).
  pose proof (others_farther_spec metric X q Hfar (Hlt j Hj) Hj1 Hj2) as Hstrict.
  pose proof (Hout j r1 Hj Hr1 Hnin) as Hle.
  rewrite Hq1 in Hle. rewrite Hle in Hstrict. discriminate.
Qed.

Theorem one_twin_is_recommended_to_itself (metric algorithm : string)
        (X : matrix) (q : list float) (r1 r2 n : nat) :
  1 <= n -> n + 1 <= List.length X ->
  r1 <> r2 ->
  nth_error X r1 = Some q -> nth_error X r2 = Some q ->
  others_farther (distance lib metric) X q r1 r2 = true ->
  others_farther (distance lib metric) X q r2 r1 = true ->
  same_width X q = true ->
  exists ds ixs recs,
    kneighbors lib metric algorithm X q (n + 1) = inr (ds, ixs) /\
    rec_movie_indices ixs ds = inr recs /\
    (In r1 (map fst recs) \/ In r2 (map fst recs)).
Proof.
  intros Hn Hrows N E1 E2 Hfar1 Hfar2 Hw.
  assert (r1 < List.length X) as Hr1 by (apply nth_error_Some; congruence).
  assert (r2 < List.length X) as Hr2 by (apply nth_error_Some; congruence).
  assert (nth r1 X [] = q) as Hq1 by (now apply nth_error_nth).
  assert (nth r2 X [] = q) as Hq2 by (now apply nth_error_nth).
  destruct (kneighbors_nearest lib metric algorithm X q (k := n + 1) Hw)
    as (ds & ixs & Ek & Hnear); [lia|].
  pose proof (twin_in_answer r2 Hnear ltac:(lia) Hr1 Hq1 Hfar1) as Hin1.
  pose proof (twin_in_answer r1 Hnear ltac:(lia) Hr2 Hq2 Hfar2) as Hin2.
  destruct Hnear as (Hlen & Hnd & Hlt & Hds & Hasc & Hout).
  assert (List.length ixs = List.length ds) as Hlen2
      by (rewrite Hds; now rewrite length_map).
  exists ds, ixs, (rev (tl (combine ixs ds))).
  split; [exact Ek|]. split.
  { unfold rec_movie_indices, zip_squeezed.
    rewrite !squeeze_tolist_long by lia.
    rewrite sorted_ascending_id by (now apply combine_ascending).
    reflexivity. }
  rewrite map_rev.
  assert (map fst (tl (combine ixs ds)) = tl ixs) as ->.
  { destruct ixs as [|i ixs], ds as [|d ds]; simpl in *; try discriminate;
      try reflexivity. apply map_fst_combine. lia. }
  destruct ixs as [|i0 ixs']; [contradiction|]. simpl tl.
  destruct Hin1 as [->|Hin1]; [|left; now apply -> in_rev].
  destruct Hin2 as [E|Hin2]; [now contradiction N|].
  right. now apply -> in_rev.
Qed.
End Neighbours.

(** ** Queries against a model fitted on the frame *)

Section Answers.
Variable lib : Library.

(** Every row of [X] is as wide as every other. *)
Definition rectangular (X : matrix) : bool :=
  forallb (fun row => same_width X row) X.

Lemma rectangular_row (X : matrix) (r : nat) (q : list float) :
  rectangular X = true -> nth_error X r = Some q -> same_width X q = true.
Proof.
  unfold rectangular. rewrite forallb_forall. intros H E. apply H.
  eapply nth_error_In. exact E.
Qed.

Lemma rectangular_Forall (X : matrix) :
  rectangular X = true -> Forall (fun row => same_width X row = true) X.
Proof. unfold rectangular. rewrite forallb_forall. apply Forall_forall. Qed.

Lemma rectangular_rows (w : nat) (X : matrix) :
  Forall (fun row => List.length row = w) X -> rectangular X = true.
Proof.
  intro H. unfold rectangular, same_width. rewrite Forall_forall in H.
  apply forallb_forall. intros q Hq. apply forallb_forall. intros row Hrow.
  apply Nat.eqb_eq. now rewrite (H q Hq), (H row Hrow).
Qed.

(** The matrix of a preprocessed frame has a row per movieId, all of one
    width. *)
Lemma preprocess_shape (ratings : list rating_row) (final_dataset : dataset) :
  preprocess ratings = inr final_dataset ->
  List.length (ds_values final_dataset)
  = List.length (ds_movieId final_dataset) /\
  rectangular (ds_values final_dataset) = true.
Proof.
  rewrite preprocess_spec. intro H. injection H as <-. simpl. split.
  - apply length_map.
  - apply rectangular_rows with (w := List.length (kept_users ratings)).
    apply Forall_forall. intros row Hrow. apply in_map_iff in Hrow.
    destruct Hrow as (m & <- & _). apply length_map.
Qed.

(** A title of movies.csv has a movieId. *)
Lemma movieId_of_title_listed (movies : list movie_row) (t : string) :
  In t (map m_title movies) -> exists mid, movieId_of_title movies t = inr mid.
Proof.
  intro H. apply in_map_iff in H. destruct H as (row & E & Hin).
  unfold movieId_of_title.
  destruct (filter (fun m => String.eqb (m_title m) t) movies) as [|x l] eqn:F.
  - exfalso. assert (In row []) as [].
    rewrite <- F. apply filter_In. split; [exact Hin|].
    rewrite E. apply String.eqb_refl.
  - simpl. now eexists.
Qed.

Lemma find_index_existsb (ids : list Z) (mid : Z) :
  existsb (Z.eqb mid) ids = true ->
  exists r, find_index (fun m => (m =? mid)%Z) ids = Some r.
Proof.
  intro H. destruct (find_index (fun m => (m =? mid)%Z) ids) as [r|] eqn:E;
    [now exists r|].
  exfalso. rewrite find_index_none in E. apply existsb_exists in H.
  destruct H as (x & Hx & Ex). apply Z.eqb_eq in Ex. subst x.
  specialize (E mid Hx). simpl in E. rewrite Z.eqb_refl in E. discriminate.
Qed.

Lemma existsb_find_index (ids : list Z) (mid : Z) (r : nat) :
  find_index (fun m => (m =? mid)%Z) ids = Some r ->
  existsb (Z.eqb mid) ids = true.
Proof.
  intro Er. destruct (find_index_some _ _ Er) as (x & Hx & Px & _).
  apply existsb_exists. exists x. split.
  - eapply nth_error_In. exact Hx.
  - apply Z.eqb_eq in Px. subst. apply Z.eqb_refl.
Qed.

(** *** What the slice makes of a lawful answer of [kneighbors] *)

Lemma nearest_lengths (metric : list float -> list float -> float)
      (X : matrix) (q : list float) (k : nat) (ds : list float)
      (ixs : list nat) :
  nearest metric X q k ds ixs -> List.length ixs = k /\ List.length ds = k.
Proof.
  intros (Hlen & _ & _ & Hds & _). split; [exact Hlen|].
  now rewrite Hds, length_map.
Qed.

Lemma rec_movie_indices_of_answer (metric : list float -> list float -> float)
      (X : matrix) (q : list float) (k : nat) (ds : list float)
      (ixs : list nat) :
  nearest metric X q k ds ixs -> 2 <= k ->
  rec_movie_indices ixs ds = inr (rev (tl (combine ixs ds))).
Proof.
  intros Hnear Hk. destruct (nearest_lengths Hnear) as [Hi Hd].
  destruct Hnear as (_ & _ & _ & _ & Hasc & _).
  unfold rec_movie_indices, zip_squeezed.
  rewrite !squeeze_tolist_long by lia.
  rewrite sorted_ascending_id by (apply combine_ascending; [exact Hasc|lia]).
  reflexivity.
Qed.

Lemma rec_movie_indices_of_one (metric : list float -> list float -> float)
      (X : matrix) (q : list float) (ds : list float) (ixs : list nat) :
  nearest metric X q 1 ds ixs -> rec_movie_indices ixs ds = inl TypeError.
Proof.
  intros (Hlen & _). destruct ixs as [|i [|j l]]; simpl in Hlen;
    try discriminate. reflexivity.
Qed.

(** [kneighbors] answers only when asked for at least one neighbour and no
    more than there are rows. *)
Lemma kneighbors_in_range (metric algorithm : string) (X : matrix)
      (q : list float) (k : nat) (ds : list float) (ixs : list nat) :
  kneighbors lib metric algorithm X q k = inr (ds, ixs) ->
  1 <= k <= List.length X.
Proof.
  intro E. destruct (Nat.eq_dec k 0) as [->|N].
  - rewrite kneighbors_out_of_range in E by now left. discriminate.
  - destruct (le_lt_dec k (List.length X)) as [H|H]; [lia|].
    rewrite kneighbors_out_of_range in E by now right. discriminate.
Qed.

Lemma kneighbors_answer (metric algorithm : string) (X : matrix)
      (q : list float) (k : nat) (ds : list float) (ixs : list nat) :
  kneighbors lib metric algorithm X q k = inr (ds, ixs) ->
  same_width X q = true ->
  nearest (distance lib metric) X q k ds ixs.
Proof.
  intros E Hw. pose proof (kneighbors_in_range _ _ _ _ _ E) as Hk.
  destruct (kneighbors_nearest lib metric algorithm X q (k := k) Hw Hk)
    as (ds' & ixs' & E' & Hnear).
  rewrite E in E'. now injection E' as <- <-.
Qed.

Lemma slice_of_answer_length (ds : list float) (ixs : list nat) (n : nat) :
  List.length ixs = n + 1 -> List.length ds = n + 1 ->
  List.length (rev (tl (combine ixs ds))) = n.
Proof.
  intros Hi Hd. rewrite length_rev.
  destruct ixs as [|i ixs], ds as [|d ds]; simpl in *; try lia.
  rewrite length_combine. lia.
Qed.

Lemma slice_of_answer_In (ds : list float) (ixs : list nat)
      (val : nat * float) :
  In val (rev (tl (combine ixs ds))) -> In (fst val) ixs.
Proof.
  intro H. apply in_rev in H. destruct val as [i d].
  assert (In (i, d) (combine ixs ds)) as Hc.
  { destruct (combine ixs ds); [contradiction|now right]. }
  simpl. eapply in_combine_l. exact Hc.
Qed.

Lemma recommend_frame_length (movies : list movie_row)
      (final_dataset : dataset) (recs : list (nat * float))
      (rows : list (string * float)) :
  recommend_frame movies final_dataset recs = inr rows ->
  List.length rows = List.length recs.
Proof.
  intro H. apply recommend_frame_distances in H.
  apply (f_equal (@List.length _)) in H. now rewrite !length_map in H.
Qed.

(** A returned frame has as many rows as were asked for, whatever the
    fitted matrix: with fewer rows than n+1, or with n = 0, nothing is
    returned. *)
Lemma frame_of_fitted_model
      (movie_name : string) (movies : list movie_row) (final_dataset : dataset)
      (knn : NearestNeighbors) (csr_data X : matrix) (n : nat) (s : state)
      (df : frame) :
  fst (get_movie_recommendation lib movie_name movies final_dataset knn
                                csr_data n s) = inr (Some df) ->
  nn_fit_X knn = Some X ->
  Forall (fun row => same_width X row = true) csr_data ->
  df_index df = seq 1 n /\ List.length (df_rows df) = n /\
  1 <= n /\ n + 1 <= List.length X.
Proof.
  intros H Efit Hw. apply recommendation_returned in H.
  destruct H as (t & more & mid & r & q & ds & ixs & recs & rows
                 & _ & _ & _ & Eq & Ek & Erecs & Erows & Edf).
  rewrite Efit in Ek.
  assert (same_width X q = true) as Hq.
  { rewrite Forall_forall in Hw. apply Hw. eapply nth_error_In. exact Eq. }
  pose proof (kneighbors_in_range _ _ _ _ _ Ek) as Hk.
  pose proof (kneighbors_answer _ _ _ _ _ Ek Hq) as Hnear.
  destruct (nearest_lengths Hnear) as [Hi Hd].
  assert (1 <= n) as Hn.
  { destruct n as [|n]; [|lia]. exfalso.
    rewrite (rec_movie_indices_of_one Hnear) in Erecs. discriminate. }
  rewrite (rec_movie_indices_of_answer Hnear) in Erecs by lia.
  injection Erecs as <-.
  apply DataFrame_of_rows_value in Edf. destruct Edf as (-> & -> & _).
  repeat split; try lia.
  rewrite (recommend_frame_length _ _ _ Erows).
  now apply slice_of_answer_length.
Qed.

(** *** An error of the slice *)

Lemma recommendation_slice_raises
      (movie_name : string) (movies : list movie_row) (final_dataset : dataset)
      (knn : NearestNeighbors) (csr_data : matrix) (n : nat) (s : state)
      (t : string) (more : list string) (mid : Z) (r : nat) (q ds : list float)
      (ixs : list nat) (e : exn) :
  get_close_matches lib movie_name (map m_title movies) 1 = t :: more ->
  movieId_of_title movies t = inr mid ->
  find_index (fun m => (m =? mid)%Z) (ds_movieId final_dataset) = Some r ->
  nth_error csr_data r = Some q ->
  match nn_fit_X knn with
  | Some X => kneighbors lib (nn_metric knn) (nn_algorithm knn) X q (n + 1)
  | None => inl (OtherError "NotFittedError")
  end = inr (ds, ixs) ->
  rec_movie_indices ixs ds = inl e ->
  get_movie_recommendation lib movie_name movies final_dataset knn csr_data n s
  = (inl e, logged s [asked movie_name movies;
                      Call (kneighbors_call q (n + 1)); Raised e]).
Proof.
  intros Egcm Emid Er Eq Ek Erecs.
  unfold get_movie_recommendation, NearestNeighbors_kneighbors.
  rewrite bind_call_lib, Egcm, bind_lift, Emid.
  rewrite (existsb_find_index _ _ Er). cbn [negb].
  rewrite bind_lift, Er. cbn [of_option].
  rewrite bind_lift, Eq. cbn [of_option].
  rewrite bind_call_lib, Ek, logged_logged. cbn [app].
  rewrite bind_lift. cbn [fst snd]. rewrite Erecs.
  now rewrite logged_logged.
Qed.

(** *** A frame and a model that fit together *)

(** The model is fitted on [csr_data], which has a row for every movieId of
    the frame, all of one width; every movieId is listed in movies.csv; and
    there are rows enough for [n] recommendations. *)
Definition well_formed (movies : list movie_row) (final_dataset : dataset)
           (knn : NearestNeighbors) (csr_data : matrix) (n : nat) : Prop :=
  nn_fit_X knn = Some csr_data /\
  List.length csr_data = List.length (ds_movieId final_dataset) /\
  rectangular csr_data = true /\
  all_listed movies final_dataset (List.length csr_data) = true /\
  1 <= n /\ n + 1 <= List.length csr_data.

(** The query of a movie of the frame goes all the way. *)
Lemma query_computed
      (movie_name : string) (movies : list movie_row) (final_dataset : dataset)
      (knn : NearestNeighbors) (csr_data : matrix) (n : nat) (s : state)
      (t : string) (more : list string) (mid : Z) (r : nat) :
  well_formed movies final_dataset knn csr_data n ->
  get_close_matches lib movie_name (map m_title movies) 1 = t :: more ->
  movieId_of_title movies t = inr mid ->
  find_index (fun m => (m =? mid)%Z) (ds_movieId final_dataset) = Some r ->
  exists q ds ixs rows s',
    nth_error csr_data r = Some q /\
    kneighbors lib (nn_metric knn) (nn_algorithm knn) csr_data q (n + 1)
    = inr (ds, ixs) /\
    nearest (distance lib (nn_metric knn)) csr_data q (n + 1) ds ixs /\
    recommend_frame movies final_dataset (rev (tl (combine ixs ds)))
    = inr rows /\
    List.length rows = n /\
    get_movie_recommendation lib movie_name movies final_dataset knn csr_data
                             n s
    = (inr (Some {| df_index := seq 1 n; df_rows := rows |}), s').
Proof.
  intros (Efit & Hlen & Hrect & Hlisted & Hn & Hrows) Egcm Emid Er.
  assert (r < List.length csr_data) as Hr
      by (rewrite Hlen; eapply find_index_lt; exact Er).
  assert (exists q, nth_error csr_data r = Some q) as (q & Eq).
  { destruct (nth_error csr_data r) as [q|] eqn:Eq; [now exists q|].
    apply nth_error_None in Eq. lia. }
  pose proof (rectangular_row _ _ Hrect Eq) as Hw.
  destruct (kneighbors_nearest lib (nn_metric knn) (nn_algorithm knn)
                               csr_data q (k := n + 1) Hw)
    as (ds & ixs & Ek & Hnear); [lia|].
  destruct (nearest_lengths Hnear) as [Hi Hd].
  pose proof (rec_movie_indices_of_answer Hnear ltac:(lia)) as Erecs.
  set (recs := rev (tl (combine ixs ds))) in *.
  assert (exists rows, recommend_frame movies final_dataset recs = inr rows)
    as (rows & Erows).
  { eapply recommend_frame_listed; [exact Hlisted|].
    intros val Hin. destruct Hnear as (_ & _ & Hlt & _).
    apply Hlt. eapply slice_of_answer_In. exact Hin. }
  assert (List.length rows = n) as Hrowsn.
  { rewrite (recommend_frame_length _ _ _ Erows).
    now apply slice_of_answer_length. }
  assert (DataFrame_of_rows rows (seq 1 n)
          = inr {| df_index := seq 1 n; df_rows := rows |}) as Edf.
  { unfold DataFrame_of_rows. rewrite length_seq, Hrowsn, Nat.eqb_refl.
    reflexivity. }
  assert (match nn_fit_X knn with
          | Some X => kneighbors lib (nn_metric knn) (nn_algorithm knn) X q (n + 1)
          | None => inl (OtherError "NotFittedError")
          end = inr (ds, ixs)) as Ek' by (now rewrite Efit).
  pose proof (recommendation_computed lib movie_name movies final_dataset knn
                csr_data n s Egcm Emid Er Eq Ek' Erecs Erows Edf) as Hrun.
  destruct (report_variance_returns lib (map snd recs)
              (logged s [asked movie_name movies;
                         Call (kneighbors_call q (n + 1))])) as (s' & Ev).
  rewrite Ev in Hrun. subst recs.
  exists q, ds, ixs, rows, s'.
  split; [exact Eq|]. split; [exact Ek|]. split; [exact Hnear|].
  split; [exact Erows|]. split; [exact Hrowsn|exact Hrun].
Qed.

(** No query raises: it returns None or a frame. *)
Lemma query_returns
      (movie_name : string) (movies : list movie_row) (final_dataset : dataset)
      (knn : NearestNeighbors) (csr_data : matrix) (n : nat) (s : state) :
  well_formed movies final_dataset knn csr_data n ->
  exists res s',
    get_movie_recommendation lib movie_name movies final_dataset knn csr_data
                             n s = (inr res, s').
Proof.
  intro Hwf.
  destruct (get_close_matches lib movie_name (map m_title movies) 1)
    as [|t more] eqn:Egcm.
  { eexists. eexists. now apply recommendation_no_match. }
  assert (In t (map m_title movies)) as Hin.
  { apply (get_close_matches_In lib movie_name _ 1). rewrite Egcm. now left. }
  destruct (movieId_of_title_listed _ _ Hin) as (mid & Emid).
  destruct (existsb (Z.eqb mid) (ds_movieId final_dataset)) eqn:Ex.
  - destruct (find_index_existsb _ _ Ex) as (r & Er).
    destruct (query_computed movie_name s Hwf Egcm Emid Er)
      as (q & ds & ixs & rows & s' & _ & _ & _ & _ & _ & Hrun).
    eexists. eexists. exact Hrun.
  - eexists. eexists. eapply recommendation_not_in_dataset; eassumption.
Qed.

(** When every movieId survives the conversion to float64, the title found
    for a row is the title of a movie with exactly the row's movieId. *)
Lemma title_at_exact (movies : list movie_row) (final_dataset : dataset)
      (i : nat) (title : string) :
  title_at movies final_dataset i = inr title ->
  forallb exact_float64 (ds_movieId final_dataset ++ map m_movieId movies)
  = true ->
  exists m, In m movies /\
            nth_error (ds_movieId final_dataset) i = Some (m_movieId m) /\
            m_title m = title.
Proof.
  unfold title_at, iloc_movieId. intros H Hexact.
  rewrite forallb_forall in Hexact.
  destruct (nth_error (ds_movieId final_dataset) i) as [id|] eqn:Ei;
    [|discriminate].
  assert (exact_float64 id = true) as Hid.
  { apply Hexact, in_or_app. left. eapply nth_error_In. exact Ei. }
  assert (forall y, y = Int64 id \/ y = Float64 (float64_of_int id) ->
            match find_index (fun m => int64_eqb (m_movieId m) y) movies with
            | None => inl IndexError
            | Some idx =>
                match nth_error movies idx with
                | None => inl IndexError
                | Some row => inr (m_title row)
                end
            end = inr title ->
            exists m, In m movies /\ Some id = Some (m_movieId m) /\
                      m_title m = title) as Hfound.
  { intros y Hy Hf.
    destruct (find_index (fun m => int64_eqb (m_movieId m) y) movies)
      as [idx|] eqn:Ef; [|discriminate].
    destruct (find_index_some _ _ Ef) as (m & Hm & Pm & _).
    rewrite Hm in Hf. injection Hf as <-.
    exists m. split; [eapply nth_error_In; exact Hm|]. split; [|reflexivity].
    f_equal. destruct Hy as [Hy|Hy]; subst y; simpl in Pm;
      apply Z.eqb_eq in Pm.
    - now symmetry.
    - assert (exact_float64 (m_movieId m) = true) as Hm'.
      { apply Hexact, in_or_app. right. apply in_map. eapply nth_error_In.
        exact Hm. }
      unfold exact_float64 in Hid, Hm'. apply Z.eqb_eq in Hid, Hm'.
      congruence. }
  destruct (ds_users final_dataset); eapply Hfound; try exact H; auto.
Qed.

(** With every rated movie listed in movies.csv, every row of the frame
    finds its title. *)
Lemma all_listed_of_ratings (movies : list movie_row)
      (ratings : list rating_row) (final_dataset : dataset) :
  preprocess ratings = inr final_dataset ->
  (forall r, In r ratings -> In (r_movieId r) (map m_movieId movies)) ->
  all_listed movies final_dataset (List.length (ds_movieId final_dataset))
  = true.
Proof.
  rewrite preprocess_spec. intros E Hall. injection E as <-.
  unfold all_listed, title_at, iloc_movieId. simpl.
  apply forallb_forall. intros i Hi. apply in_seq in Hi.
  destruct (nth_error (sorted_unique (map r_movieId ratings)) i) as [mid|] eqn:En;
    [|apply nth_error_None in En; lia].
  apply nth_error_In, movieIds_In in En. destruct En as (r & Hr & <-).
  apply Hall, in_map_iff in Hr. destruct Hr as (row & Erow & Hrow).
  assert (forall y, int64_eqb (r_movieId r) y = true ->
                    is_inr match find_index (fun m => int64_eqb (m_movieId m) y)
                                            movies with
                           | None => inl IndexError
                           | Some idx =>
                               match nth_error movies idx with
                               | None => inl IndexError
                               | Some row' => inr (m_title row')
                               end
                           end = true) as Hfound.
  { intros y Hy.
    destruct (find_index (fun m => int64_eqb (m_movieId m) y) movies)
      as [idx|] eqn:Ef.
    - destruct (find_index_some _ _ Ef) as (x & -> & _). reflexivity.
    - rewrite find_index_none in Ef. specialize (Ef row Hrow). simpl in Ef.
      rewrite Erow, Hy in Ef. discriminate. }
  destruct (kept_users ratings); apply Hfound; simpl; apply Z.eqb_refl.
Qed.

(** What [create_recommendation_model] returns. *)
Lemma create_recommendation_model_returned (final_dataset : dataset)
      (knn : NearestNeighbors) (csr_data : matrix) (s : state) :
  fst (create_recommendation_model lib final_dataset s) = inr (knn, csr_data) ->
  csr_data = ds_values final_dataset /\
  knn = {| nn_metric := "cosine"; nn_algorithm := "brute";
           nn_n_neighbors := 20; nn_n_jobs := (-1)%Z;
           nn_fit_X := Some (ds_values final_dataset) |} /\
  fit_checks lib "cosine" "brute" (ds_values final_dataset) = inr tt.
Proof.
  unfold create_recommendation_model, NearestNeighbors_fit, call_lib, bind,
    emit, lift. simpl.
  destruct (fit_checks lib "cosine" "brute" (ds_values final_dataset))
    as [e|[]];
    simpl; [discriminate|].
  intro H. injection H as <- <-. repeat split.
Qed.

Lemma Forall2_impl_In (A B : Type) (P Q : A -> B -> Prop) (l : list A)
      (l' : list B) :
  Forall2 P l l' -> (forall a b, In a l -> P a b -> Q a b) -> Forall2 Q l l'.
Proof.
  induction 1 as [|x y l l' Hxy _ IH]; intro H; constructor.
  - apply H; [now left|exact Hxy].
  - apply IH. intros a b Ha. apply H. now right.
Qed.

Lemma Forall2_In_l (A B : Type) (R : A -> B -> Prop) (l : list A)
      (l' : list B) (a : A) :
  Forall2 R l l' -> In a l -> exists b, In b l' /\ R a b.
Proof.
  induction 1 as [|x y l l' Hxy _ IH]; simpl; [contradiction|].
  intros [<-|Hin].
  - exists y. split; [now left|exact Hxy].
  - destruct (IH Hin) as (b & Hb & Hab). exists b. split; [now right|exact Hab].
Qed.
End Answers.

(** ** The session: [main] and its loop *)

Section Session.
Variable lib : Library.

(** The test [movie_name.lower() == 'quit']. *)
Definition is_quit (movie_name : string) : bool :=
  String.eqb (lower movie_name) "quit".

Lemma main_loop_nil (s : state) :
  main_loop lib [] s
  = (inl EOFError, logged s [Call (input_call prompt); Raised EOFError]).
Proof.
  unfold main_loop, bind, emit, raise, emit, logged. simpl.
  now rewrite <- app_assoc.
Qed.

Lemma main_loop_cons (movie_name : string) (rest : list string) (s : state) :
  main_loop lib (movie_name :: rest) s =
  if is_quit movie_name then (inr tt, logged s [Call (input_call prompt)])
  else bind (answer lib movie_name) (fun _ => main_loop lib rest)
            (logged s [Call (input_call prompt)]).
Proof.
  unfold is_quit. cbn [main_loop]. unfold bind at 1. simpl.
  destruct (String.eqb (lower movie_name) "quit"); reflexivity.
Qed.

(** The loop ends without an exception only at a line that reads "quit". *)
Lemma main_loop_returned (inputs : list string) (s : state) :
  fst (main_loop lib inputs s) = inr tt -> existsb is_quit inputs = true.
Proof.
  revert s. induction inputs as [|name rest IH]; intros s H.
  - rewrite main_loop_nil in H. discriminate.
  - rewrite main_loop_cons in H. simpl. destruct (is_quit name); [reflexivity|].
    apply bind_inr in H. destruct H as (a & s' & _ & H). simpl.
    now apply IH in H.
Qed.

(** The variables of [main] a query reads. *)
Definition bound (v : vars) (movies : list movie_row) (final_dataset : dataset)
           (knn : NearestNeighbors) (csr_data : matrix) : Prop :=
  v_movies v = Some movies /\ v_final_dataset v = Some final_dataset /\
  v_knn v = Some knn /\ v_csr_data v = Some csr_data.

Lemma answer_bound (movie_name : string) (s : state) (movies : list movie_row)
      (final_dataset : dataset) (knn : NearestNeighbors) (csr_data : matrix) :
  bound (st_vars s) movies final_dataset knn csr_data ->
  answer lib movie_name s =
  match get_movie_recommendation lib movie_name movies final_dataset knn
                                 csr_data 10 s with
  | (inl e, s') => (inl e, s')
  | (inr (Some df), s') =>
      (inr tt, logged s' [Print (nl ++ "Recommended Movies:")%string;
                          PrintFrame df; Print nl])
  | (inr None, s') => (inr tt, logged s' [Print nl])
  end.
Proof.
  intros (Hm & Hf & Hk & Hc). unfold answer.
  rewrite bind_read_var, Hm, bind_read_var, Hf, bind_read_var, Hk,
    bind_read_var, Hc.
  unfold bind at 1.
  destruct (get_movie_recommendation lib movie_name movies final_dataset knn
              csr_data 10 s) as [[e|[df|]] s']; [reflexivity| |reflexivity].
  unfold bind, print, emit, logged. simpl. now rewrite <- !app_assoc.
Qed.

Ltac frameless_steps :=
  repeat (cbv zeta; cbn beta;
          first [ apply emits_ret
                | apply emits_bind; [|intro]
                | apply emits_try_except
                | apply emits_emit; exact I
                | apply emits_raise; exact I
                | apply emits_lift; intro; exact I
                | apply emits_call_lib; [exact I|intro; exact I]
                | apply emits_read_var; intro; exact I
                | apply emits_quiet_state; intro; reflexivity
                | split_match ]).

Lemma no_frame_get_movie_recommendation
      (movie_name : string) (movies : list movie_row) (final_dataset : dataset)
      (knn : NearestNeighbors) (csr_data : matrix) (n : nat) :
  emits no_frame
        (get_movie_recommendation lib movie_name movies final_dataset knn
                                  csr_data n).
Proof.
  unfold get_movie_recommendation, NearestNeighbors_kneighbors, print.
  apply emits_bind; [apply emits_call_lib; [exact I|intro; exact I]|].
  intros [|t more]; [frameless_steps|].
  apply emits_bind; [apply emits_lift; intro; exact I|]. intro mid.
  destruct (negb (existsb (Z.eqb mid) (ds_movieId final_dataset)));
    [frameless_steps|].
  do 6 (apply emits_bind; [frameless_steps|]; intro).
  apply emits_bind; [|intro; apply emits_ret].
  apply emits_report_variance; [exact I|intro; exact I|intro; exact I].
Qed.

(** A frame of [n] rows under the index 1..n. *)
Definition full_frame (n : nat) (df : frame) : Prop :=
  df_index df = seq 1 n /\ List.length (df_rows df) = n.

(** Every frame the loop prints has ten rows. *)
Lemma main_loop_frames (inputs : list string) (s : state)
      (movies : list movie_row) (final_dataset : dataset)
      (knn : NearestNeighbors) (csr_data X : matrix) :
  bound (st_vars s) movies final_dataset knn csr_data ->
  nn_fit_X knn = Some X ->
  Forall (fun row => same_width X row = true) csr_data ->
  exists evs,
    st_out (snd (main_loop lib inputs s)) = st_out s ++ evs /\
    Forall (full_frame 10) (recommended evs) /\
    (List.length X < 11 -> recommended evs = []).
Proof.
  intros Hb Efit Hw. revert s Hb.
  induction inputs as [|name rest IH]; intros s Hb.
  - rewrite main_loop_nil. eexists. split; [reflexivity|].
    split; [constructor|reflexivity].
  - rewrite main_loop_cons. destruct (is_quit name).
    { eexists. split; [reflexivity|]. split; [constructor|reflexivity]. }
    set (s1 := logged s [Call (input_call prompt)]).
    assert (bound (st_vars s1) movies final_dataset knn csr_data) as Hb1
        by exact Hb.
    unfold bind. erewrite answer_bound by exact Hb1.
    destruct (no_frame_get_movie_recommendation name movies final_dataset knn
                csr_data 10 s1) as (evs & Eout & Hnf).
    pose proof (keeps_get_movie_recommendation lib name movies final_dataset
                  knn csr_data 10 is_frame_vars s1) as Hv.
    pose proof (@frame_of_fitted_model lib name movies final_dataset knn
                  csr_data X 10 s1) as Hshape.
    destruct (get_movie_recommendation lib name movies final_dataset knn
                csr_data 10 s1) as [[e|[df|]] s']; cbn [fst snd] in *.
    + exists ([Call (input_call prompt)] ++ evs). split.
      * rewrite Eout. unfold s1. simpl. now rewrite <- app_assoc.
      * rewrite recommended_app, (recommended_no_frame Hnf).
        split; [constructor|reflexivity].
    + destruct (IH (logged s' [Print (nl ++ "Recommended Movies:")%string;
                               PrintFrame df; Print nl]))
        as (evs' & Eout' & Hfr & _).
      { simpl. rewrite Hv. exact Hb1. }
      exists ([Call (input_call prompt)] ++ evs
              ++ [Print (nl ++ "Recommended Movies:")%string;
                  PrintFrame df; Print nl] ++ evs').
      destruct (Hshape df eq_refl Efit Hw) as (A & B & _ & Hrows).
      split; [|split].
      * rewrite Eout'. simpl. rewrite Eout. unfold s1. simpl.
        now rewrite <- !app_assoc.
      * rewrite !recommended_app, (recommended_no_frame Hnf).
        simpl. constructor; [now split|exact Hfr].
      * intro Hfew. lia.
    + destruct (IH (logged s' [Print nl])) as (evs' & Eout' & Hfr & Hfew).
      { simpl. rewrite Hv. exact Hb1. }
      exists ([Call (input_call prompt)] ++ evs ++ [Print nl] ++ evs').
      split; [|split].
      * rewrite Eout'. simpl. rewrite Eout. unfold s1. simpl.
        now rewrite <- !app_assoc.
      * rewrite !recommended_app, (recommended_no_frame Hnf).
        simpl. exact Hfr.
      * intro Hlt. rewrite !recommended_app, (recommended_no_frame Hnf).
        simpl. now apply Hfew.
Qed.

(** How far [main] gets: it stops at a missing file, or an exception ends
    the set-up, or the loop starts with the variables bound to the loaded
    tables and to a model fitted on the frame's matrix.  Nothing is
    recommended before the loop. *)
Lemma main_cases (inputs : list string) (s : state) :
  (exists s' evs,
      main lib inputs s = (inr tt, s') /\
      st_out s' = st_out s ++ evs /\ Forall no_frame evs /\
      (movies_csv (st_files s) = inl FileNotFoundError \/
       ratings_csv (st_files s) = inl FileNotFoundError)) \/
  (exists e s' evs,
      main lib inputs s = (inl e, s') /\
      st_out s' = st_out s ++ evs /\ Forall no_frame evs) \/
  (exists s2 evs movies ratings final_dataset knn,
      main lib inputs s = main_loop lib inputs s2 /\
      st_out s2 = st_out s ++ evs /\ Forall no_frame evs /\
      movies_csv (st_files s) = inr movies /\
      ratings_csv (st_files s) = inr ratings /\
      preprocess ratings = inr final_dataset /\
      fit_checks lib "cosine" "brute" (ds_values final_dataset) = inr tt /\
      bound (st_vars s2) movies final_dataset knn (ds_values final_dataset) /\
      nn_fit_X knn = Some (ds_values final_dataset)).
Proof.
  destruct (movies_csv (st_files s)) as [e|movies] eqn:Em.
  { destruct (exn_eqb e FileNotFoundError) eqn:Ee.
    - apply exn_eqb_eq in Ee. subst e. left.
      exists (stopped s movies_not_found), movies_not_found.
      split; [apply main_stops; now apply load_movies_not_found|].
      split; [reflexivity|]. split; [now repeat constructor|now left].
    - right. left. eexists. eexists. eexists.
      split; [apply main_load_raises, load_movies_unreadable; [exact Em|]|].
      + intros ->. discriminate.
      + split; [reflexivity|]. now repeat constructor. }
  destruct (ratings_csv (st_files s)) as [e|ratings] eqn:Er.
  { destruct (exn_eqb e FileNotFoundError) eqn:Ee.
    - apply exn_eqb_eq in Ee. subst e. left.
      exists (stopped s ratings_not_found), ratings_not_found.
      split; [apply main_stops; now apply load_ratings_not_found with movies|].
      split; [reflexivity|]. split; [now repeat constructor|now right].
    - right. left. eexists. eexists. eexists.
      split; [apply main_load_raises, load_ratings_unreadable with movies;
              [exact Em|exact Er|]|].
      + intros ->. discriminate.
      + split; [reflexivity|]. now repeat constructor. }
  destruct (load_files_present s Em Er) as (fd & Hp & Hl).
  right.
  set (knn := {| nn_metric := "cosine"; nn_algorithm := "brute";
                 nn_n_neighbors := 20; nn_n_jobs := (-1)%Z;
                 nn_fit_X := Some (ds_values fd) |}).
  set (s1 := {| st_files := st_files s; st_rng := st_rng s;
                st_vars := {| v_movies := Some movies;
                              v_ratings := Some ratings;
                              v_final_dataset := Some fd;
                              v_knn := Some knn;
                              v_csr_data := Some (ds_values fd) |};
                st_out := st_out s
                          ++ read_both ++ [Call (fit_call (ds_values fd))] |}).
  destruct (fit_checks lib "cosine" "brute" (ds_values fd)) as [e|[]] eqn:Ev.
  { left. exists e. eexists. eexists. split.
    - unfold main. unfold bind at 1. rewrite Hl.
      unfold assign_loaded. unfold bind at 1. unfold bind at 1. simpl.
      unfold bind at 1. simpl. rewrite bind_read_var. simpl.
      unfold create_recommendation_model, NearestNeighbors_fit. cbv zeta.
      unfold bind at 1. unfold bind at 1. rewrite bind_call_lib.
      cbn [nn_metric nn_algorithm]. rewrite Ev.
      reflexivity.
    - simpl. rewrite <- app_assoc. split; [reflexivity|].
      now repeat constructor. }
  assert (main lib inputs s
          = (_ <- train_models lib fd ;; session lib inputs) s1) as Hmain.
  { unfold main. unfold bind at 1. rewrite Hl.
    unfold assign_loaded. unfold bind at 1. unfold bind at 1. simpl.
    unfold bind at 1. simpl. rewrite bind_read_var. simpl.
    unfold create_recommendation_model, NearestNeighbors_fit. cbv zeta.
    unfold bind at 1. unfold bind at 1. rewrite bind_call_lib.
      cbn [nn_metric nn_algorithm]. rewrite Ev.
    unfold ret at 1. unfold ret at 1. unfold assign_model.
    unfold bind at 1. unfold bind at 1. simpl.
    rewrite bind_read_var. simpl. unfold s1.
    now rewrite <- app_assoc. }
  rewrite Hmain. unfold bind at 1. unfold bind at 1.
  pose proof (keeps_train_models lib fd is_frame_vars s1) as Hv.
  destruct (no_frame_train_models lib fd s1) as (evs & Eout & Hnf).
  destruct (train_models lib fd s1) as [[e|models] s2]; cbn [fst snd] in *.
  { left. exists e, s2. eexists. split; [reflexivity|].
    rewrite Eout. unfold s1. simpl. rewrite <- app_assoc.
    split; [reflexivity|].
    apply Forall_app. split; [now repeat constructor|exact Hnf]. }
  right.
  exists (logged s2 [Call (histplot_call (concat (ds_values fd)) 50 true);
                     Call (show_call "Distribution of Ratings in Processed Dataset"
                                     "Ratings" "Frequency")]).
  eexists. exists movies, ratings, fd, knn.
  split.
  { unfold session. rewrite bind_read_var, Hv. simpl.
    unfold visualize_datasets. unfold bind at 1.
    rewrite bind_call_lib. unfold call_lib, bind, emit, lift, ret, logged.
    simpl. now rewrite <- app_assoc. }
  split.
  { simpl. rewrite Eout. unfold s1. simpl. rewrite <- !app_assoc.
    reflexivity. }
  split.
  { repeat (apply Forall_app; split); try exact Hnf; now repeat constructor. }
  repeat split; try assumption; simpl; rewrite Hv; reflexivity.
Qed.

(** *** The script around the training step

    [main] and the script without the training line are one set-up followed
    by two continuations. *)
Definition main_with (rest : M unit) : M unit :=
  loaded <- load_and_preprocess_data ;;
  assign_loaded loaded ;;
  v <- get_vars ;;
  if is_None (v_movies v) || is_None (v_ratings v) || is_None (v_final_dataset v)
  then ret tt
  else
    final_dataset <- read_var v_final_dataset ;;
    model <- create_recommendation_model lib final_dataset ;;
    assign_model model ;;
    rest.

Lemma main_is_main_with (inputs : list string) :
  main lib inputs
  = main_with (final_dataset <- read_var v_final_dataset ;;
               _ <- train_models lib final_dataset ;;
               session lib inputs).
Proof. reflexivity. Qed.

Lemma main_without_is_main_with (inputs : list string) :
  main_without_train_models lib inputs = main_with (session lib inputs).
Proof. reflexivity. Qed.

(** The set-up either ends the script, having printed no frame (and it
    returns only when loading found a file missing), or hands over to the
    continuation with the loaded frame bound to [final_dataset] and with
    the generator as it found it. *)
Lemma main_with_cases (s : state) :
  (exists r s' evs,
      (forall rest, main_with rest s = (r, s')) /\
      st_out s' = st_out s ++ evs /\ Forall no_frame evs /\
      (r = inr tt ->
       fst (load_and_preprocess_data s) = inr (None, None, None))) \/
  (exists movies ratings final_dataset s1 evs,
      (forall rest, main_with rest s = rest s1) /\
      fst (load_and_preprocess_data s)
      = inr (Some movies, Some ratings, Some final_dataset) /\
      v_final_dataset (st_vars s1) = Some final_dataset /\
      st_rng s1 = st_rng s /\
      st_out s1 = st_out s ++ evs /\ Forall no_frame evs).
Proof.
  destruct (movies_csv (st_files s)) as [e|movies] eqn:Em.
  { left. destruct (exn_eqb e FileNotFoundError) eqn:Ee.
    - apply exn_eqb_eq in Ee. subst e.
      exists (inr tt), (stopped s movies_not_found), movies_not_found.
      split.
      + intro rest. unfold main_with. unfold bind at 1.
        rewrite (load_movies_not_found s Em). reflexivity.
      + split; [reflexivity|]. split; [now repeat constructor|].
        intros _. now rewrite (load_movies_not_found s Em).
    - assert (e <> FileNotFoundError) as N by (intros ->; discriminate).
      exists (inl e). eexists. eexists. split.
      + intro rest. unfold main_with. unfold bind at 1.
        rewrite (load_movies_unreadable s Em N). reflexivity.
      + split; [reflexivity|]. split; [now repeat constructor|discriminate]. }
  destruct (ratings_csv (st_files s)) as [e|ratings] eqn:Er.
  { left. destruct (exn_eqb e FileNotFoundError) eqn:Ee.
    - apply exn_eqb_eq in Ee. subst e.
      exists (inr tt), (stopped s ratings_not_found), ratings_not_found.
      split.
      + intro rest. unfold main_with. unfold bind at 1.
        rewrite (load_ratings_not_found s Em Er). reflexivity.
      + split; [reflexivity|]. split; [now repeat constructor|].
        intros _. now rewrite (load_ratings_not_found s Em Er).
    - assert (e <> FileNotFoundError) as N by (intros ->; discriminate).
      exists (inl e). eexists. eexists. split.
      + intro rest. unfold main_with. unfold bind at 1.
        rewrite (load_ratings_unreadable s Em Er N). reflexivity.
      + split; [reflexivity|]. split; [now repeat constructor|discriminate]. }
  destruct (load_files_present s Em Er) as (fd & Hp & Hl).
  set (knn := {| nn_metric := "cosine"; nn_algorithm := "brute";
                 nn_n_neighbors := 20; nn_n_jobs := (-1)%Z;
                 nn_fit_X := Some (ds_values fd) |}).
  set (s1 := {| st_files := st_files s; st_rng := st_rng s;
                st_vars := {| v_movies := Some movies;
                              v_ratings := Some ratings;
                              v_final_dataset := Some fd;
                              v_knn := Some knn;
                              v_csr_data := Some (ds_values fd) |};
                st_out := st_out s
                          ++ read_both ++ [Call (fit_call (ds_values fd))] |}).
  destruct (fit_checks lib "cosine" "brute" (ds_values fd)) as [e|[]] eqn:Ev.
  { left. exists (inl e). eexists. eexists. split.
    - intro rest. unfold main_with. unfold bind at 1. rewrite Hl.
      unfold assign_loaded. unfold bind at 1. unfold bind at 1. simpl.
      unfold bind at 1. simpl. rewrite bind_read_var. simpl.
      unfold create_recommendation_model, NearestNeighbors_fit. cbv zeta.
      unfold bind at 1. unfold bind at 1. rewrite bind_call_lib.
      cbn [nn_metric nn_algorithm]. rewrite Ev.
      reflexivity.
    - simpl. rewrite <- app_assoc. split; [reflexivity|].
      split; [now repeat constructor|discriminate]. }
  right.
  exists movies, ratings, fd, s1,
    (read_both ++ [Call (fit_call (ds_values fd))]).
  split.
  { intro rest. unfold main_with. unfold bind at 1. rewrite Hl.
    unfold assign_loaded. unfold bind at 1. unfold bind at 1. simpl.
    unfold bind at 1. simpl. rewrite bind_read_var. simpl.
    unfold create_recommendation_model, NearestNeighbors_fit. cbv zeta.
    unfold bind at 1. unfold bind at 1. rewrite bind_call_lib.
    cbn [nn_metric nn_algorithm]. rewrite Ev.
    unfold ret at 1. unfold ret at 1. unfold assign_model.
    unfold bind at 1. unfold bind at 1. simpl.
    unfold s1. now rewrite <- app_assoc. }
  split; [now rewrite Hl|]. split; [reflexivity|]. split; [reflexivity|].
  split; [reflexivity|now repeat constructor].
Qed.

(** The training step of [main] returns: [train_models], on the frame that
    loading returns and with the generator as the script finds it (the
    set-up before the training step draws nothing), does not raise; or
    there is no frame to train on. *)
Definition training_returns (s : state) : bool :=
  match fst (load_and_preprocess_data s) with
  | inr (_, _, Some final_dataset) =>
      is_inr (fst (train_models lib final_dataset s))
  | _ => true
  end.

(** *** What the library is asked

    The two calls whose argument says how much is wanted: one title of
    difflib, and of the model the ten recommendations and the queried movie
    itself. *)
Definition asks_as_written (ev : event) : Prop :=
  match ev with
  | Call (get_close_matches_call _ _ n) => n = 1
  | Call (kneighbors_call _ n_neighbors) => n_neighbors = 11
  | _ => True
  end.

Ltac written_steps :=
  repeat (cbv zeta; cbn beta;
          first [ apply emits_ret
                | apply emits_bind; [|intro]
                | apply emits_try_except
                | apply emits_emit; first [exact I|reflexivity]
                | apply emits_raise; exact I
                | apply emits_lift; intro; exact I
                | apply emits_call_lib; [first [exact I|reflexivity]
                                        |intro; exact I]
                | apply emits_read_var; intro; exact I
                | apply emits_quiet_state; intro; reflexivity
                | split_match ]).

Lemma asks_as_written_load : emits asks_as_written load_and_preprocess_data.
Proof.
  unfold load_and_preprocess_data, print. apply emits_try_except.
  - apply emits_bind.
    + intro s. unfold read_movies. apply emits_call_lib; [exact I|intro; exact I].
    + intro movies. apply emits_bind.
      * intro s. unfold read_ratings.
        apply emits_call_lib; [exact I|intro; exact I].
      * intro ratings. written_steps.
  - written_steps.
Qed.

Lemma asks_as_written_train_models (final_dataset : dataset) :
  emits asks_as_written (train_models lib final_dataset).
Proof.
  unfold train_models, print. cbv zeta. apply emits_bind.
  - intro s.
    exists [Call (randint_call 0 2 (List.length (ds_values final_dataset)))].
    split; [reflexivity|]. now repeat constructor.
  - intro y. written_steps.
Qed.

Lemma asks_as_written_get_movie_recommendation
      (movie_name : string) (movies : list movie_row) (final_dataset : dataset)
      (knn : NearestNeighbors) (csr_data : matrix) :
  emits asks_as_written
        (get_movie_recommendation lib movie_name movies final_dataset knn
                                  csr_data 10).
Proof.
  unfold get_movie_recommendation, NearestNeighbors_kneighbors, print.
  apply emits_bind; [apply emits_call_lib; [reflexivity|intro; exact I]|].
  intros [|t more]; [written_steps|].
  apply emits_bind; [apply emits_lift; intro; exact I|]. intro mid.
  destruct (negb (existsb (Z.eqb mid) (ds_movieId final_dataset)));
    [written_steps|].
  do 6 (apply emits_bind; [written_steps|]; intro).
  apply emits_bind; [|intro; apply emits_ret].
  apply emits_report_variance; [exact I|intro; exact I|intro; exact I].
Qed.

Lemma asks_as_written_main_loop (inputs : list string) :
  emits asks_as_written (main_loop lib inputs).
Proof.
  induction inputs as [|name rest IH]; cbn [main_loop].
  - written_steps.
  - apply emits_bind; [apply emits_emit; exact I|]. intros _.
    destruct (String.eqb (lower name) "quit"); [apply emits_ret|].
    apply emits_bind; [|intros _; exact IH].
    unfold answer, print.
    do 4 (apply emits_bind; [apply emits_read_var; intro; exact I|]; intro).
    apply emits_bind; [apply asks_as_written_get_movie_recommendation|].
    intros [df|]; written_steps.
Qed.

Lemma asks_as_written_create_recommendation_model (final_dataset : dataset) :
  emits asks_as_written (create_recommendation_model lib final_dataset).
Proof.
  unfold create_recommendation_model, NearestNeighbors_fit. written_steps.
Qed.

Lemma asks_as_written_visualize_datasets (final_dataset : dataset) :
  emits asks_as_written (visualize_datasets final_dataset).
Proof. unfold visualize_datasets. written_steps. Qed.

(** *** The variance line of a returned frame *)

Lemma recommendation_returned_run
      (movie_name : string) (movies : list movie_row) (final_dataset : dataset)
      (knn : NearestNeighbors) (csr_data : matrix) (n : nat) (s s' : state)
      (df : frame) :
  get_movie_recommendation lib movie_name movies final_dataset knn csr_data n s
  = (inr (Some df), s') ->
  exists q,
    report_variance lib (map snd (df_rows df))
                    (logged s [asked movie_name movies;
                               Call (kneighbors_call q (n + 1))])
    = (inr tt, s').
Proof.
  intro Hrun.
  assert (fst (get_movie_recommendation lib movie_name movies final_dataset knn
                 csr_data n s) = inr (Some df)) as H by now rewrite Hrun.
  apply recommendation_returned in H.
  destruct H as (t & more & mid & r & q & ds & ixs & recs & rows
                 & Egcm & Emid & Er & Eq & Ek & Erecs & Erows & Edf).
  rewrite (recommendation_computed lib movie_name movies final_dataset knn
             csr_data n s Egcm Emid Er Eq Ek Erecs Erows Edf) in Hrun.
  apply DataFrame_of_rows_value in Edf. destruct Edf as (_ & -> & _).
  rewrite (recommend_frame_distances _ _ _ Erows).
  exists q.
  destruct (report_variance lib (map snd recs)
              (logged s [asked movie_name movies;
                         Call (kneighbors_call q (n + 1))]))
    as [[e|[]] s1]; [discriminate|].
  now injection Hrun as <-.
Qed.
End Session.

(** ** The labels and the cells of the preprocessed frame *)

Section Frames.

Lemma StronglySorted_filter (p : Z -> bool) (l : list Z) :
  StronglySorted Z.lt l -> StronglySorted Z.lt (filter p l).
Proof.
  induction 1 as [|a l S IH Fa]; simpl; [constructor|].
  destruct (p a); [|exact IH]. constructor; [exact IH|].
  apply Forall_forall. intros x Hx. apply filter_In in Hx.
  rewrite Forall_forall in Fa. apply Fa. tauto.
Qed.

(** A strictly ascending list is determined by its elements. *)
Lemma sorted_lt_ext (l l' : list Z) :
  StronglySorted Z.lt l -> StronglySorted Z.lt l' ->
  (forall x, In x l <-> In x l') -> l = l'.
Proof.
  intro S. revert l'. induction S as [|a l S IH Fa]; intros l' S' H.
  - destruct l' as [|b l']; [reflexivity|]. destruct (proj2 (H b)). now left.
  - destruct S' as [|b l' S' Fb].
    + destruct (proj1 (H a)). now left.
    + rewrite Forall_forall in Fa, Fb.
      assert (a = b) as ->.
      { destruct (proj1 (H a) (or_introl eq_refl)) as [E|Ha]; [now symmetry|].
        destruct (proj2 (H b) (or_introl eq_refl)) as [E|Hb]; [exact E|].
        specialize (Fa b Hb). specialize (Fb a Ha). lia. }
      f_equal. apply IH; [exact S'|].
      intro x. split; intro Hx.
      * destruct (proj1 (H x) (or_intror Hx)) as [E|Hx']; [|exact Hx'].
        specialize (Fa x Hx). lia.
      * destruct (proj2 (H x) (or_intror Hx)) as [E|Hx']; [|exact Hx'].
        specialize (Fb x Hx). lia.
Qed.

Lemma sorted_unique_perm (l l' : list Z) :
  Permutation l l' -> sorted_unique l = sorted_unique l'.
Proof.
  intro P. apply sorted_lt_ext; try apply sorted_unique_sorted.
  intro x. rewrite !sorted_unique_In. split; apply Permutation_in;
    [exact P|now apply Permutation_sym].
Qed.

Lemma filter_perm (A : Type) (p : A -> bool) (l l' : list A) :
  Permutation l l' -> Permutation (filter p l) (filter p l').
Proof.
  induction 1 as [|x l l' _ IH|x y l|l l' l'' _ IH1 _ IH2]; simpl.
  - constructor.
  - destruct (p x); [now constructor|exact IH].
  - destruct (p x), (p y); try apply perm_swap; apply Permutation_refl.
  - eapply perm_trans; eassumption.
Qed.

Lemma count_ratings_perm (ratings ratings' : list rating_row) (u : Z) :
  Permutation ratings ratings' ->
  count_ratings ratings u = count_ratings ratings' u.
Proof. intro P. unfold count_ratings. now apply Permutation_length, filter_perm. Qed.

Lemma kept_users_perm (ratings ratings' : list rating_row) :
  Permutation ratings ratings' -> kept_users ratings = kept_users ratings'.
Proof.
  intro P. unfold kept_users.
  rewrite (sorted_unique_perm (Permutation_map r_userId P)).
  apply filter_ext. intro u. now rewrite (count_ratings_perm u P).
Qed.

Lemma ratings_of_perm (ratings ratings' : list rating_row) (m u : Z) :
  Permutation ratings ratings' ->
  Permutation (ratings_of ratings m u) (ratings_of ratings' m u).
Proof. intro P. unfold ratings_of. now apply Permutation_map, filter_perm. Qed.

Lemma short_perm (A : Type) (l l' : list A) :
  Permutation l l' -> List.length l <= 1 -> l = l'.
Proof.
  intros P H. destruct l as [|x [|y l]]; simpl in H; try lia.
  - apply Permutation_nil in P. now symmetry.
  - apply Permutation_length_1_inv in P. now symmetry.
Qed.

(** With no (movie, user) pair rated twice, the frame is the same for every
    order of the lines of ratings.csv. *)
Lemma preprocess_perm (ratings ratings' : list rating_row) :
  Permutation ratings ratings' ->
  (forall m u, List.length (ratings_of ratings m u) <= 1) ->
  preprocess ratings' = preprocess ratings.
Proof.
  intros P H. rewrite !preprocess_spec.
  rewrite <- (kept_users_perm P).
  rewrite <- (sorted_unique_perm (Permutation_map r_movieId P)).
  do 2 f_equal. apply map_ext. intro m. apply map_ext. intro u.
  rewrite !entry_cases.
  now rewrite <- (short_perm (ratings_of_perm m u P) (H m u)).
Qed.

Lemma length_concat_table (A B C : Type) (g : A -> B -> C) (rows : list A)
      (cols : list B) :
  List.length (concat (map (fun m => map (g m) cols) rows))
  = List.length rows * List.length cols.
Proof.
  induction rows as [|m rows IH]; simpl; [reflexivity|].
  now rewrite length_app, length_map, IH.
Qed.
End Frames.
End Notebook.

(** ** An executable instance in exact rational arithmetic

    The interfaces above are instantiated so that the script can be run on
    concrete files: floats are canonical rationals, the neighbour search is
    the brute-force one, and the fuzzy match follows difflib. *)

Module Reference.

(** *** Floats as rationals *)

Definition qc (n : Z) (d : positive) : Qc := Q2Qc (n # d).

Definition qc_leb (x y : Qc) : bool := Qle_bool (this x) (this y).

Definition qc_sum (l : list Qc) : Qc := fold_right Qcplus (qc 0 1) l.

Definition qc_mean (l : list Qc) : Qc :=
  Qcdiv (qc_sum l) (qc (Z.of_nat (List.length l)) 1).

(** Nearest multiple of 1/10000, ties to the even one. *)
Definition round_4 (x : Qc) : Z :=
  let n := (Qnum (this x) * 10000)%Z in
  let d := Zpos (Qden (this x)) in
  let f := (n / d)%Z in
  let r := (n mod d)%Z in
  match (2 * r ?= d)%Z with
  | Lt => f
  | Gt => (f + 1)%Z
  | Eq => if Z.even f then f else (f + 1)%Z
  end.

Definition decimal (n : Z) : string := NilZero.string_of_uint (N.to_uint (Z.to_N n)).

Fixpoint zeros (n : nat) : string :=
  match n with
  | 0 => EmptyString
  | S k => String "0"%char (zeros k)
  end.

Definition qc_format_4f (x : Qc) : string :=
  let z := round_4 x in
  let a := Z.abs z in
  let frac := decimal (a mod 10000) in
  ((if Qle_bool 0 (this x) then "" else "-")
   ++ decimal (a / 10000) ++ "."
   ++ zeros (4 - String.length frac) ++ frac)%string.

Lemma qc_leb_total (x y : Qc) : qc_leb x y = true \/ qc_leb y x = true.
Proof.
  unfold qc_leb. rewrite !Qle_bool_iff.
  destruct (Qlt_le_dec (this x) (this y)) as [L|L]; [left|right];
    [apply Qlt_le_weak|]; exact L.
Qed.

Lemma qc_leb_trans (x y z : Qc) :
  qc_leb x y = true -> qc_leb y z = true -> qc_leb x z = true.
Proof. unfold qc_leb. rewrite !Qle_bool_iff. apply Qle_trans. Qed.

Lemma qc_mean_single (x : Qc) : qc_mean [x] = x.
Proof.
  unfold qc_mean, qc_sum. simpl.
  replace (qc 1 1) with (Q2Qc 1) by (apply Qc_is_canon; reflexivity).
  replace (qc 0 1) with (Q2Qc 0) by (apply Qc_is_canon; reflexivity).
  unfold Qcdiv. rewrite Qcplus_0_r.
  replace (/ Q2Qc 1)%Qc with (Q2Qc 1) by (apply Qc_is_canon; reflexivity).
  apply Qcmult_1_r.
Qed.

#[global] Instance QcFloat : FloatOps Qc := {|
  f_zero := qc 0 1;
  f_leb := qc_leb;
  f_mean := qc_mean;
  format_4f := qc_format_4f;
  f_leb_total := qc_leb_total;
  f_leb_trans := qc_leb_trans;
  f_mean_single := qc_mean_single
|}.

(** *** difflib.get_close_matches

    [SequenceMatcher.ratio] is 2*M/T, with T the two lengths together and M
    the characters in the matching blocks: the longest common block (the
    earliest one in the first string, then in the second), and recursively
    the blocks to its left and to its right.  No character is junk (the
    automatic junk heuristic starts at 200 characters). *)

Fixpoint common_prefix (a b : list ascii) : nat :=
  match a, b with
  | x :: a', y :: b' => if Ascii.eqb x y then S (common_prefix a' b') else 0
  | _, _ => 0
  end.

(** Matches of the suffix of [a] at position [i] against every suffix of [b];
    [best] is (start in a, start in b, size). *)
Fixpoint longest_at (a_suffix b_suffix : list ascii) (i j : nat)
         (best : nat * nat * nat) : nat * nat * nat :=
  match b_suffix with
  | [] => best
  | _ :: b' =>
      let k := common_prefix a_suffix b_suffix in
      longest_at a_suffix b' i (S j)
                 (if snd best <? k then (i, j, k) else best)
  end.

Fixpoint longest_from (a_suffix b : list ascii) (i : nat)
         (best : nat * nat * nat) : nat * nat * nat :=
  match a_suffix with
  | [] => best
  | _ :: a' => longest_from a' b (S i) (longest_at a_suffix b i 0 best)
  end.

Definition find_longest_match (a b : list ascii) : nat * nat * nat :=
  longest_from a b 0 (0, 0, 0).

Fixpoint matching_characters (fuel : nat) (a b : list ascii) : nat :=
  match fuel with
  | 0 => 0
  | S fuel' =>
      let m := find_longest_match a b in
      let i := fst (fst m) in
      let j := snd (fst m) in
      let k := snd m in
      if k =? 0 then 0
      else matching_characters fuel' (firstn i a) (firstn j b) + k
           + matching_characters fuel' (skipn (i + k) a) (skipn (j + k) b)
  end.

(** The ratio as the fraction (2*M, T); two empty strings have ratio 1. *)
Definition ratio (a b : string) : nat * nat :=
  let la := list_ascii_of_string a in
  let lb := list_ascii_of_string b in
  let t := List.length la + List.length lb in
  if t =? 0 then (1, 1)
  else (2 * matching_characters (S (List.length la)) la lb, t).

(** [ratio >= 0.6] *)
Definition above_cutoff (r : nat * nat) : bool := 6 * snd r <=? 10 * fst r.

(** The order of the (score, title) tuples. *)
Definition scored_ltb (x y : (nat * nat) * string) : bool :=
  let c1 := fst (fst x) * snd (fst y) in
  let c2 := fst (fst y) * snd (fst x) in
  (c1 <? c2) || ((c1 =? c2) && String.ltb (snd x) (snd y)).

(** Largest first; equal tuples keep their order. *)
Fixpoint insert_largest (x : (nat * nat) * string)
         (l : list ((nat * nat) * string)) : list ((nat * nat) * string) :=
  match l with
  | [] => [x]
  | y :: r => if scored_ltb y x then x :: y :: r else y :: insert_largest x r
  end.

Definition nlargest (n : nat) (l : list ((nat * nat) * string))
  : list ((nat * nat) * string) :=
  firstn n (fold_right insert_largest [] l).

Definition ref_get_close_matches (word : string) (possibilities : list string)
           (n : nat) : list string :=
  let result :=
    filter (fun sx => above_cutoff (fst sx))
           (map (fun x => (ratio x word, x)) possibilities) in
  map snd (nlargest n result).

Lemma insert_largest_In (x y : (nat * nat) * string)
      (l : list ((nat * nat) * string)) :
  In y (insert_largest x l) -> y = x \/ In y l.
Proof.
  induction l as [|a l IH]; simpl.
  - intros [<-|[]]. now left.
  - destruct (scored_ltb a x); simpl.
    + intros [<-|[<-|H]]; auto.
    + intros [<-|H]; auto. destruct (IH H); auto.
Qed.

Lemma ref_get_close_matches_length (w : string) (ps : list string) (n : nat) :
  List.length (ref_get_close_matches w ps n) <= n.
Proof.
  unfold ref_get_close_matches, nlargest.
  rewrite length_map. apply firstn_le_length.
Qed.

Lemma ref_get_close_matches_In (w : string) (ps : list string) (n : nat)
      (t : string) :
  In t (ref_get_close_matches w ps n) -> In t ps.
Proof.
  unfold ref_get_close_matches, nlargest. intro H.
  apply in_map_iff in H. destruct H as (sx & <- & H).
  apply In_firstn in H.
  assert (forall l y, In y (fold_right insert_largest [] l) -> In y l) as Hsort.
  { induction l as [|a l IH]; simpl; [tauto|]. intros y Hy.
    apply insert_largest_In in Hy. destruct Hy as [->|Hy]; auto. }
  apply Hsort in H. apply filter_In in H. destruct H as [H _].
  apply in_map_iff in H. destruct H as (x & <- & Hx). exact Hx.
Qed.

(** *** The metric

    The cosine needs a square root, which exact rationals do not have.  The
    instance measures 1 - cos^2 instead: on rating vectors (no negative
    entry) it orders the rows exactly as 1 - cos does, it is 0 for parallel
    rows and 1 for orthogonal ones, and, as in the library, a zero vector is
    at distance 1 from everything. *)

Definition dot (u v : list Qc) : Qc :=
  qc_sum (map (fun p => Qcmult (fst p) (snd p)) (combine u v)).

Definition cos2_distance (u v : list Qc) : Qc :=
  let n := Qcmult (dot u u) (dot v v) in
  if Qc_eq_bool n (qc 0 1) then qc 1 1
  else Qcminus (qc 1 1) (Qcdiv (Qcmult (dot u v) (dot u v)) n).

(** The squared Euclidean distance, which orders the rows as the Euclidean
    distance does, stands for every other metric. *)
Definition euclid2_distance (u v : list Qc) : Qc :=
  qc_sum (map (fun p => Qcmult (Qcminus (fst p) (snd p))
                               (Qcminus (fst p) (snd p)))
              (combine u v)).

Definition ref_distance (metric : string) : list Qc -> list Qc -> Qc :=
  if String.eqb metric "cosine" then cos2_distance else euclid2_distance.

(** sklearn refuses a metric or an algorithm it does not know (the instance
    knows two of each), and an array with no row or no column. *)
Definition ref_fit_checks (metric algorithm : string) (X : list (list Qc))
  : result unit :=
  if negb (String.eqb metric "cosine" || String.eqb metric "euclidean")
     || negb (String.eqb algorithm "brute" || String.eqb algorithm "auto")
  then inl ValueError
  else
    match X with
    | [] => inl ValueError
    | [] :: _ => inl ValueError
    | _ => inr tt
    end.

Definition ref_kneighbors (metric algorithm : string)
  : list (list Qc) -> list Qc -> nat -> result (list Qc * list nat) :=
  @brute_kneighbors Qc QcFloat (ref_distance metric).

(** *** statistics.variance: the sample variance *)

Definition ref_variance (data : list Qc) : result Qc :=
  if List.length data <? 2 then inl StatisticsError
  else
    let m := qc_mean data in
    let ss := qc_sum (map (fun x => Qcmult (Qcminus x m) (Qcminus x m)) data) in
    inr (Qcdiv ss (qc (Z.of_nat (List.length data - 1)) 1)).

Lemma ref_variance_too_short (l : list Qc) :
  List.length l < 2 -> ref_variance l = inl StatisticsError.
Proof.
  intro H. unfold ref_variance.
  now replace (List.length l <? 2) with true by (symmetry; now apply Nat.ltb_lt).
Qed.

Lemma ref_variance_defined (l : list Qc) :
  2 <= List.length l -> exists v, ref_variance l = inr v.
Proof.
  intro H. unfold ref_variance.
  replace (List.length l <? 2) with false by (symmetry; now apply Nat.ltb_ge).
  eexists. reflexivity.
Qed.

(** *** The split, the classifiers and the scores

    The split takes the last ceil(test_size * n) rows as the test set (the
    library shuffles first, by a permutation fixed by [random_state]).  The
    two classifiers predict the majority label of their training set and
    raise where the library's do: SVC on a training set with one class, the
    k-neighbours classifier when asked to predict from fewer than k rows.
    SVC draws one word of the global generator for its seed. *)

Definition ceil_fraction (f : Q) (n : nat) : nat :=
  let num := (Qnum f * Z.of_nat n)%Z in
  let den := Zpos (Qden f) in
  Z.to_nat ((num + den - 1) / den).

Definition ref_train_test_split (X : list (list Qc)) (y : list bool)
           (test_size : Q) (random_state : Z) : result (@split Qc) :=
  let n := List.length X in
  let n_test := ceil_fraction test_size n in
  let n_train := n - n_test in
  if negb (List.length y =? n) || (n_train =? 0) then inl ValueError
  else inr {| X_train := firstn n_train X; X_test := skipn n_train X;
              y_train := firstn n_train y; y_test := skipn n_train y |}.

Record ref_classifier : Type := {
  c_majority : bool;
  c_fit_rows : nat;
  c_neighbors : nat
}.

Definition count_label (b : bool) (y : list bool) : nat :=
  List.length (filter (Bool.eqb b) y).

Definition majority (y : list bool) : bool :=
  count_label false y <? count_label true y.

(** The seed is the next word of the generator; a training set with one
    class is refused before it is drawn. *)
Definition ref_SVC_fit (X : list (list Qc)) (y : list bool) (rng : nat -> Z)
  : result ref_classifier * nat :=
  if (count_label true y =? 0) || (count_label false y =? 0)
  then (inl ValueError, 0)
  else (inr {| c_majority := majority y; c_fit_rows := List.length X;
               c_neighbors := 0 |}, 1).

Lemma ref_SVC_fit_draws (X : list (list Qc)) (y : list bool) (rng : nat -> Z)
      (c : ref_classifier) (drawn : nat) :
  ref_SVC_fit X y rng = (inr c, drawn) -> 1 <= drawn.
Proof.
  unfold ref_SVC_fit.
  destruct ((count_label true y =? 0) || (count_label false y =? 0));
    [discriminate|].
  intro H. injection H as _ <-. lia.
Qed.

Definition ref_KNeighborsClassifier_fit (k : nat) (X : list (list Qc))
           (y : list bool) : result ref_classifier :=
  if List.length X =? 0 then inl ValueError
  else inr {| c_majority := majority y; c_fit_rows := List.length X;
              c_neighbors := k |}.

Definition ref_predict (c : ref_classifier) (X : list (list Qc))
  : result (list bool) :=
  if c_fit_rows c <? c_neighbors c then inl ValueError
  else inr (map (fun _ => c_majority c) X).

Definition count_pairs (t p : bool) (y_true y_pred : list bool) : nat :=
  List.length (filter (fun tp => Bool.eqb (fst tp) t && Bool.eqb (snd tp) p)
                      (combine y_true y_pred)).

Definition score (hits others : nat) (zero_division : Z) : Qc :=
  if hits + others =? 0 then qc zero_division 1
  else qc (Z.of_nat hits) (Pos.of_nat (hits + others)).

(** tp / (tp + fp) *)
Definition ref_precision_score (y_true y_pred : list bool) (zero_division : Z)
  : result Qc :=
  inr (score (count_pairs true true y_true y_pred)
             (count_pairs false true y_true y_pred) zero_division).

(** tp / (tp + fn) *)
Definition ref_recall_score (y_true y_pred : list bool) (zero_division : Z)
  : result Qc :=
  inr (score (count_pairs true true y_true y_pred)
             (count_pairs true false y_true y_pred) zero_division).

Definition ref_lib : @Library Qc QcFloat := {|
  get_close_matches := ref_get_close_matches;
  get_close_matches_length := ref_get_close_matches_length;
  get_close_matches_In := ref_get_close_matches_In;
  distance := ref_distance;
  fit_checks := ref_fit_checks;
  kneighbors := ref_kneighbors;
  kneighbors_out_of_range :=
    fun metric algorithm =>
      @brute_kneighbors_out_of_range Qc QcFloat (ref_distance metric);
  kneighbors_nearest :=
    fun metric algorithm =>
      @brute_kneighbors_nearest Qc QcFloat (ref_distance metric);
  variance := ref_variance;
  variance_too_short := ref_variance_too_short;
  variance_defined := ref_variance_defined;
  classifier := ref_classifier;
  train_test_split := ref_train_test_split;
  SVC_fit := ref_SVC_fit;
  SVC_fit_draws := ref_SVC_fit_draws;
  KNeighborsClassifier_fit := ref_KNeighborsClassifier_fit;
  predict := ref_predict;
  precision_score := ref_precision_score;
  recall_score := ref_recall_score
|}.

End Reference.


(** ** Concrete files for running the script *)

Module Examples.
Import Reference.

Definition film (i : nat) : movie_row :=
  {| m_movieId := Z.of_nat i;
     m_title := ("Film " ++ decimal (Z.of_nat i))%string;
     m_genres := "Drama" |}.

Definition stars (u m : nat) : Qc :=
  qc (Z.of_nat ((m * u * u + m / u) mod 5 + 1)) 1.

Definition rate (u m : nat) : rating_row :=
  {| r_userId := Z.of_nat u; r_movieId := Z.of_nat m;
     r_rating := stars u m; r_timestamp := 0%Z |}.

(** Sixty films; users 1, 2 and 3 rate all of them, user 4 rates five. *)
Definition movies60 : list movie_row := map film (seq 1 60).

Definition ratings60 : list rating_row :=
  flat_map (fun u => map (rate u) (seq 1 60)) [1; 2; 3] ++ map (rate 4) (seq 1 5).

(** The words 1, 2, 3, ...: the labels drawn alternate. *)
Definition words (i : nat) : Z := Z.of_nat (S i).

Definition initial (fs : @files Qc) : @state Qc :=
  {| st_files := fs; st_rng := words; st_vars := no_vars; st_out := [] |}.

Definition world60 : state :=
  initial {| movies_csv := inr movies60; ratings_csv := inr ratings60 |}.

(** The sixty films with a generator whose every word is odd: the labels
    drawn are all 1. *)
Definition world_one_class : state :=
  {| st_files := st_files world60;
     st_rng := fun _ => 1%Z;
     st_vars := no_vars;
     st_out := [] |}.

(** One user, films 1 to 51 rated 3, and film 1 rated a second time, 4. *)
Definition three (m : nat) : rating_row :=
  {| r_userId := 1%Z; r_movieId := Z.of_nat m;
     r_rating := qc 3 1; r_timestamp := 0%Z |}.

Definition rated_twice : list rating_row :=
  map three (seq 1 51)
  ++ [{| r_userId := 1%Z; r_movieId := 1%Z; r_rating := qc 4 1;
         r_timestamp := 1%Z |}].

Definition world_rated_twice : state :=
  initial {| movies_csv := inr movies60; ratings_csv := inr rated_twice |}.

Definition empty_dataset : @dataset Qc :=
  {| ds_movieId := []; ds_users := []; ds_values := [] |}.

Definition preprocessed (ratings : list rating_row) : dataset :=
  match preprocess ratings with
  | inr final_dataset => final_dataset
  | inl _ => empty_dataset
  end.

(** The frames preprocessing makes of the two rating files. *)
Definition dataset60 : dataset := Eval vm_compute in preprocessed ratings60.

Definition dataset_rated_twice : dataset :=
  Eval vm_compute in preprocessed rated_twice.

(** A model fitted on the rows [X], as [create_recommendation_model]
    leaves it. *)
Definition fitted (X : list (list Qc)) : @NearestNeighbors Qc :=
  {| nn_metric := "cosine"; nn_algorithm := "brute"; nn_n_neighbors := 20;
     nn_n_jobs := (-1)%Z; nn_fit_X := Some X |}.

Definition knn60 : @NearestNeighbors Qc := fitted (ds_values dataset60).

(** A film nobody rated. *)
Definition movies61 : list movie_row := movies60 ++ [film 61].

(** No movies.csv in the directory. *)
Definition world_no_movies : state :=
  initial {| movies_csv := inl FileNotFoundError; ratings_csv := inr ratings60 |}.

End Examples.

(** Two small frames for single queries. *)

Module Small.
Import Reference.

(** Five films whose rating vectors point in five directions. *)
Definition movies5 : list movie_row :=
  [{| m_movieId := 1; m_title := "Alpha (1990)"; m_genres := "Drama" |};
   {| m_movieId := 2; m_title := "Bravo (1991)"; m_genres := "Comedy" |};
   {| m_movieId := 3; m_title := "Charlie (1992)"; m_genres := "Action" |};
   {| m_movieId := 4; m_title := "Delta (1993)"; m_genres := "Drama" |};
   {| m_movieId := 5; m_title := "Echo (1994)"; m_genres := "Comedy" |}].

Definition dataset5 : @dataset Qc :=
  {| ds_movieId := [1; 2; 3; 4; 5]%Z;
     ds_users := [10; 20; 30]%Z;
     ds_values := [[qc 5 1; qc 0 1; qc 1 1];
                   [qc 4 1; qc 1 1; qc 0 1];
                   [qc 0 1; qc 5 1; qc 2 1];
                   [qc 1 1; qc 1 1; qc 5 1];
                   [qc 3 1; qc 3 1; qc 3 1]] |}.

(** Four films, the first two rated alike by every user. *)
Definition movies4 : list movie_row :=
  [{| m_movieId := 1; m_title := "Alpha (1990)"; m_genres := "Drama" |};
   {| m_movieId := 2; m_title := "Bravo (1991)"; m_genres := "Comedy" |};
   {| m_movieId := 3; m_title := "Charlie (1992)"; m_genres := "Action" |};
   {| m_movieId := 4; m_title := "Delta (1993)"; m_genres := "Drama" |}].

Definition dataset4 : @dataset Qc :=
  {| ds_movieId := [1; 2; 3; 4]%Z;
     ds_users := [10; 20]%Z;
     ds_values := [[qc 5 1; qc 0 1];
                   [qc 5 1; qc 0 1];
                   [qc 0 1; qc 4 1];
                   [qc 3 1; qc 3 1]] |}.

Definition start : @state Qc :=
  Examples.initial {| movies_csv := inl FileNotFoundError;
                      ratings_csv := inl FileNotFoundError |}.

(** Three films, two of them with movieIds of more than 53 bits that a
    float64 cannot tell apart. *)
Definition movies_wide : list movie_row :=
  [{| m_movieId := 2 ^ 53; m_title := "Heat (1995)"; m_genres := "Crime" |};
   {| m_movieId := 2 ^ 53 + 1; m_title := "Solaris (1972)";
      m_genres := "Drama" |};
   {| m_movieId := 7; m_title := "Alien (1979)"; m_genres := "Horror" |}].

Definition dataset_wide : @dataset Qc :=
  {| ds_movieId := [7; 2 ^ 53; 2 ^ 53 + 1]%Z;
     ds_users := [10; 20]%Z;
     ds_values := [[qc 3 1; qc 3 1];
                   [qc 5 1; qc 0 1];
                   [qc 0 1; qc 4 1]] |}.

End Small.

(** * The specification, statement by statement

    Each theorem below checks one statement of the specification against
    the script; the lemma after it runs it on the concrete files above. *)

(** ** Loading *)

(** C4: with both files readable, the frame [load_and_preprocess_data]
    returns has one row per movieId of ratings.csv and none is dropped; its
    user columns are exactly the userIds with more than 50 rows in
    ratings.csv; and its matrix is the pivot over those rows and columns, 0
    where the (movieId, userId) pair has no rating. *)
Theorem load_builds_filtered_pivot {float : Type} {FO : FloatOps float} (s : state)
        (movies : list movie_row) (ratings : list rating_row) :
  movies_csv (st_files s) = inr movies ->
  ratings_csv (st_files s) = inr ratings ->
  exists final_dataset,
    fst (load_and_preprocess_data s)
    = inr (Some movies, Some ratings, Some final_dataset) /\
    NoDup (ds_movieId final_dataset) /\
    (forall m, In m (ds_movieId final_dataset) <->
               exists r, In r ratings /\ r_movieId r = m) /\
    NoDup (ds_users final_dataset) /\
    (forall u, In u (ds_users final_dataset) <-> 50 < count_ratings ratings u) /\
    ds_values final_dataset =
    map (fun m =>
           map (fun u => match ratings_of ratings m u with
                         | [] => f_zero
                         | rs => f_mean rs
                         end)
               (ds_users final_dataset))
        (ds_movieId final_dataset).
Proof.
  intros Hm Hr.
  destruct (load_files_present s Hm Hr) as (fd & Hp & Hl).
  exists fd. rewrite Hl. split; [reflexivity|].
  rewrite preprocess_spec in Hp. injection Hp as <-. simpl.
  split; [apply sorted_unique_NoDup|].
  split; [apply movieIds_In|].
  split; [apply kept_users_NoDup|].
  split; [apply kept_users_In|].
  apply map_ext. intro m. apply map_ext. intro u. apply entry_cases.
Qed.

Lemma load_builds_filtered_pivot_witness :
  exists final_dataset,
    fst (load_and_preprocess_data Examples.world60)
    = inr (Some Examples.movies60, Some Examples.ratings60, Some final_dataset) /\
    forall u, In u (ds_users final_dataset) <->
              50 < count_ratings Examples.ratings60 u.
Proof.
  destruct (@load_builds_filtered_pivot Qc Reference.QcFloat Examples.world60
              Examples.movies60 Examples.ratings60 eq_refl eq_refl)
    as (fd & Hl & _ & _ & _ & Hu & _).
  exists fd. split; [exact Hl|exact Hu].
Defined.

(** C10, as stated, fails on a pair rated twice: film 1 has the ratings 3
    and 4 from user 1, and the entry of the matrix is their mean 7/2, which
    is neither of them and is not 0. *)
Lemma entry_of_pair_rated_twice :
  exists final_dataset,
    fst (load_and_preprocess_data Examples.world_rated_twice)
    = inr (Some Examples.movies60, Some Examples.rated_twice, Some final_dataset) /\
    ds_movieId final_dataset = map Z.of_nat (seq 1 51) /\
    ds_users final_dataset = [1%Z] /\
    ratings_of Examples.rated_twice 1 1 = [Reference.qc 3 1; Reference.qc 4 1] /\
    nth 0 (nth 0 (ds_values final_dataset) []) (Reference.qc 0 1)
    = Reference.qc 7 2 /\
    existsb (Qc_eq_bool (Reference.qc 7 2))
            [Reference.qc 3 1; Reference.qc 4 1; Reference.qc 0 1] = false.
Proof.
  exists Examples.dataset_rated_twice. repeat split; vm_compute; reflexivity.
Qed.

(** C10, amended: every entry of the preprocessed matrix is 0 when
    ratings.csv has no rating for its (movieId, userId) pair and the mean of
    the pair's ratings otherwise (the rating itself when there is one); the
    matrix has an entry for every row and column; and the variable
    [final_dataset] is the same after every later step (fitting, training,
    plotting, each query) and at the end of [main]. *)
Theorem final_dataset_entries_and_invariance {float : Type} {FO : FloatOps float} (lib : Library)
        (s : state) (movies : list movie_row) (ratings : list rating_row)
        (final_dataset : dataset) :
  fst (load_and_preprocess_data s)
  = inr (Some movies, Some ratings, Some final_dataset) ->
  ds_values final_dataset
  = map (fun m => map (entry ratings m) (ds_users final_dataset))
        (ds_movieId final_dataset) /\
  (forall m u, ratings_of ratings m u = [] -> entry ratings m u = f_zero) /\
  (forall m u, ratings_of ratings m u <> [] ->
               entry ratings m u = f_mean (ratings_of ratings m u)) /\
  (forall m u x, ratings_of ratings m u = [x] -> entry ratings m u = x) /\
  List.length (ds_values final_dataset) = List.length (ds_movieId final_dataset) /\
  Forall (fun row => List.length row = List.length (ds_users final_dataset))
         (ds_values final_dataset) /\
  (forall inputs,
      v_final_dataset (st_vars (snd (main lib inputs s))) = Some final_dataset) /\
  (forall (s1 : state) (fd : dataset) (model : NearestNeighbors * matrix)
          (name : string) (inputs : list string),
      let var := fun s' : state => v_final_dataset (st_vars s') in
      var (snd (create_recommendation_model lib fd s1)) = var s1 /\
      var (snd (assign_model model s1)) = var s1 /\
      var (snd (train_models lib fd s1)) = var s1 /\
      var (snd (visualize_datasets fd s1)) = var s1 /\
      var (snd (answer lib name s1)) = var s1 /\
      var (snd (main_loop lib inputs s1)) = var s1).
Proof.
  intro Hl. pose proof (load_returned _ Hl) as (Hm & Hr & Hp).
  rewrite preprocess_spec in Hp. injection Hp as <-. simpl.
  split; [reflexivity|].
  split; [intros m u E; now rewrite entry_cases, E|].
  split.
  { intros m u N. rewrite entry_cases.
    destruct (ratings_of ratings m u); [contradiction|reflexivity]. }
  split; [apply entry_single|].
  split; [now rewrite length_map|].
  split.
  { apply Forall_forall. intros row Hrow. apply in_map_iff in Hrow.
    destruct Hrow as (m & <- & _). now rewrite length_map. }
  split.
  { intro inputs. rewrite main_final_dataset, Hl. reflexivity. }
  intros s1 fd model name inputs.
  pose proof (@is_frame_final_dataset float) as Hf.
  split; [exact (keeps_create_recommendation_model lib fd Hf s1)|].
  split; [reflexivity|].
  split; [exact (keeps_train_models lib fd Hf s1)|].
  split; [exact (keeps_visualize_datasets fd Hf s1)|].
  split; [exact (keeps_answer lib name Hf s1)|].
  exact (keeps_main_loop lib inputs Hf s1).
Qed.

Lemma final_dataset_entries_and_invariance_witness :
  exists final_dataset,
    fst (load_and_preprocess_data Examples.world60)
    = inr (Some Examples.movies60, Some Examples.ratings60, Some final_dataset) /\
    v_final_dataset
      (st_vars (snd (main Reference.ref_lib ["Film 7"%string; "quit"%string]
                          Examples.world60)))
    = Some final_dataset.
Proof.
  exists Examples.dataset60. split; [vm_compute; reflexivity|].
  refine (proj1 (proj2 (proj2 (proj2 (proj2 (proj2 (proj2
            (@final_dataset_entries_and_invariance Qc Reference.QcFloat
               Reference.ref_lib Examples.world60 Examples.movies60
               Examples.ratings60 _ _))))))) _).
  vm_compute. reflexivity.
Defined.

(** ** Queries *)

(** C3: the Distance column of a returned frame is ordered: from the first
    row to the last the distances never increase. *)
Theorem recommendations_sorted_by_distance
        {float : Type} {FO : FloatOps float} (lib : Library)
        (movie_name : string) (movies : list movie_row) (final_dataset : dataset)
        (knn : NearestNeighbors) (csr_data : matrix) (n : nat) (s : state)
        (df : frame) :
  fst (get_movie_recommendation lib movie_name movies final_dataset knn
                                csr_data n s) = inr (Some df) ->
  StronglySorted (fun a b => f_leb b a = true) (map snd (df_rows df)).
Proof.
  intro H. apply recommendation_returned in H.
  destruct H as (t & more & mid & r & q & ds & ixs & recs & rows
                 & _ & _ & _ & _ & _ & Erecs & Erows & Edf).
  apply DataFrame_of_rows_value in Edf. destruct Edf as (_ & -> & _).
  rewrite (recommend_frame_distances _ _ _ Erows).
  rewrite (rec_movie_indices_value _ _ Erecs).
  apply StronglySorted_map. apply slice_sorted_descending.
Qed.

Lemma recommendations_sorted_by_distance_witness :
  exists df,
    fst (get_movie_recommendation Reference.ref_lib "Film 7" Examples.movies60
           Examples.dataset60 Examples.knn60 (ds_values Examples.dataset60) 10
           Examples.world60) = inr (Some df) /\
    StronglySorted (fun a b => Reference.qc_leb b a = true) (map snd (df_rows df)).
Proof.
  eexists. split; [vm_compute; reflexivity|].
  apply (@recommendations_sorted_by_distance Qc Reference.QcFloat
           Reference.ref_lib "Film 7" Examples.movies60 Examples.dataset60
           Examples.knn60 (ds_values Examples.dataset60) 10 Examples.world60).
  vm_compute. reflexivity.
Defined.

(** C6: a query asks difflib once, for one match ([n=1]), so the name
    resolves to at most one title; and when there is no close title the
    function prints its message and returns None, having made no other call
    (the neighbour model is not queried). *)
Theorem one_fuzzy_match_per_query
        {float : Type} {FO : FloatOps float} (lib : Library)
        (movie_name : string) (movies : list movie_row) (final_dataset : dataset)
        (knn : NearestNeighbors) (csr_data : matrix) (n : nat) (s : state) :
  List.length (get_close_matches lib movie_name (map m_title movies) 1) <= 1 /\
  (exists rest,
      st_out (snd (get_movie_recommendation lib movie_name movies final_dataset
                                            knn csr_data n s))
      = st_out s
        ++ Call (get_close_matches_call movie_name (map m_title movies) 1)
        :: rest /\
      Forall not_a_fuzzy_match rest) /\
  (get_close_matches lib movie_name (map m_title movies) 1 = [] ->
   get_movie_recommendation lib movie_name movies final_dataset knn csr_data n s
   = (inr None,
      logged s [Call (get_close_matches_call movie_name (map m_title movies) 1);
                Print no_match_message])).
Proof.
  split; [apply get_close_matches_length|].
  split; [|apply recommendation_no_match].
  unfold get_movie_recommendation. rewrite bind_call_lib.
  match goal with
  | |- context [snd (?m (logged s ?l))] =>
      assert (emits not_a_fuzzy_match m) as Hm
  end.
  { assert (forall e, @not_a_fuzzy_match float (Raised e)) as Hr
        by (intros e w ps k; discriminate).
    assert (forall t, @not_a_fuzzy_match float (Print t)) as Hp
        by (intros t w ps k; discriminate).
    assert (forall c, (forall w ps k, c <> get_close_matches_call w ps k) ->
                      @not_a_fuzzy_match float (Call c)) as Hc.
    { intros c Hc w ps k E. injection E as E. exact (Hc _ _ _ E). }
    destruct (get_close_matches lib movie_name (map m_title movies) 1)
      as [|t more].
    - apply emits_bind; [apply emits_emit, Hp|]. intros _. apply emits_ret.
    - apply emits_bind; [now apply emits_lift|]. intro mid.
      destruct (negb (existsb (Z.eqb mid) (ds_movieId final_dataset))).
      + apply emits_bind; [apply emits_emit, Hp|]. intros _. apply emits_ret.
      + apply emits_bind; [now apply emits_lift|]. intro r.
        apply emits_bind; [now apply emits_lift|]. intro q.
        apply emits_bind.
        { apply emits_call_lib; [|exact Hr]. apply Hc. discriminate. }
        intro res.
        apply emits_bind; [now apply emits_lift|]. intro recs.
        apply emits_bind; [now apply emits_lift|]. intro rows.
        apply emits_bind; [now apply emits_lift|]. intro df.
        apply emits_bind; [|intros _; apply emits_ret].
        apply emits_report_variance; [|exact Hr|exact Hp].
        apply Hc. discriminate. }
  match goal with
  | |- context [snd (?m (logged s ?l))] =>
      destruct (Hm (logged s l)) as (rest & E & F)
  end.
  exists rest. split; [|exact F]. rewrite E. simpl. now rewrite <- app_assoc.
Qed.

Lemma one_fuzzy_match_per_query_witness :
  get_close_matches Reference.ref_lib "zzzz" (map m_title Examples.movies60) 1
  = [] /\
  get_movie_recommendation Reference.ref_lib "zzzz" Examples.movies60
     Examples.dataset60 Examples.knn60 (ds_values Examples.dataset60) 10
     Examples.world60
  = (inr None,
     logged Examples.world60
       [Call (get_close_matches_call "zzzz" (map m_title Examples.movies60) 1);
        Print no_match_message]).
Proof.
  split; [vm_compute; reflexivity|].
  apply (proj2 (proj2 (@one_fuzzy_match_per_query Qc Reference.QcFloat
           Reference.ref_lib "zzzz" Examples.movies60 Examples.dataset60
           Examples.knn60 (ds_values Examples.dataset60) 10 Examples.world60))).
  vm_compute. reflexivity.
Defined.

(** C9: when the matched title is in movies.csv but its movieId is not a
    row of the filtered frame, the function prints its message and returns
    None after the fuzzy match alone: [kneighbors] is not called, and the
    files and the variables of [main] (the model and the frames) are as
    before. *)
Theorem absent_movie_returns_none
        {float : Type} {FO : FloatOps float} (lib : Library)
        (movie_name : string) (movies : list movie_row) (final_dataset : dataset)
        (knn : NearestNeighbors) (csr_data : matrix) (n : nat) (s : state)
        (t : string) (more : list string) (mid : Z) :
  get_close_matches lib movie_name (map m_title movies) 1 = t :: more ->
  movieId_of_title movies t = inr mid ->
  existsb (Z.eqb mid) (ds_movieId final_dataset) = false ->
  let run := get_movie_recommendation lib movie_name movies final_dataset knn
                                      csr_data n s in
  In t (map m_title movies) /\
  run = (inr None,
         logged s [Call (get_close_matches_call movie_name (map m_title movies) 1);
                   Print not_in_dataset_message]) /\
  st_vars (snd run) = st_vars s /\
  st_files (snd run) = st_files s.
Proof.
  intros Egcm Emid Hin run.
  assert (run = (inr None,
                 logged s [Call (get_close_matches_call movie_name
                                   (map m_title movies) 1);
                           Print not_in_dataset_message])) as E
      by (eapply recommendation_not_in_dataset; eassumption).
  split.
  { apply (get_close_matches_In lib movie_name (map m_title movies) 1).
    rewrite Egcm. now left. }
  split; [exact E|]. rewrite E. now split.
Qed.

Lemma absent_movie_returns_none_witness :
  get_movie_recommendation Reference.ref_lib "Film 61" Examples.movies61
     Examples.dataset60 Examples.knn60 (ds_values Examples.dataset60) 10
     Examples.world60
  = (inr None,
     logged Examples.world60
       [Call (get_close_matches_call "Film 61" (map m_title Examples.movies61) 1);
        Print not_in_dataset_message]).
Proof.
  refine (proj1 (proj2 (@absent_movie_returns_none Qc Reference.QcFloat
           Reference.ref_lib "Film 61" Examples.movies61 Examples.dataset60
           Examples.knn60 (ds_values Examples.dataset60) 10 Examples.world60
           "Film 61" [] 61%Z _ _ _))); vm_compute; reflexivity.
Defined.

(** ** Exception handling *)

(** C2, as stated, fails: there is a second handler.  Asked for one
    recommendation, [statistics.variance] gets a single distance and raises
    StatisticsError; [get_movie_recommendation] catches it, prints its
    message and still returns the frame. *)
Lemma variance_error_is_caught :
  exists df evs,
    get_movie_recommendation Reference.ref_lib "Film 7" Examples.movies60
      Examples.dataset60 Examples.knn60 (ds_values Examples.dataset60) 1
      Examples.world60
    = (inr (Some df), logged Examples.world60 evs) /\
    variance Reference.ref_lib (map snd (df_rows df)) = inl StatisticsError /\
    In (Raised StatisticsError) evs /\
    In (Print not_enough_data_message) evs.
Proof.
  eexists. eexists. split; [vm_compute; reflexivity|].
  split; [vm_compute; reflexivity|].
  split; simpl; tauto.
Qed.

(** C2, amended: the program has two handlers and no other.
    [load_and_preprocess_data] catches FileNotFoundError from either read,
    prints and returns (None, None, None), upon which [main] returns with no
    model fitted and no input read; [get_movie_recommendation] catches
    StatisticsError from the variance, prints and goes on.  Every other
    exception raised during [main] ends [main]; a read error that is not
    FileNotFoundError and an error of [kneighbors] are two such. *)
Theorem two_handlers_and_no_other
        {float : Type} {FO : FloatOps float} (lib : Library)
        (inputs : list string) (s : state) :
  (movies_csv (st_files s) = inl FileNotFoundError ->
   load_and_preprocess_data s
   = (inr (None, None, None), logged s movies_not_found) /\
   main lib inputs s = (inr tt, stopped s movies_not_found)) /\
  (forall movies,
      movies_csv (st_files s) = inr movies ->
      ratings_csv (st_files s) = inl FileNotFoundError ->
      load_and_preprocess_data s
      = (inr (None, None, None), logged s ratings_not_found) /\
      main lib inputs s = (inr tt, stopped s ratings_not_found)) /\
  (forall l s1,
      variance lib l = inl StatisticsError ->
      report_variance lib l s1
      = (inr tt, logged s1 [Call (variance_call l); Raised StatisticsError;
                            Print not_enough_data_message])) /\
  (forall e evs,
      st_out (snd (main lib inputs s)) = st_out s ++ evs ->
      In (Raised e) evs ->
      e <> FileNotFoundError -> e <> StatisticsError ->
      fst (main lib inputs s) = inl e) /\
  (forall e,
      movies_csv (st_files s) = inl e -> e <> FileNotFoundError ->
      main lib inputs s
      = (inl e, logged s [Call (read_csv_call "movies.csv"); Raised e])) /\
  (forall l e s1,
      variance lib l = inl e -> e <> StatisticsError ->
      report_variance lib l s1
      = (inl e, logged s1 [Call (variance_call l); Raised e])) /\
  (forall movie_name movies final_dataset knn csr_data n s1 t more mid r q e,
      get_close_matches lib movie_name (map m_title movies) 1 = t :: more ->
      movieId_of_title movies t = inr mid ->
      find_index (fun m => (m =? mid)%Z) (ds_movieId final_dataset) = Some r ->
      nth_error csr_data r = Some q ->
      match nn_fit_X knn with
      | Some X => kneighbors lib (nn_metric knn) (nn_algorithm knn) X q (n + 1)
      | None => inl (OtherError "NotFittedError")
      end = inl e ->
      get_movie_recommendation lib movie_name movies final_dataset knn
                               csr_data n s1
      = (inl e, logged s1 [Call (get_close_matches_call movie_name
                                   (map m_title movies) 1);
                           Call (kneighbors_call q (n + 1)); Raised e])).
Proof.
  split.
  { intro H. pose proof (load_movies_not_found s H) as Hl.
    split; [exact Hl|]. now apply main_stops. }
  split.
  { intros movies Hm H. pose proof (load_ratings_not_found s Hm H) as Hl.
    split; [exact Hl|]. now apply main_stops. }
  split; [intros l s1; apply report_variance_caught|].
  split.
  { intros e evs Eo Hin N1 N2.
    eapply tidy_propagates; eauto. apply tidy_main. }
  split.
  { intros e H N. apply main_load_raises. now apply load_movies_unreadable. }
  split; [intros l e s1; apply report_variance_uncaught|].
  intros. eapply recommendation_kneighbors_raises; eassumption.
Qed.

Lemma two_handlers_and_no_other_witness :
  main Reference.ref_lib ["Film 7"%string; "quit"%string] Examples.world_no_movies
  = (inr tt, stopped Examples.world_no_movies movies_not_found).
Proof.
  apply (@two_handlers_and_no_other Qc Reference.QcFloat Reference.ref_lib).
  reflexivity.
Defined.

(** ** Classifier training *)



(** C5, as stated, fails for a draw of labels that are all of one class:
    [SVC().fit] raises ValueError on them, the exception ends [main] before
    the loop asks for a title, and nothing is recommended; the script
    without the training line answers the same console input with a
    frame. *)
Lemma training_on_one_class_ends_the_script :
  let inputs := ["Film 7"%string; "quit"%string] in
  training_returns Reference.ref_lib Examples.world_one_class = false /\
  fst (main Reference.ref_lib inputs Examples.world_one_class)
  = inl ValueError /\
  recommended (st_out (snd (main Reference.ref_lib inputs
                                 Examples.world_one_class))) = [] /\
  fst (main_without_train_models Reference.ref_lib inputs
                                 Examples.world_one_class) = inr tt /\
  List.length
    (recommended (st_out (snd (main_without_train_models
                                 Reference.ref_lib inputs
                                 Examples.world_one_class)))) = 1.
Proof. vm_compute. repeat split. Qed.

(** C5, amended: whenever the training step returns (whatever the dataset
    and whatever labels were drawn), the script ends as the script without
    the training line ends: with the same outcome, the same variables and
    files, and the same frames recommended; the two traces differ by the
    events of the training step alone, none of which is a frame.  And when
    the training step raises, [main] ends in an exception and has
    recommended nothing. *)
Theorem training_that_returns_has_no_bearing
        {float : Type} {FO : FloatOps float} (lib : Library)
        (inputs : list string) (s : state) :
  let trained := main lib inputs s in
  let untrained := main_without_train_models lib inputs s in
  (training_returns lib s = true ->
   fst trained = fst untrained /\
   st_vars (snd trained) = st_vars (snd untrained) /\
   st_files (snd trained) = st_files (snd untrained) /\
   recommended (st_out (snd trained)) = recommended (st_out (snd untrained)) /\
   exists before training after,
     st_out (snd trained) = st_out s ++ before ++ training ++ after /\
     st_out (snd untrained) = st_out s ++ before ++ after /\
     Forall no_frame training) /\
  (training_returns lib s = false ->
   exists e,
     fst trained = inl e /\
     recommended (st_out (snd trained)) = recommended (st_out s)).
Proof.
  intros trained untrained. subst trained untrained.
  rewrite main_is_main_with, main_without_is_main_with.
  destruct (main_with_cases lib s)
    as [(r & s' & evs & E & Eout & Hnf & Hr)
       |(movies & ratings & fd & s1 & evs & E & El & Efd & Erng & Eout & Hnf)].
  - rewrite !E. cbn [fst snd]. split.
    + intros _. repeat (split; [reflexivity|]).
      exists evs, [], []. rewrite !app_nil_r.
      split; [exact Eout|]. split; [exact Eout|constructor].
    + intro Ht. destruct r as [e|[]].
      * exists e. split; [reflexivity|].
        rewrite Eout, recommended_app, (recommended_no_frame Hnf).
        apply app_nil_r.
      * unfold training_returns in Ht. rewrite (Hr eq_refl) in Ht.
        discriminate.
  - rewrite !E. rewrite bind_read_var, Efd.
    unfold training_returns. rewrite El.
    destruct (seeded_train_models lib fd s1 s Erng) as [Er _].
    rewrite <- Er.
    assert (agree (snd (train_models lib fd s1)) s1) as Ha.
    { split; [apply (keeps_train_models lib fd (@is_frame_files float))
             |apply (keeps_train_models lib fd (@is_frame_vars float))]. }
    destruct (no_frame_train_models lib fd s1) as (tr & Etr & Htr).
    destruct (insensitive_session lib inputs Ha)
      as (Eres & [Hf Hv] & evs' & E1 & E2).
    unfold bind.
    destruct (train_models lib fd s1) as [[e|models] s2]; cbn [fst snd] in *.
    + split; [discriminate|]. intros _. exists e. split; [reflexivity|].
      rewrite Etr, Eout, !recommended_app, (recommended_no_frame Hnf),
        (recommended_no_frame Htr).
      now rewrite !app_nil_r.
    + split; [intros _|discriminate].
      split; [exact Eres|]. split; [exact Hv|]. split; [exact Hf|].
      split.
      * rewrite E1, E2, Etr, !recommended_app, (recommended_no_frame Htr).
        now rewrite app_nil_r.
      * exists evs, tr, evs'. rewrite E1, E2, Etr, Eout, <- !app_assoc.
        split; [reflexivity|]. split; [reflexivity|exact Htr].
Qed.

Lemma training_that_returns_has_no_bearing_witness :
  let inputs := ["Film 7"%string; "zzzz"%string; "quit"%string] in
  training_returns Reference.ref_lib Examples.world60 = true /\
  fst (main Reference.ref_lib inputs Examples.world60)
  = fst (main_without_train_models Reference.ref_lib inputs Examples.world60) /\
  recommended (st_out (snd (main Reference.ref_lib inputs Examples.world60)))
  = recommended
      (st_out (snd (main_without_train_models Reference.ref_lib inputs
                                              Examples.world60))).
Proof.
  intro inputs.
  assert (training_returns Reference.ref_lib Examples.world60 = true) as Ht
      by (vm_compute; reflexivity).
  split; [exact Ht|].
  destruct (proj1 (@training_that_returns_has_no_bearing Qc Reference.QcFloat
                     Reference.ref_lib inputs Examples.world60) Ht)
    as (Eres & _ & _ & Erec & _).
  split; [exact Eres|exact Erec].
Defined.

(** ** The recommended movies *)
(** C1, as stated, fails on a frame with fewer than n+1 movies: the query
    matches a title whose movieId is a row of the frame, and the call ends
    in the ValueError of [kneighbors] (11 neighbours asked of 5 rows)
    instead of returning recommendations. *)
Lemma too_few_movies_for_ten_recommendations :
  get_close_matches Reference.ref_lib "Alpha (1990)"
                    (map m_title Small.movies5) 1 = ["Alpha (1990)"%string] /\
  movieId_of_title Small.movies5 "Alpha (1990)" = inr 1%Z /\
  existsb (Z.eqb 1) (ds_movieId Small.dataset5) = true /\
  fst (get_movie_recommendation Reference.ref_lib "Alpha (1990)" Small.movies5
         Small.dataset5 (Examples.fitted (ds_values Small.dataset5))
         (ds_values Small.dataset5) 10 Small.start)
  = inl ValueError.
Proof. repeat split; vm_compute; reflexivity. Qed.

(** Nor does it hold of movieIds beyond 53 bits: [final_dataset.iloc[i]]
    hands the movieId over as a float64, and the float of the movieId of
    "Solaris (1972)" is the movieId of "Heat (1995)".  Queried with
    "Heat (1995)", the frame lists "Heat (1995)" itself, for the row of
    "Solaris (1972)". *)
Lemma wide_movieIds_are_looked_up_rounded :
  nth_error (ds_movieId Small.dataset_wide) 2 = Some (2 ^ 53 + 1)%Z /\
  movieId_of_title Small.movies_wide "Solaris (1972)" = inr (2 ^ 53 + 1)%Z /\
  exact_float64 (2 ^ 53 + 1) = false /\
  title_at Small.movies_wide Small.dataset_wide 2 = inr "Heat (1995)"%string /\
  exists df s',
    get_movie_recommendation Reference.ref_lib "Heat (1995)" Small.movies_wide
      Small.dataset_wide (Examples.fitted (ds_values Small.dataset_wide))
      (ds_values Small.dataset_wide) 2 Small.start
    = (inr (Some df), s') /\
    map fst (df_rows df) = ["Heat (1995)"%string; "Alien (1979)"%string].
Proof.
  split; [reflexivity|]. split; [vm_compute; reflexivity|].
  split; [vm_compute; reflexivity|]. split; [vm_compute; reflexivity|].
  eexists. eexists. split; vm_compute; reflexivity.
Qed.

(** C1, amended: let the model use the cosine metric and be fitted on the
    frame's matrix (whose rows have one width); let the frame have at least
    n+1 movies (n >= 1), each listed in movies.csv, with movieIds that are
    distinct and that, like those of movies.csv, survive a conversion to
    float64 (at most 53 bits); and let the matched movie's row be strictly
    nearer (in cosine distance) to itself than to every other row.  Then
    [get_movie_recommendation] returns a frame of n rows, indexed 1 to n:
    n distinct movies other than the matched one, each under the title
    movies.csv has for its movieId and with its cosine distance to the
    matched movie's vector, and no other movie of the frame is nearer than
    any of them. *)
Theorem recommends_nearest_other_movies
        {float : Type} {FO : FloatOps float} (lib : Library)
        (movie_name : string) (movies : list movie_row) (final_dataset : dataset)
        (knn : NearestNeighbors) (csr_data : matrix) (n : nat) (s : state)
        (t : string) (more : list string) (mid : Z) (r : nat) (q : list float) :
  get_close_matches lib movie_name (map m_title movies) 1 = t :: more ->
  movieId_of_title movies t = inr mid ->
  find_index (fun m => (m =? mid)%Z) (ds_movieId final_dataset) = Some r ->
  nn_metric knn = "cosine"%string ->
  nn_fit_X knn = Some csr_data ->
  nth_error csr_data r = Some q ->
  1 <= n ->
  n + 1 <= List.length csr_data ->
  same_width csr_data q = true ->
  all_listed movies final_dataset (List.length csr_data) = true ->
  distinct (ds_movieId final_dataset) = true ->
  forallb exact_float64 (ds_movieId final_dataset ++ map m_movieId movies)
  = true ->
  strictly_nearest_to_itself (cosine_distance lib) csr_data r = true ->
  exists recs df s',
    get_movie_recommendation lib movie_name movies final_dataset knn csr_data n s
    = (inr (Some df), s') /\
    df_index df = seq 1 n /\
    Forall2 (fun val row =>
               title_at movies final_dataset (fst val) = inr (fst row) /\
               (exists m, In m movies /\
                          nth_error (ds_movieId final_dataset) (fst val)
                          = Some (m_movieId m) /\
                          m_movieId m <> mid /\
                          m_title m = fst row) /\
               snd row = snd val)
            recs (df_rows df) /\
    List.length recs = n /\
    NoDup (map fst recs) /\
    ~ In r (map fst recs) /\
    (forall val, In val recs ->
                 fst val < List.length csr_data /\
                 snd val = cosine_distance lib q (nth (fst val) csr_data [])) /\
    (forall val j, In val recs -> j < List.length csr_data -> j <> r ->
                   ~ In j (map fst recs) ->
                   f_leb (snd val) (cosine_distance lib q (nth j csr_data []))
                   = true).
Proof.
  intros Egcm Emid Er Emetric Efit Eq Hn Hrows Hw Hlisted Hdistinct Hexact Hself.
  assert (r < List.length csr_data) as Hr
      by (apply nth_error_Some; congruence).
  assert (nth r csr_data [] = q) as Hq by (now apply nth_error_nth).
  destruct (kneighbors_nearest lib (nn_metric knn) (nn_algorithm knn)
                               csr_data q (k := n + 1) Hw)
    as (ds & ixs & Ek & Hnear); [lia|].
  rewrite Emetric in Hnear. fold (cosine_distance lib) in Hnear.
  pose proof Hnear as (Hlen & Hnd & Hlt & Hds & Hasc & Hout).
  assert (exists ixs', ixs = r :: ixs') as (ixs' & ->).
  { rewrite <- Hq in Hnear.
    eapply nearest_starts_with_query; [exact Hnear|lia|exact Hr|exact Hself]. }
  assert (List.length (r :: ixs') = List.length ds) as Hlen2
      by (rewrite Hds; now rewrite length_map).
  destruct ds as [|d0 ds']; [discriminate|].
  assert (List.length ixs' = List.length ds') as Hlen3 by (simpl in Hlen2; lia).
  assert (List.length ixs' = n) as Hlen4 by (simpl in Hlen; lia).
  set (recs := rev (combine ixs' ds')).
  assert (rec_movie_indices (r :: ixs') (d0 :: ds') = inr recs) as Erecs.
  { unfold rec_movie_indices, zip_squeezed.
    rewrite !squeeze_tolist_long by (simpl; lia).
    rewrite sorted_ascending_id by (now apply combine_ascending).
    reflexivity. }
  assert (map fst recs = rev ixs') as Hfst.
  { unfold recs. rewrite map_rev. f_equal. now apply map_fst_combine. }
  assert (forall val, In val recs ->
            In (fst val) ixs' /\
            snd val = cosine_distance lib q (nth (fst val) csr_data [])) as Hval.
  { intros [i d] Hin. unfold recs in Hin. apply in_rev in Hin.
    simpl in Hds. injection Hds as _ Hds'.
    split; [eapply in_combine_l; exact Hin|]. simpl.
    subst ds'. now apply in_combine_map in Hin. }
  assert (exists rows, recommend_frame movies final_dataset recs = inr rows)
    as (rows & Erows).
  { eapply recommend_frame_listed; [exact Hlisted|].
    intros val Hin. apply Hlt. right. now apply Hval. }
  assert (List.length rows = n) as Hrowsn.
  { pose proof (recommend_frame_distances _ _ _ Erows) as Hd.
    apply (f_equal (@List.length _)) in Hd. rewrite !length_map in Hd.
    rewrite Hd. unfold recs. rewrite length_rev, length_combine. lia. }
  assert (DataFrame_of_rows rows (seq 1 n)
          = inr {| df_index := seq 1 n; df_rows := rows |}) as Edf.
  { unfold DataFrame_of_rows. rewrite length_seq, Hrowsn, Nat.eqb_refl.
    reflexivity. }
  assert (match nn_fit_X knn with
          | Some X => kneighbors lib (nn_metric knn) (nn_algorithm knn) X q (n + 1)
          | None => inl (OtherError "NotFittedError")
          end = inr (d0 :: ds', r :: ixs')) as Ek' by (now rewrite Efit).
  pose proof (recommendation_computed lib movie_name movies final_dataset knn
                csr_data n s Egcm Emid Er Eq Ek' Erecs Erows Edf) as Hrun.
  destruct (report_variance_returns lib (map snd recs)
              (logged s [asked movie_name movies;
                         Call (kneighbors_call q (n + 1))])) as (s' & Ev).
  rewrite Ev in Hrun.
  assert (~ In r ixs') as Hnotr by (now inversion Hnd).
  exists recs, {| df_index := seq 1 n; df_rows := rows |}, s'.
  split; [exact Hrun|]. split; [reflexivity|].
  split.
  { pose proof (recommend_frame_rows _ _ _ Erows) as Hrows2.
    eapply Forall2_impl_In; [exact Hrows2|].
    intros val row Hin [Etitle Esnd].
    split; [exact Etitle|]. split; [|exact Esnd].
    destruct (title_at_exact _ _ _ Etitle Hexact) as (m & Hm & Hid & Hm').
    exists m. split; [exact Hm|]. split; [exact Hid|]. split; [|exact Hm'].
    intro E. rewrite E in Hid.
    destruct (find_index_some _ _ Er) as (x & Hx & Px & _).
    apply Z.eqb_eq in Px. subst x.
    assert (fst val = r) as Eval.
    { pose proof (distinct_NoDup _ Hdistinct) as Hnodup.
      rewrite NoDup_nth_error in Hnodup. apply Hnodup; [|congruence].
      apply nth_error_Some. congruence. }
    apply Hnotr. rewrite <- Eval. now apply Hval. }
  split; [unfold recs; rewrite length_rev, length_combine; lia|].
  split.
  { rewrite Hfst. apply NoDup_rev. now inversion Hnd. }
  split.
  { rewrite Hfst, <- in_rev. exact Hnotr. }
  split.
  { intros val Hin. destruct (Hval val Hin) as [Hi Hd]. split; [|exact Hd].
    apply Hlt. now right. }
  intros val j Hin Hj Hjr Hnj.
  destruct (Hval val Hin) as [Hi ->].
  apply Hout; [now right|exact Hj|].
  intros [E|Hj']; [now apply Hjr|].
  apply Hnj. rewrite Hfst, <- in_rev. exact Hj'.
Qed.

Lemma recommends_nearest_other_movies_witness :
  exists (recs : list (nat * Qc)) df s',
    get_movie_recommendation Reference.ref_lib "Alpha (1990)" Small.movies5
      Small.dataset5 (Examples.fitted (ds_values Small.dataset5))
      (ds_values Small.dataset5) 2 Small.start
    = (inr (Some df), s') /\
    df_index df = [1; 2] /\
    List.length recs = 2 /\
    ~ In 0 (map fst recs).
Proof.
  destruct (@recommends_nearest_other_movies Qc Reference.QcFloat
              Reference.ref_lib "Alpha (1990)" Small.movies5 Small.dataset5
              (Examples.fitted (ds_values Small.dataset5))
              (ds_values Small.dataset5) 2 Small.start
              "Alpha (1990)" [] 1%Z 0
              [Reference.qc 5 1; Reference.qc 0 1; Reference.qc 1 1])
    as (recs & df & s' & Hrun & Hidx & _ & Hlen & _ & Hself & _);
    try (vm_compute; reflexivity); try (simpl; lia).
  exists recs, df, s'. repeat split; assumption.
Defined.

(** The part of C8 that holds: with the model fitted on at least n+1 rows,
    a returned frame has n rows under the index 1..n. *)
Lemma returned_frame_shape
      {float : Type} {FO : FloatOps float} (lib : Library)
      (movie_name : string) (movies : list movie_row) (final_dataset : dataset)
      (knn : NearestNeighbors) (csr_data X : matrix) (n : nat) (s : state)
      (df : frame) :
  fst (get_movie_recommendation lib movie_name movies final_dataset knn
                                csr_data n s) = inr (Some df) ->
  nn_fit_X knn = Some X ->
  1 <= n -> n + 1 <= List.length X ->
  Forall (fun row => same_width X row = true) csr_data ->
  df_index df = seq 1 n /\ List.length (df_rows df) = n.
Proof.
  intros H Efit Hn Hrows Hw. apply recommendation_returned in H.
  destruct H as (t & more & mid & r & q & ds & ixs & recs & rows
                 & _ & _ & _ & Eq & Ek & Erecs & Erows & Edf).
  rewrite Efit in Ek.
  assert (same_width X q = true) as Hq.
  { rewrite Forall_forall in Hw. apply Hw. eapply nth_error_In. exact Eq. }
  destruct (kneighbors_nearest lib (nn_metric knn) (nn_algorithm knn) X q
                               (k := n + 1) Hq)
    as (ds' & ixs' & Ek' & Hnear); [lia|].
  rewrite Ek in Ek'. injection Ek' as <- <-.
  destruct Hnear as (Hlen & _ & _ & Hds & _).
  apply DataFrame_of_rows_value in Edf. destruct Edf as (-> & -> & _).
  split; [reflexivity|].
  pose proof (recommend_frame_distances _ _ _ Erows) as Hd.
  apply (f_equal (@List.length _)) in Hd. rewrite !length_map in Hd.
  rewrite Hd, (rec_movie_indices_value _ _ Erecs), slice_length, sorted_length,
    length_combine, Hds, length_map, Hlen.
  lia.
Qed.

(** C8 fails on the code where it says the queried movie never appears.
    "Alpha (1990)" and "Bravo (1991)" have the same ratings, so both are at
    the same distance from the query "Bravo (1991)" as the query itself;
    [kneighbors] lists them first, the slice drops the first of the two,
    which is Alpha, and the returned frame of two rows (the frame has four
    movies) ends with the queried movie itself. *)
Theorem queried_movie_recommended_to_itself :
  let bravo := [Reference.qc 5 1; Reference.qc 0 1] in
  let delta := [Reference.qc 3 1; Reference.qc 3 1] in
  get_close_matches Reference.ref_lib "Bravo (1991)"
                    (map m_title Small.movies4) 1 = ["Bravo (1991)"%string] /\
  nth_error (ds_values Small.dataset4) 0 = Some bravo /\
  nth_error (ds_values Small.dataset4) 1 = Some bravo /\
  List.length (ds_movieId Small.dataset4) = 2 + 2 /\
  fst (get_movie_recommendation Reference.ref_lib "Bravo (1991)" Small.movies4
         Small.dataset4 (Examples.fitted (ds_values Small.dataset4))
         (ds_values Small.dataset4) 2 Small.start)
  = inr (Some {| df_index := [1; 2];
                 df_rows :=
                   [("Delta (1993)"%string,
                     cosine_distance Reference.ref_lib bravo delta);
                    ("Bravo (1991)"%string,
                     cosine_distance Reference.ref_lib bravo bravo)] |}).
Proof. repeat split; vm_compute; reflexivity. Qed.

(** The same two rows under any library that meets the contract: whichever
    of the two it lists first, the other stays in [rec_movie_indices]. *)
Lemma one_twin_is_recommended_to_itself_reference :
  exists ds ixs recs,
    kneighbors Reference.ref_lib "cosine" "brute" (ds_values Small.dataset4)
               [Reference.qc 5 1; Reference.qc 0 1] (2 + 1) = inr (ds, ixs) /\
    rec_movie_indices ixs ds = inr recs /\
    (In 0 (map fst recs) \/ In 1 (map fst recs)).
Proof.
  apply (@one_twin_is_recommended_to_itself Qc Reference.QcFloat
           Reference.ref_lib "cosine" "brute" (ds_values Small.dataset4)
           [Reference.qc 5 1; Reference.qc 0 1] 0 1 2);
    try (vm_compute; reflexivity); try (simpl; lia).
Defined.

(** * Further properties of the script

    The same functions, past what the specification says of them: the
    error paths of a query, the loop of [main], and the shape of the
    preprocessed frame. *)

Module Sessions.
Import Reference.

(** The state of [main] once the set-up is through, for the sixty films. *)
Definition ready60 : @state Qc :=
  {| st_files := st_files Examples.world60;
     st_rng := Examples.words;
     st_vars := {| v_movies := Some Examples.movies60;
                   v_ratings := Some Examples.ratings60;
                   v_final_dataset := Some Examples.dataset60;
                   v_knn := Some Examples.knn60;
                   v_csr_data := Some (ds_values Examples.dataset60) |};
     st_out := [] |}.

(** A movies.csv that cannot be parsed. *)
Definition world_unreadable : @state Qc :=
  Examples.initial {| movies_csv := inl (OtherError "ParserError");
                      ratings_csv := inr Examples.ratings60 |}.

(** Five ratings by one user: nobody has rated more than 50 movies. *)
Definition ratings5 : list (@rating_row Qc) :=
  map (Examples.rate 4) (seq 1 5).

Definition world5 : @state Qc :=
  Examples.initial {| movies_csv := inr Examples.movies60;
                      ratings_csv := inr ratings5 |}.

(** Eight films, each rated seven times by one user: a frame of eight
    movies and one user. *)
Definition ratings8 : list (@rating_row Qc) :=
  flat_map (fun _ : nat => map (Examples.rate 1) (seq 1 8)) (seq 0 7).

Definition world8 : @state Qc :=
  Examples.initial {| movies_csv := inr Examples.movies60;
                      ratings_csv := inr ratings8 |}.

(** The sixty films' ratings with the lines in the opposite order. *)
Definition world60_reversed : @state Qc :=
  Examples.initial {| movies_csv := inr Examples.movies60;
                      ratings_csv := inr (rev Examples.ratings60) |}.

(** Two movies of one title. *)
Definition remakes : list movie_row :=
  [{| m_movieId := 1; m_title := "Solaris"; m_genres := "Drama" |};
   {| m_movieId := 2; m_title := "Heat"; m_genres := "Crime" |};
   {| m_movieId := 3; m_title := "Solaris"; m_genres := "Drama" |}].

End Sessions.

(** ** Queries *)

(** X1: with the model fitted on [csr_data], a matrix whose rows have one
    width, [get_movie_recommendation] returns a frame only when n >= 1 and
    the matrix has at least n+1 rows, and the frame then has exactly n rows
    under the index 1..n. *)
Theorem returned_frame_has_n_rows
        {float : Type} {FO : FloatOps float} (lib : Library)
        (movie_name : string) (movies : list movie_row) (final_dataset : dataset)
        (knn : NearestNeighbors) (csr_data : matrix) (n : nat) (s : state)
        (df : frame) :
  fst (get_movie_recommendation lib movie_name movies final_dataset knn
                                csr_data n s) = inr (Some df) ->
  nn_fit_X knn = Some csr_data ->
  rectangular csr_data = true ->
  df_index df = seq 1 n /\ List.length (df_rows df) = n /\
  1 <= n /\ n + 1 <= List.length csr_data.
Proof.
  intros H Efit Hrect. eapply frame_of_fitted_model; [exact H|exact Efit|].
  now apply rectangular_Forall.
Qed.

Lemma returned_frame_has_n_rows_witness :
  exists df,
    fst (get_movie_recommendation Reference.ref_lib "Film 7" Examples.movies60
           Examples.dataset60 Examples.knn60 (ds_values Examples.dataset60) 10
           Examples.world60) = inr (Some df) /\
    df_index df = seq 1 10 /\ List.length (df_rows df) = 10.
Proof.
  assert (exists df,
             fst (get_movie_recommendation Reference.ref_lib "Film 7"
                    Examples.movies60 Examples.dataset60 Examples.knn60
                    (ds_values Examples.dataset60) 10 Examples.world60)
             = inr (Some df)) as (df & H)
      by (eexists; vm_compute; reflexivity).
  exists df. split; [exact H|].
  destruct (@returned_frame_has_n_rows Qc Reference.QcFloat Reference.ref_lib
              "Film 7" Examples.movies60 Examples.dataset60 Examples.knn60
              (ds_values Examples.dataset60) 10 Examples.world60 df H)
    as (A & B & _); try (vm_compute; reflexivity).
  now split.
Defined.

(** X2: asked for no recommendation at all (n = 0), a query that finds its
    movie does not return an empty frame: the single neighbour comes back
    from [squeeze] as a bare number, [zip] refuses it, and the call ends in
    TypeError right after [kneighbors]. *)
Theorem zero_recommendations_raise_TypeError
        {float : Type} {FO : FloatOps float} (lib : Library)
        (movie_name : string) (movies : list movie_row) (final_dataset : dataset)
        (knn : NearestNeighbors) (csr_data X : matrix) (s : state)
        (t : string) (more : list string) (mid : Z) (r : nat) (q : list float) :
  get_close_matches lib movie_name (map m_title movies) 1 = t :: more ->
  movieId_of_title movies t = inr mid ->
  find_index (fun m => (m =? mid)%Z) (ds_movieId final_dataset) = Some r ->
  nth_error csr_data r = Some q ->
  nn_fit_X knn = Some X ->
  same_width X q = true ->
  1 <= List.length X ->
  get_movie_recommendation lib movie_name movies final_dataset knn csr_data 0 s
  = (inl TypeError,
     logged s [Call (get_close_matches_call movie_name (map m_title movies) 1);
               Call (kneighbors_call q 1); Raised TypeError]).
Proof.
  intros Egcm Emid Er Eq Efit Hw Hrows.
  destruct (kneighbors_nearest lib (nn_metric knn) (nn_algorithm knn) X q
                               (k := 0 + 1) Hw)
    as (ds & ixs & Ek & Hnear); [simpl; lia|].
  eapply (recommendation_slice_raises lib movie_name movies final_dataset knn
            csr_data 0 s Egcm Emid Er Eq).
  - rewrite Efit. exact Ek.
  - eapply rec_movie_indices_of_one. exact Hnear.
Qed.

Lemma zero_recommendations_raise_TypeError_witness :
  fst (get_movie_recommendation Reference.ref_lib "Film 7" Examples.movies60
         Examples.dataset60 Examples.knn60 (ds_values Examples.dataset60) 0
         Examples.world60)
  = inl TypeError.
Proof.
  rewrite (@zero_recommendations_raise_TypeError Qc Reference.QcFloat
             Reference.ref_lib "Film 7" Examples.movies60 Examples.dataset60
             Examples.knn60 (ds_values Examples.dataset60)
             (ds_values Examples.dataset60) Examples.world60
             "Film 7" [] 7%Z 6
             (nth 6 (ds_values Examples.dataset60) []));
    try (vm_compute; reflexivity).
  simpl. lia.
Defined.

(** X3: when the fitted matrix has fewer than n+1 rows, every query that
    finds its movie ends in the ValueError of [kneighbors]: nothing is
    recommended, and no shorter frame is returned instead. *)
Theorem too_few_rows_raise_ValueError
        {float : Type} {FO : FloatOps float} (lib : Library)
        (movie_name : string) (movies : list movie_row) (final_dataset : dataset)
        (knn : NearestNeighbors) (csr_data X : matrix) (n : nat) (s : state)
        (t : string) (more : list string) (mid : Z) (r : nat) (q : list float) :
  get_close_matches lib movie_name (map m_title movies) 1 = t :: more ->
  movieId_of_title movies t = inr mid ->
  find_index (fun m => (m =? mid)%Z) (ds_movieId final_dataset) = Some r ->
  nth_error csr_data r = Some q ->
  nn_fit_X knn = Some X ->
  List.length X < n + 1 ->
  get_movie_recommendation lib movie_name movies final_dataset knn csr_data n s
  = (inl ValueError,
     logged s [Call (get_close_matches_call movie_name (map m_title movies) 1);
               Call (kneighbors_call q (n + 1)); Raised ValueError]).
Proof.
  intros Egcm Emid Er Eq Efit Hrows.
  eapply (recommendation_kneighbors_raises lib movie_name movies final_dataset
            knn csr_data n s Egcm Emid Er Eq).
  rewrite Efit. apply kneighbors_out_of_range. now right.
Qed.

Lemma too_few_rows_raise_ValueError_witness :
  fst (get_movie_recommendation Reference.ref_lib "Delta (1993)" Small.movies4
         Small.dataset4 (Examples.fitted (ds_values Small.dataset4))
         (ds_values Small.dataset4) 4 Small.start)
  = inl ValueError.
Proof.
  rewrite (@too_few_rows_raise_ValueError Qc Reference.QcFloat
             Reference.ref_lib "Delta (1993)" Small.movies4 Small.dataset4
             (Examples.fitted (ds_values Small.dataset4))
             (ds_values Small.dataset4) (ds_values Small.dataset4) 4
             Small.start "Delta (1993)" [] 4%Z 3
             [Reference.qc 3 1; Reference.qc 3 1]);
    vm_compute; reflexivity.
Defined.

(** X4: None is returned at the two early returns and nowhere else: either
    difflib found no title, or the matched title's movieId is not a row of
    the frame; in both cases the fuzzy match and one printed message are
    all the call did. *)
Theorem none_only_at_the_early_returns
        {float : Type} {FO : FloatOps float} (lib : Library)
        (movie_name : string) (movies : list movie_row) (final_dataset : dataset)
        (knn : NearestNeighbors) (csr_data : matrix) (n : nat) (s : state) :
  fst (get_movie_recommendation lib movie_name movies final_dataset knn
                                csr_data n s) = inr None ->
  (get_close_matches lib movie_name (map m_title movies) 1 = [] /\
   get_movie_recommendation lib movie_name movies final_dataset knn csr_data n s
   = (inr None,
      logged s [Call (get_close_matches_call movie_name (map m_title movies) 1);
                Print no_match_message])) \/
  (exists t more mid,
      get_close_matches lib movie_name (map m_title movies) 1 = t :: more /\
      movieId_of_title movies t = inr mid /\
      existsb (Z.eqb mid) (ds_movieId final_dataset) = false /\
      get_movie_recommendation lib movie_name movies final_dataset knn csr_data
                               n s
      = (inr None,
         logged s [Call (get_close_matches_call movie_name
                           (map m_title movies) 1);
                   Print not_in_dataset_message])).
Proof.
  intro H.
  destruct (get_close_matches lib movie_name (map m_title movies) 1)
    as [|t more] eqn:Egcm.
  { left. split; [reflexivity|]. now apply recommendation_no_match. }
  right. exists t, more.
  unfold get_movie_recommendation, NearestNeighbors_kneighbors in H.
  rewrite bind_call_lib, Egcm, bind_lift in H.
  destruct (movieId_of_title movies t) as [e|mid] eqn:Emid; [discriminate|].
  exists mid.
  destruct (existsb (Z.eqb mid) (ds_movieId final_dataset)) eqn:Ex.
  2:{ repeat split. eapply recommendation_not_in_dataset; eassumption. }
  exfalso. cbn [negb] in H. rewrite bind_lift in H.
  destruct (find_index (fun m => (m =? mid)%Z) (ds_movieId final_dataset))
    as [r|]; simpl in H; [|discriminate].
  rewrite bind_lift in H.
  destruct (nth_error csr_data r) as [q|]; simpl in H; [|discriminate].
  rewrite bind_call_lib in H.
  match type of H with
  | context [match ?c with inl _ => _ | inr _ => _ end] =>
      destruct c as [e|[ds ixs]]; [discriminate|]
  end.
  rewrite bind_lift in H. simpl fst in H. simpl snd in H.
  destruct (rec_movie_indices ixs ds) as [e|recs]; [discriminate|].
  rewrite bind_lift in H.
  destruct (recommend_frame movies final_dataset recs) as [e|rows];
    [discriminate|].
  rewrite bind_lift in H.
  destruct (DataFrame_of_rows rows (seq 1 n)) as [e|df]; [discriminate|].
  apply bind_inr in H. destruct H as (u & s' & _ & H). discriminate.
Qed.

Lemma none_only_at_the_early_returns_witness :
  exists t more mid,
    get_close_matches Reference.ref_lib "Film 61"
                      (map m_title Examples.movies61) 1 = t :: more /\
    movieId_of_title Examples.movies61 t = inr mid /\
    existsb (Z.eqb mid) (ds_movieId Examples.dataset60) = false.
Proof.
  assert (get_close_matches Reference.ref_lib "Film 61"
                            (map m_title Examples.movies61) 1 <> []) as Hne
      by (vm_compute; discriminate).
  destruct (@none_only_at_the_early_returns Qc Reference.QcFloat
              Reference.ref_lib "Film 61" Examples.movies61 Examples.dataset60
              Examples.knn60 (ds_values Examples.dataset60) 10
              Examples.world60)
    as [[E _]|(t & more & mid & E & Emid &  Ex & _)].
  - vm_compute. reflexivity.
  - contradiction (Hne E).
  - exists t, more, mid. split; [exact E|]. split; [exact Emid|exact Ex].
Defined.

(** X5: [kneighbors] answers with the nearest first, so the [sorted] call
    changes nothing: the variable [rec_movie_indices] is the answer of
    [kneighbors] (asked for at least two neighbours) without its first pair,
    in reverse order. *)
Theorem sorting_the_answer_changes_nothing
        {float : Type} {FO : FloatOps float} (lib : Library)
        (metric algorithm : string)
        (X : matrix) (q : list float) (k : nat) (ds : list float)
        (ixs : list nat) :
  kneighbors lib metric algorithm X q k = inr (ds, ixs) ->
  same_width X q = true ->
  2 <= k ->
  rec_movie_indices ixs ds = inr (rev (tl (combine ixs ds))).
Proof.
  intros Ek Hw Hk. eapply rec_movie_indices_of_answer; [|exact Hk].
  eapply kneighbors_answer; eassumption.
Qed.

Lemma sorting_the_answer_changes_nothing_witness :
  exists ds ixs,
    kneighbors Reference.ref_lib "cosine" "brute" (ds_values Small.dataset5)
               [Reference.qc 5 1; Reference.qc 0 1; Reference.qc 1 1] 3
    = inr (ds, ixs) /\
    rec_movie_indices ixs ds = inr (rev (tl (combine ixs ds))).
Proof.
  assert (exists ds ixs,
             kneighbors Reference.ref_lib "cosine" "brute"
                        (ds_values Small.dataset5)
                        [Reference.qc 5 1; Reference.qc 0 1; Reference.qc 1 1] 3
             = inr (ds, ixs)) as (ds & ixs & E)
      by (eexists; eexists; vm_compute; reflexivity).
  exists ds, ixs. split; [exact E|].
  apply (@sorting_the_answer_changes_nothing Qc Reference.QcFloat
           Reference.ref_lib "cosine" "brute" (ds_values Small.dataset5)
           [Reference.qc 5 1; Reference.qc 0 1; Reference.qc 1 1] 3 ds ixs E).
  - vm_compute. reflexivity.
  - lia.
Defined.

(** X6: two movies of the frame with the same rating vector, every other
    row strictly farther from it under the model's metric, each of the two
    rows shown under the title it is queried by (as [title_at] looks it up,
    through the float64 row): queried by name, at least one of the two is
    recommended to itself.  The frame and the model fit together as [main]
    leaves them, and the library may order the two rows either way. *)
Theorem a_twin_is_recommended_to_itself
        {float : Type} {FO : FloatOps float} (lib : Library)
        (movies : list movie_row) (final_dataset : dataset)
        (knn : NearestNeighbors) (csr_data : matrix) (n : nat) (s : state)
        (name1 name2 t1 t2 : string) (more1 more2 : list string)
        (mid1 mid2 : Z) (r1 r2 : nat) (q : list float) :
  well_formed movies final_dataset knn csr_data n ->
  get_close_matches lib name1 (map m_title movies) 1 = t1 :: more1 ->
  movieId_of_title movies t1 = inr mid1 ->
  find_index (fun m => (m =? mid1)%Z) (ds_movieId final_dataset) = Some r1 ->
  title_at movies final_dataset r1 = inr t1 ->
  get_close_matches lib name2 (map m_title movies) 1 = t2 :: more2 ->
  movieId_of_title movies t2 = inr mid2 ->
  find_index (fun m => (m =? mid2)%Z) (ds_movieId final_dataset) = Some r2 ->
  title_at movies final_dataset r2 = inr t2 ->
  r1 <> r2 ->
  nth_error csr_data r1 = Some q ->
  nth_error csr_data r2 = Some q ->
  others_farther (distance lib (nn_metric knn)) csr_data q r1 r2 = true ->
  (exists df s',
      get_movie_recommendation lib name1 movies final_dataset knn csr_data n s
      = (inr (Some df), s') /\
      In t1 (map fst (df_rows df))) \/
  (exists df s',
      get_movie_recommendation lib name2 movies final_dataset knn csr_data n s
      = (inr (Some df), s') /\
      In t2 (map fst (df_rows df))).
Proof.
  intros Hwf Egcm1 Emid1 Er1 Et1 Egcm2 Emid2 Er2 Et2 N Eq1 Eq2 Hfar.
  assert (others_farther (distance lib (nn_metric knn)) csr_data q r2 r1
          = true) as Hfar'.
  { unfold others_farther in *. rewrite forallb_forall in *. intros j Hj.
    rewrite (orb_comm (j =? r2)). now apply Hfar. }
  destruct (query_computed lib name1 s Hwf Egcm1 Emid1 Er1)
    as (q1 & ds1 & ixs1 & rows1 & s1 & Eq1' & Ek1 & Hnear1 & Erows1 & _ & Hrun1).
  destruct (query_computed lib name2 s Hwf Egcm2 Emid2 Er2)
    as (q2 & ds2 & ixs2 & rows2 & s2 & Eq2' & Ek2 & _ & Erows2 & _ & Hrun2).
  rewrite Eq1 in Eq1'. injection Eq1' as <-.
  rewrite Eq2 in Eq2'. injection Eq2' as <-.
  rewrite Ek1 in Ek2. injection Ek2 as <- <-.
  pose proof Hwf as (_ & _ & Hrect & _ & Hn & Hrows).
  destruct (one_twin_is_recommended_to_itself lib (nn_metric knn)
              (nn_algorithm knn) csr_data Hn Hrows N Eq1 Eq2
              Hfar Hfar' (rectangular_row _ _ Hrect Eq1))
    as (ds & ixs & recs & Ek & Erecs & Hin).
  rewrite Ek1 in Ek. injection Ek as <- <-.
  rewrite (rec_movie_indices_of_answer Hnear1) in Erecs by lia.
  injection Erecs as <-.
  assert (forall r t rows,
             recommend_frame movies final_dataset (rev (tl (combine ixs1 ds1)))
             = inr rows ->
             title_at movies final_dataset r = inr t ->
             In r (map fst (rev (tl (combine ixs1 ds1)))) ->
             In t (map fst rows)) as Hrow.
  { intros r t rows Erows Et Hr. apply in_map_iff in Hr.
    destruct Hr as (val & <- & Hval).
    pose proof (recommend_frame_rows _ _ _ Erows) as Hrows2.
    destruct (@Forall2_In_l _ _ _ _ _ _ Hrows2 Hval)
      as (row & Hrow & Etitle & _).
    rewrite Et in Etitle. injection Etitle as ->.
    apply in_map_iff. now exists row. }
  destruct Hin as [Hin|Hin].
  - left. eexists. exists s1. split; [exact Hrun1|]. simpl.
    eapply Hrow; eassumption.
  - right. eexists. exists s2. split; [exact Hrun2|]. simpl.
    eapply Hrow; eassumption.
Qed.

Lemma a_twin_is_recommended_to_itself_witness :
  (exists df s',
      get_movie_recommendation Reference.ref_lib "Alpha (1990)" Small.movies4
        Small.dataset4 (Examples.fitted (ds_values Small.dataset4))
        (ds_values Small.dataset4) 2 Small.start
      = (inr (Some df), s') /\
      In "Alpha (1990)"%string (map fst (df_rows df))) \/
  (exists df s',
      get_movie_recommendation Reference.ref_lib "Bravo (1991)" Small.movies4
        Small.dataset4 (Examples.fitted (ds_values Small.dataset4))
        (ds_values Small.dataset4) 2 Small.start
      = (inr (Some df), s') /\
      In "Bravo (1991)"%string (map fst (df_rows df))).
Proof.
  apply (@a_twin_is_recommended_to_itself Qc Reference.QcFloat
           Reference.ref_lib Small.movies4 Small.dataset4
           (Examples.fitted (ds_values Small.dataset4))
           (ds_values Small.dataset4) 2 Small.start
           "Alpha (1990)" "Bravo (1991)" "Alpha (1990)" "Bravo (1991)" [] []
           1%Z 2%Z 0 1 [Reference.qc 5 1; Reference.qc 0 1]);
    try (vm_compute; reflexivity).
  - repeat split; try (vm_compute; reflexivity); simpl; lia.
  - discriminate.
Defined.

(** X7: after a set-up that went through, no query raises.  Let the frame
    be the one preprocessing makes of ratings.csv, the model the one
    [create_recommendation_model] returns for it, every rated movie be
    listed in movies.csv, and the frame have at least n+1 movies (n >= 1):
    then whatever name is typed, [get_movie_recommendation] returns, None
    or a frame. *)
Theorem queries_after_setup_never_raise
        {float : Type} {FO : FloatOps float} (lib : Library)
        (movies : list movie_row) (ratings : list rating_row)
        (final_dataset : dataset) (knn : NearestNeighbors) (csr_data : matrix)
        (n : nat) (s0 : state) :
  preprocess ratings = inr final_dataset ->
  fst (create_recommendation_model lib final_dataset s0) = inr (knn, csr_data) ->
  forallb (fun r => existsb (Z.eqb (r_movieId r)) (map m_movieId movies))
          ratings = true ->
  1 <= n ->
  n + 1 <= List.length (ds_movieId final_dataset) ->
  forall (movie_name : string) (s : state),
  exists res s',
    get_movie_recommendation lib movie_name movies final_dataset knn csr_data
                             n s = (inr res, s').
Proof.
  intros Hp Hc Hall Hn Hrows movie_name s.
  apply create_recommendation_model_returned in Hc.
  destruct Hc as (-> & -> & _).
  pose proof Hp as Hshape. apply preprocess_shape in Hshape.
  destruct Hshape as [Hlen Hrect].
  apply query_returns. unfold well_formed. simpl.
  split; [reflexivity|]. split; [exact Hlen|]. split; [exact Hrect|].
  split; [|lia].
  rewrite Hlen. eapply all_listed_of_ratings; [exact Hp|].
  intros r Hr. rewrite forallb_forall in Hall. specialize (Hall r Hr).
  apply existsb_exists in Hall. destruct Hall as (x & Hx & E).
  apply Z.eqb_eq in E. now subst x.
Qed.

Lemma queries_after_setup_never_raise_witness :
  exists res s',
    get_movie_recommendation Reference.ref_lib "Film 7" Examples.movies60
      Examples.dataset60 Examples.knn60 (ds_values Examples.dataset60) 10
      Examples.world60 = (inr res, s').
Proof.
  apply (@queries_after_setup_never_raise Qc Reference.QcFloat
           Reference.ref_lib Examples.movies60 Examples.ratings60
           Examples.dataset60 Examples.knn60 (ds_values Examples.dataset60) 10
           Examples.world60);
    try (vm_compute; reflexivity); simpl; lia.
Defined.

(** X8: a query that returns a frame made exactly three library calls, the
    fuzzy match, [kneighbors] and [statistics.variance], and the variance
    is taken over the Distance column of the returned frame: with two rows
    or more its value is printed, with a single row the StatisticsError is
    caught and the message printed instead. *)
Theorem variance_is_of_the_frame_distances
        {float : Type} {FO : FloatOps float} (lib : Library)
        (movie_name : string) (movies : list movie_row) (final_dataset : dataset)
        (knn : NearestNeighbors) (csr_data : matrix) (n : nat) (s s' : state)
        (df : frame) :
  get_movie_recommendation lib movie_name movies final_dataset knn csr_data n s
  = (inr (Some df), s') ->
  exists q,
    (2 <= List.length (df_rows df) ->
     exists v,
       variance lib (map snd (df_rows df)) = inr v /\
       s' = logged s [Call (get_close_matches_call movie_name
                              (map m_title movies) 1);
                      Call (kneighbors_call q (n + 1));
                      Call (variance_call (map snd (df_rows df)));
                      Print (variance_line v)]) /\
    (List.length (df_rows df) < 2 ->
     s' = logged s [Call (get_close_matches_call movie_name
                            (map m_title movies) 1);
                    Call (kneighbors_call q (n + 1));
                    Call (variance_call (map snd (df_rows df)));
                    Raised StatisticsError;
                    Print not_enough_data_message]).
Proof.
  intro Hrun. destruct (recommendation_returned_run lib _ _ _ _ _ _ _ Hrun)
    as (q & Hv).
  exists q. split; intro Hlen.
  - destruct (variance_defined lib (map snd (df_rows df))) as (v & Ev);
      [now rewrite length_map|].
    exists v. split; [exact Ev|].
    rewrite (report_variance_value lib _ _ Ev), logged_logged in Hv.
    now injection Hv as <-.
  - assert (variance lib (map snd (df_rows df)) = inl StatisticsError) as Ev
        by (apply variance_too_short; now rewrite length_map).
    rewrite (report_variance_caught lib _ _ Ev), logged_logged in Hv.
    now injection Hv as <-.
Qed.

Lemma variance_is_of_the_frame_distances_witness :
  exists df s' q v,
    get_movie_recommendation Reference.ref_lib "Alpha (1990)" Small.movies5
      Small.dataset5 (Examples.fitted (ds_values Small.dataset5))
      (ds_values Small.dataset5) 2 Small.start
    = (inr (Some df), s') /\
    variance Reference.ref_lib (map snd (df_rows df)) = inr v /\
    s' = logged Small.start
           [Call (get_close_matches_call "Alpha (1990)"
                    (map m_title Small.movies5) 1);
            Call (kneighbors_call q (2 + 1));
            Call (variance_call (map snd (df_rows df)));
            Print (variance_line v)].
Proof.
  assert (exists df s',
             get_movie_recommendation Reference.ref_lib "Alpha (1990)"
               Small.movies5 Small.dataset5
               (Examples.fitted (ds_values Small.dataset5))
               (ds_values Small.dataset5) 2 Small.start
             = (inr (Some df), s') /\
             2 <= List.length (df_rows df)) as (df & s' & H & Hlen).
  { eexists. eexists. split; [vm_compute; reflexivity|]. simpl. lia. }
  destruct (@variance_is_of_the_frame_distances Qc Reference.QcFloat
              Reference.ref_lib "Alpha (1990)" Small.movies5 Small.dataset5
              (Examples.fitted (ds_values Small.dataset5))
              (ds_values Small.dataset5) 2 Small.start s' df H)
    as (q & Hmany & _).
  destruct (Hmany Hlen) as (v & Ev & Es).
  exists df, s', q, v. split; [exact H|]. split; [exact Ev|exact Es].
Defined.

(** X9: the movieId a title resolves to is that of the first row of
    movies.csv with this title: when two movies share a title, the one
    further down is never the one looked up. *)
Theorem first_of_same_title_is_looked_up
        (movies : list movie_row) (t : string) (i : nat) (row : movie_row) :
  find_index (fun m => String.eqb (m_title m) t) movies = Some i ->
  nth_error movies i = Some row ->
  movieId_of_title movies t = inr (m_movieId row).
Proof.
  unfold movieId_of_title. revert i.
  induction movies as [|m l IH]; intros i Ei Hi; [discriminate|].
  simpl in *. destruct (String.eqb (m_title m) t).
  - injection Ei as <-. simpl in Hi. now injection Hi as ->.
  - destruct (find_index (fun m0 => String.eqb (m_title m0) t) l) as [k|];
      [|discriminate].
    injection Ei as <-. simpl in Hi. now apply (IH k).
Qed.

Lemma first_of_same_title_is_looked_up_witness :
  movieId_of_title Sessions.remakes "Solaris" = inr 1%Z.
Proof.
  apply (@first_of_same_title_is_looked_up
           Sessions.remakes "Solaris" 0
           {| m_movieId := 1; m_title := "Solaris"; m_genres := "Drama" |});
    reflexivity.
Defined.

(** ** The loop of [main] *)

(** X10: a line that reads "quit" in any mix of upper and lower case ends
    the loop at once, with no query made; the lines after it are never
    read, so they change nothing of the run. *)
Theorem loop_stops_at_first_quit
        {float : Type} {FO : FloatOps float} (lib : Library)
        (line : string) (rest : list string) :
  is_quit line = true ->
  (forall s,
      main_loop lib (line :: rest) s
      = (inr tt, logged s [Call (input_call prompt)])) /\
  (forall earlier s,
      main_loop lib (earlier ++ line :: rest) s
      = main_loop lib (earlier ++ [line]) s).
Proof.
  intro Hq. split.
  - intro s. now rewrite main_loop_cons, Hq.
  - intro earlier. induction earlier as [|name earlier IH]; intro s; simpl app.
    + now rewrite !main_loop_cons, Hq.
    + rewrite !main_loop_cons. destruct (is_quit name); [reflexivity|].
      unfold bind.
      destruct (answer lib name (logged s [Call (input_call prompt)]))
        as [[e|u] s']; [reflexivity|apply IH].
Qed.

Lemma loop_stops_at_first_quit_witness :
  main_loop Reference.ref_lib ["QuIt"%string; "Film 7"%string]
            Sessions.ready60
  = (inr tt, logged Sessions.ready60 [Call (input_call prompt)]).
Proof.
  apply (@loop_stops_at_first_quit Qc Reference.QcFloat Reference.ref_lib
           "QuIt" ["Film 7"%string]).
  reflexivity.
Defined.

(** X11: once the variables of [main] hold a frame and a model that fit
    together (at least eleven movies, each listed in movies.csv), nothing
    typed at the prompt makes the loop raise: it ends normally at the first
    "quit", and in the EOFError of [input] when the input ends before
    one. *)
Theorem session_ends_at_quit_or_end_of_input
        {float : Type} {FO : FloatOps float} (lib : Library)
        (inputs : list string) (s : state)
        (movies : list movie_row) (final_dataset : dataset)
        (knn : NearestNeighbors) (csr_data : matrix) :
  bound (st_vars s) movies final_dataset knn csr_data ->
  well_formed movies final_dataset knn csr_data 10 ->
  fst (main_loop lib inputs s)
  = if existsb is_quit inputs then inr tt else inl EOFError.
Proof.
  intros Hb Hwf. revert s Hb.
  induction inputs as [|name rest IH]; intros s Hb.
  - now rewrite main_loop_nil.
  - rewrite main_loop_cons. simpl. destruct (is_quit name); [reflexivity|].
    simpl. set (s1 := logged s [Call (input_call prompt)]).
    assert (bound (st_vars s1) movies final_dataset knn csr_data) as Hb1
        by exact Hb.
    unfold bind. erewrite answer_bound by exact Hb1.
    pose proof (keeps_get_movie_recommendation lib name movies final_dataset
                  knn csr_data 10 (@is_frame_vars float) s1) as Hv.
    destruct (query_returns lib name s1 Hwf) as (res & s' & Hrun).
    rewrite Hrun in *. cbn [snd] in Hv.
    destruct res as [df|]; apply IH; simpl; rewrite Hv; exact Hb1.
Qed.

Lemma session_ends_at_quit_or_end_of_input_witness :
  fst (main_loop Reference.ref_lib ["Film 7"%string; "zzzz"%string]
                 Sessions.ready60)
  = inl EOFError.
Proof.
  apply (@session_ends_at_quit_or_end_of_input Qc Reference.QcFloat
           Reference.ref_lib ["Film 7"%string; "zzzz"%string]
           Sessions.ready60 Examples.movies60 Examples.dataset60
           Examples.knn60 (ds_values Examples.dataset60)).
  - repeat split.
  - repeat split; try (vm_compute; reflexivity); simpl; lia.
Defined.

(** X12: every frame [main] prints has ten rows under the index 1..10,
    whatever the files hold and whatever is typed; and when the frame that
    loading returns has fewer than eleven movies, [main] prints no
    recommendation at all. *)
Theorem printed_frames_have_ten_rows
        {float : Type} {FO : FloatOps float} (lib : Library)
        (inputs : list string) (s : state) :
  exists evs,
    st_out (snd (main lib inputs s)) = st_out s ++ evs /\
    Forall (full_frame 10) (recommended evs) /\
    (forall (movies : list movie_row) (ratings : list rating_row)
            (final_dataset : dataset),
        fst (load_and_preprocess_data s)
        = inr (Some movies, Some ratings, Some final_dataset) ->
        List.length (ds_movieId final_dataset) < 11 ->
        recommended evs = []).
Proof.
  destruct (main_cases lib inputs s)
    as [(s' & evs & E & Eout & Hnf & _)
       |[(e & s' & evs & E & Eout & Hnf)
        |(s2 & evs & movies & ratings & fd & knn & E & Eout & Hnf & _ & Er
          & Hp & _ & Hb & Efit)]].
  - exists evs. rewrite E. split; [exact Eout|].
    rewrite (recommended_no_frame Hnf). split; [constructor|reflexivity].
  - exists evs. rewrite E. split; [exact Eout|].
    rewrite (recommended_no_frame Hnf). split; [constructor|reflexivity].
  - pose proof Hp as Hshape. apply preprocess_shape in Hshape.
    destruct Hshape as [Hlen Hrect].
    destruct (@main_loop_frames _ _ lib inputs s2 movies fd knn (ds_values fd)
                (ds_values fd) Hb Efit (rectangular_Forall _ Hrect))
      as (evs' & Eout' & Hfr & Hfew).
    exists (evs ++ evs'). rewrite E, Eout', Eout, <- app_assoc.
    split; [reflexivity|].
    rewrite recommended_app, (recommended_no_frame Hnf).
    split; [exact Hfr|].
    intros movies' ratings' fd' Hl Hlt. apply load_returned in Hl.
    destruct Hl as (_ & Er' & Hp'). rewrite Er in Er'. injection Er' as <-.
    rewrite Hp in Hp'. injection Hp' as <-.
    simpl. apply Hfew. rewrite Hlen. exact Hlt.
Qed.

Lemma printed_frames_have_ten_rows_witness :
  let run := main Reference.ref_lib ["Film 1"%string; "quit"%string]
                  Sessions.world8 in
  fst run = inl ValueError /\ recommended (st_out (snd run)) = [].
Proof.
  intro run. split; [vm_compute; reflexivity|]. subst run.
  destruct (@printed_frames_have_ten_rows Qc Reference.QcFloat
              Reference.ref_lib ["Film 1"%string; "quit"%string]
              Sessions.world8) as (evs & E & _ & H).
  rewrite E.
  apply (H Examples.movies60 Sessions.ratings8
           (Examples.preprocessed Sessions.ratings8)).
  - vm_compute. reflexivity.
  - vm_compute. lia.
Defined.

(** X13: [main] returns without an exception in two cases only: one of the
    two files was not found, or a line that reads "quit" was typed. *)
Theorem main_returns_for_a_missing_file_or_quit
        {float : Type} {FO : FloatOps float} (lib : Library)
        (inputs : list string) (s : state) :
  fst (main lib inputs s) = inr tt ->
  movies_csv (st_files s) = inl FileNotFoundError \/
  ratings_csv (st_files s) = inl FileNotFoundError \/
  existsb is_quit inputs = true.
Proof.
  intro H.
  destruct (main_cases lib inputs s)
    as [(s' & evs & _ & _ & _ & [F|F])
       |[(e & s' & evs & E & _)|(s2 & evs & mv & rt & fd & knn & E & _)]].
  - now left.
  - right. now left.
  - rewrite E in H. discriminate.
  - rewrite E in H. right. right. eapply main_loop_returned. exact H.
Qed.

Lemma main_returns_for_a_missing_file_or_quit_witness :
  movies_csv (st_files Examples.world60) = inl FileNotFoundError \/
  ratings_csv (st_files Examples.world60) = inl FileNotFoundError \/
  existsb is_quit ["Film 7"%string; "Quit"%string] = true.
Proof.
  apply (@main_returns_for_a_missing_file_or_quit Qc Reference.QcFloat
           Reference.ref_lib ["Film 7"%string; "Quit"%string] Examples.world60).
  vm_compute. reflexivity.
Defined.

(** X14: whatever the files hold and whatever is typed, every [kneighbors]
    call [main] makes asks for eleven neighbours (the ten recommendations
    and the queried movie), never for the twenty the model was constructed
    with, and every call of difflib asks for a single title. *)
Theorem main_asks_for_eleven_neighbours
        {float : Type} {FO : FloatOps float} (lib : Library)
        (inputs : list string) (s : state) :
  exists evs,
    st_out (snd (main lib inputs s)) = st_out s ++ evs /\
    (forall q k, In (Call (kneighbors_call q k)) evs -> k = 11) /\
    (forall w ps k, In (Call (get_close_matches_call w ps k)) evs -> k = 1).
Proof.
  assert (emits asks_as_written (main lib inputs)) as Hmain.
  { unfold main.
    apply emits_bind; [apply asks_as_written_load|]. intro loaded.
    apply emits_bind; [apply emits_quiet_state; intro; reflexivity|]. intros _.
    apply emits_bind; [apply emits_quiet_state; intro; reflexivity|]. intro v.
    destruct (is_None (v_movies v) || is_None (v_ratings v)
              || is_None (v_final_dataset v)); [apply emits_ret|].
    apply emits_bind; [apply emits_read_var; intro; exact I|]. intro fd.
    apply emits_bind; [apply asks_as_written_create_recommendation_model|].
    intro model.
    apply emits_bind; [apply emits_quiet_state; intro; reflexivity|]. intros _.
    apply emits_bind; [apply emits_read_var; intro; exact I|]. intro fd'.
    apply emits_bind; [apply asks_as_written_train_models|]. intros _.
    apply emits_bind; [apply emits_read_var; intro; exact I|]. intro fd''.
    apply emits_bind; [apply asks_as_written_visualize_datasets|]. intros _.
    apply asks_as_written_main_loop. }
  destruct (Hmain s) as (evs & E & H).
  exists evs. split; [exact E|]. rewrite Forall_forall in H.
  split; intros; match goal with Hin : In _ evs |- _ => exact (H _ Hin) end.
Qed.

(** ** Loading and the frame *)

(** X15: the only exceptions that leave [load_and_preprocess_data] are
    those of the two [read_csv] calls, and FileNotFoundError is never one
    of them: the pivot, the fill, the count and the column selection raise
    nothing (no KeyError for a selected user). *)
Theorem load_raises_only_read_errors
        {float : Type} {FO : FloatOps float} (s : state) (e : exn) :
  fst (load_and_preprocess_data s) = inl e ->
  e <> FileNotFoundError /\
  (movies_csv (st_files s) = inl e \/
   exists movies, movies_csv (st_files s) = inr movies /\
                  ratings_csv (st_files s) = inl e).
Proof.
  intro H.
  destruct (movies_csv (st_files s)) as [e1|movies] eqn:Em.
  { destruct (exn_eqb e1 FileNotFoundError) eqn:Ee.
    - apply exn_eqb_eq in Ee. subst e1.
      rewrite (load_movies_not_found s Em) in H. discriminate.
    - assert (e1 <> FileNotFoundError) as N
          by (intros ->; discriminate).
      rewrite (load_movies_unreadable s Em N) in H. injection H as <-.
      split; [exact N|now left]. }
  destruct (ratings_csv (st_files s)) as [e2|ratings] eqn:Er.
  { destruct (exn_eqb e2 FileNotFoundError) eqn:Ee.
    - apply exn_eqb_eq in Ee. subst e2.
      rewrite (load_ratings_not_found s Em Er) in H. discriminate.
    - assert (e2 <> FileNotFoundError) as N
          by (intros ->; discriminate).
      rewrite (load_ratings_unreadable s Em Er N) in H. injection H as <-.
      split; [exact N|]. right. now exists movies. }
  destruct (load_files_present s Em Er) as (fd & _ & Hl).
  rewrite Hl in H. discriminate.
Qed.

Lemma load_raises_only_read_errors_witness :
  OtherError "ParserError" <> FileNotFoundError /\
  (movies_csv (st_files Sessions.world_unreadable)
   = inl (OtherError "ParserError") \/
   exists movies,
     movies_csv (st_files Sessions.world_unreadable) = inr movies /\
     ratings_csv (st_files Sessions.world_unreadable)
     = inl (OtherError "ParserError")).
Proof.
  apply (@load_raises_only_read_errors Qc Reference.QcFloat
           Sessions.world_unreadable (OtherError "ParserError")).
  reflexivity.
Defined.

(** X16: the rows of the returned frame are in strictly increasing order
    of movieId and its user columns in strictly increasing order of
    userId, whatever the order of the lines of ratings.csv. *)
Theorem frame_labels_ascending
        {float : Type} {FO : FloatOps float} (s : state)
        (movies : list movie_row) (ratings : list rating_row)
        (final_dataset : dataset) :
  fst (load_and_preprocess_data s)
  = inr (Some movies, Some ratings, Some final_dataset) ->
  StronglySorted Z.lt (ds_movieId final_dataset) /\
  StronglySorted Z.lt (ds_users final_dataset).
Proof.
  intro H. apply load_returned in H. destruct H as (_ & _ & Hp).
  rewrite preprocess_spec in Hp. injection Hp as <-. simpl. split.
  - apply sorted_unique_sorted.
  - apply StronglySorted_filter, sorted_unique_sorted.
Qed.

Lemma frame_labels_ascending_witness :
  StronglySorted Z.lt (ds_movieId Examples.dataset60) /\
  StronglySorted Z.lt (ds_users Examples.dataset60).
Proof.
  apply (@frame_labels_ascending Qc Reference.QcFloat Examples.world60
           Examples.movies60 Examples.ratings60 Examples.dataset60).
  vm_compute. reflexivity.
Defined.

(** X17: when no user of ratings.csv has more than 50 ratings, the filter
    keeps no column: the frame still has a row for every rated movie, and
    every row of its matrix is empty. *)
Theorem no_user_kept_no_columns
        {float : Type} {FO : FloatOps float} (s : state)
        (movies : list movie_row) (ratings : list rating_row)
        (final_dataset : dataset) :
  fst (load_and_preprocess_data s)
  = inr (Some movies, Some ratings, Some final_dataset) ->
  forallb (fun u => count_ratings ratings u <=? 50)
          (sorted_unique (map r_userId ratings)) = true ->
  ds_movieId final_dataset = sorted_unique (map r_movieId ratings) /\
  ds_users final_dataset = [] /\
  ds_values final_dataset = map (fun _ => []) (ds_movieId final_dataset).
Proof.
  intros H Hfew. apply load_returned in H. destruct H as (_ & _ & Hp).
  rewrite preprocess_spec in Hp. injection Hp as <-. simpl.
  assert (kept_users ratings = []) as ->.
  { unfold kept_users. rewrite forallb_forall in Hfew.
    induction (sorted_unique (map r_userId ratings)) as [|u l IH];
      [reflexivity|]. simpl.
    assert ((50 <? count_ratings ratings u) = false) as ->.
    { apply Nat.ltb_ge, Nat.leb_le, Hfew. now left. }
    apply IH. intros x Hx. apply Hfew. now right. }
  repeat split.
Qed.

Lemma no_user_kept_no_columns_witness :
  exists final_dataset,
    fst (load_and_preprocess_data Sessions.world5)
    = inr (Some Examples.movies60, Some Sessions.ratings5, Some final_dataset) /\
    ds_users final_dataset = [] /\
    ds_values final_dataset = [[]; []; []; []; []].
Proof.
  assert (exists final_dataset,
             fst (load_and_preprocess_data Sessions.world5)
             = inr (Some Examples.movies60, Some Sessions.ratings5,
                    Some final_dataset)) as (fd & H)
      by (eexists; vm_compute; reflexivity).
  exists fd. split; [exact H|].
  destruct (@no_user_kept_no_columns Qc Reference.QcFloat Sessions.world5
              Examples.movies60 Sessions.ratings5 fd H)
    as (A & B & C); [vm_compute; reflexivity|].
  split; [exact B|]. rewrite C, A. reflexivity.
Defined.

(** X18: the row [get_movie_recommendation] looks up for a movieId is that
    movie's own: position r of the movieId column holds the movieId, no
    other position does, and row r of the matrix holds that movie's entry
    for every kept user. *)
Theorem looked_up_row_is_the_movie
        {float : Type} {FO : FloatOps float} (s : state)
        (movies : list movie_row) (ratings : list rating_row)
        (final_dataset : dataset) (mid : Z) (r : nat) :
  fst (load_and_preprocess_data s)
  = inr (Some movies, Some ratings, Some final_dataset) ->
  find_index (fun m => (m =? mid)%Z) (ds_movieId final_dataset) = Some r ->
  nth_error (ds_movieId final_dataset) r = Some mid /\
  (forall r', nth_error (ds_movieId final_dataset) r' = Some mid -> r' = r) /\
  nth_error (ds_values final_dataset) r
  = Some (map (entry ratings mid) (ds_users final_dataset)).
Proof.
  intros H Er. apply load_returned in H. destruct H as (_ & _ & Hp).
  rewrite preprocess_spec in Hp. injection Hp as <-. simpl in *.
  destruct (find_index_some _ _ Er) as (x & Hx & Px & _).
  apply Z.eqb_eq in Px. subst x.
  split; [exact Hx|]. split.
  - intros r' Hr'.
    pose proof (sorted_unique_NoDup (map r_movieId ratings)) as Hnd.
    rewrite NoDup_nth_error in Hnd. apply Hnd.
    + apply nth_error_Some. congruence.
    + congruence.
  - now rewrite nth_error_map, Hx.
Qed.

Lemma looked_up_row_is_the_movie_witness :
  nth_error (ds_movieId Examples.dataset60) 6 = Some 7%Z /\
  (forall r', nth_error (ds_movieId Examples.dataset60) r' = Some 7%Z ->
              r' = 6) /\
  nth_error (ds_values Examples.dataset60) 6
  = Some (map (entry Examples.ratings60 7) (ds_users Examples.dataset60)).
Proof.
  apply (@looked_up_row_is_the_movie Qc Reference.QcFloat Examples.world60
           Examples.movies60 Examples.ratings60 Examples.dataset60 7%Z 6);
    vm_compute; reflexivity.
Defined.

(** No (movieId, userId) pair has two lines in ratings.csv. *)
Definition rated_once {float : Type} (ratings : list (@rating_row float))
  : bool :=
  forallb (fun r => List.length (ratings_of ratings (r_movieId r) (r_userId r))
                    <=? 1)
          ratings.

(** X19: when no (movie, user) pair is rated twice, the frame does not
    depend on the order of the lines of ratings.csv: the same lines in any
    other order load to the same frame. *)
Theorem frame_independent_of_line_order
        {float : Type} {FO : FloatOps float} (s s' : state)
        (movies movies' : list movie_row) (ratings ratings' : list rating_row) :
  movies_csv (st_files s) = inr movies ->
  ratings_csv (st_files s) = inr ratings ->
  movies_csv (st_files s') = inr movies' ->
  ratings_csv (st_files s') = inr ratings' ->
  Permutation ratings ratings' ->
  rated_once ratings = true ->
  exists final_dataset,
    fst (load_and_preprocess_data s)
    = inr (Some movies, Some ratings, Some final_dataset) /\
    fst (load_and_preprocess_data s')
    = inr (Some movies', Some ratings', Some final_dataset).
Proof.
  intros Em Er Em' Er' P Honce.
  destruct (load_files_present s Em Er) as (fd & Hp & Hl).
  destruct (load_files_present s' Em' Er') as (fd' & Hp' & Hl').
  exists fd. rewrite Hl, Hl'. split; [reflexivity|]. simpl.
  rewrite (preprocess_perm P) in Hp'.
  - rewrite Hp in Hp'. now injection Hp' as <-.
  - intros m u. unfold rated_once in Honce. rewrite forallb_forall in Honce.
    destruct (ratings_of ratings m u) as [|x l] eqn:E; [simpl; lia|].
    assert (In x (ratings_of ratings m u)) as Hin by (rewrite E; now left).
    unfold ratings_of in Hin. apply in_map_iff in Hin.
    destruct Hin as (r & _ & Hr). apply filter_In in Hr.
    destruct Hr as [Hr Hmu]. apply andb_true_iff in Hmu.
    destruct Hmu as [Hm Hu]. apply Z.eqb_eq in Hm, Hu.
    specialize (Honce r Hr). rewrite Hm, Hu, E in Honce.
    now apply Nat.leb_le.
Qed.

Lemma frame_independent_of_line_order_witness :
  exists final_dataset,
    fst (load_and_preprocess_data Examples.world60)
    = inr (Some Examples.movies60, Some Examples.ratings60,
           Some final_dataset) /\
    fst (load_and_preprocess_data Sessions.world60_reversed)
    = inr (Some Examples.movies60, Some (rev Examples.ratings60),
           Some final_dataset).
Proof.
  apply (@frame_independent_of_line_order Qc Reference.QcFloat
           Examples.world60 Sessions.world60_reversed
           Examples.movies60 Examples.movies60
           Examples.ratings60 (rev Examples.ratings60));
    [reflexivity|reflexivity|reflexivity|reflexivity
    |apply Permutation_rev|vm_compute; reflexivity].
Defined.

(** ** Plotting and training *)

(** X20: the histogram [visualize_datasets] asks for (50 bins, with the
    density curve, then [show]) is drawn over every cell of the loaded
    frame's matrix, row by row, the zeros of the unrated pairs included:
    as many values as movies times kept users. *)
Theorem histogram_covers_every_cell
        {float : Type} {FO : FloatOps float} (s0 s : state)
        (movies : list movie_row) (ratings : list rating_row)
        (final_dataset : dataset) :
  fst (load_and_preprocess_data s0)
  = inr (Some movies, Some ratings, Some final_dataset) ->
  exists data,
    visualize_datasets final_dataset s
    = (inr tt,
       logged s [Call (histplot_call data 50 true);
                 Call (show_call "Distribution of Ratings in Processed Dataset"
                                 "Ratings" "Frequency")]) /\
    data = flat_map (fun m => map (entry ratings m) (ds_users final_dataset))
                    (ds_movieId final_dataset) /\
    List.length data
    = List.length (ds_movieId final_dataset)
      * List.length (ds_users final_dataset).
Proof.
  intro H. apply load_returned in H. destruct H as (_ & _ & Hp).
  rewrite preprocess_spec in Hp. injection Hp as <-. simpl.
  eexists. split; [|split].
  - unfold visualize_datasets, call_lib, bind, emit, lift, ret, logged. simpl.
    rewrite <- app_assoc. reflexivity.
  - now rewrite flat_map_concat_map.
  - apply length_concat_table.
Qed.

Lemma histogram_covers_every_cell_witness :
  exists data,
    visualize_datasets Examples.dataset60 Examples.world60
    = (inr tt,
       logged Examples.world60
         [Call (histplot_call data 50 true);
          Call (show_call "Distribution of Ratings in Processed Dataset"
                          "Ratings" "Frequency")]) /\
    List.length data = 60 * 3.
Proof.
  destruct (@histogram_covers_every_cell Qc Reference.QcFloat Examples.world60
              Examples.world60 Examples.movies60 Examples.ratings60
              Examples.dataset60) as (data & Hrun & _ & Hlen).
  - vm_compute. reflexivity.
  - exists data. split; [exact Hrun|]. rewrite Hlen. reflexivity.
Defined.

(** X21: from numpy's global generator [train_models] draws one label per
    row of the frame and then, if the split returned, what [SVC().fit] draws
    for its seed (at least one word when training returns), and nothing
    more: afterwards the generator is exactly that many words further,
    whether [train_models] returns or one of its library calls raises. *)
Theorem train_models_draws_labels_and_a_seed
        {float : Type} {FO : FloatOps float} (lib : Library)
        (final_dataset : dataset) (s : state) :
  let X := ds_values final_dataset in
  let y := map (fun i => Z.odd (st_rng s i)) (seq 0 (List.length X)) in
  let rng := fun i => st_rng s (List.length X + i) in
  let drawn := match train_test_split lib X y (2 # 10) 42 with
               | inl _ => 0
               | inr sp => snd (SVC_fit lib (X_train sp) (y_train sp) rng)
               end in
  (forall i, st_rng (snd (train_models lib final_dataset s)) i
             = st_rng s (List.length X + drawn + i)) /\
  (is_inr (fst (train_models lib final_dataset s)) = true -> 1 <= drawn).
Proof.
  intros X y rng drawn.
  assert (forall r, train_models lib final_dataset s = r ->
                    (forall i, st_rng (snd r) i
                               = st_rng s (List.length X + drawn + i)) /\
                    (is_inr (fst r) = true -> 1 <= drawn)) as H;
    [|now apply H].
  intros r. subst drawn. unfold train_models. fold X.
  unfold bind at 1. unfold randint_0_2 at 1. cbn [fst snd]. fold y.
  match goal with
  | |- context [bind _ _ ?s0] => set (s1 := s0)
  end.
  rewrite bind_call_lib.
  destruct (train_test_split lib X y (2 # 10) 42) as [e|sp].
  { intros <-. split; [|discriminate].
    intro i. simpl. now rewrite Nat.add_0_r. }
  rewrite bind_SVC_fit_default.
  change (st_rng (logged s1 [Call (train_test_split_call X y (2 # 10) 42)]))
    with rng.
  destruct (SVC_fit lib (X_train sp) (y_train sp) rng) as [[e|svm] drawn]
    eqn:Esvm; cbn [snd].
  { intros <-. split; [|discriminate].
    intro i. simpl. now rewrite Nat.add_assoc. }
  pose proof (SVC_fit_draws lib _ _ _ Esvm) as Hdrawn.
  unfold print, call_lib, bind, emit, lift, raise, emit, ret. simpl.
  repeat match goal with
         | |- context [match ?x with inl _ => _ | inr _ => _ end] =>
             destruct x; simpl
         end;
    intros <-;
    (split; [intro i; simpl; now rewrite Nat.add_assoc
            |first [discriminate|intros _; exact Hdrawn]]).
Qed.
